(** * MathAgent: guardrails, knowledge retrieval, agent stages, the
    session state machine, the ingestion script and the web search tool,
    embedded from [backend/agents.py], [backend/kb_tool.py],
    [backend/main.py], [backend/db_setup.py] and [backend/mcp_server.py]. *)

From Stdlib Require Import NArith Ascii String.
From stdpp Require Import base option list gmap pretty.

Set Default Proof Using "Type".

(** ** Python strings

    A Python [str] is a sequence of Unicode code points.  Literals of the
    source that are plain ASCII are written with [u "..."]; other characters
    are given by their code point. *)

Abbreviation codepoint := N (only parsing).
Abbreviation pystr := (list N) (only parsing).

Fixpoint u (s : string) : pystr :=
  match s with
  | EmptyString => []
  | String a s' => N_of_ascii a :: u s'
  end.

(** The double quote and the line feed, which a literal cannot hold. *)
Definition dquote : pystr := [34%N].
Definition nl : pystr := [10%N].

(** [prefix_of p s]: [s.startswith(p)]. *)
Fixpoint prefix_of (p s : pystr) : bool :=
  match p, s with
  | [], _ => true
  | _ :: _, [] => false
  | x :: p', y :: s' => N.eqb x y && prefix_of p' s'
  end.

(** [py_in p s]: the Python expression [p in s] on two strings. *)
Fixpoint py_in (p s : pystr) : bool :=
  prefix_of p s ||
  match s with
  | [] => false
  | _ :: s' => py_in p s'
  end.

(** [any(w in s for w in ws)]. *)
Definition any_in (ws : list pystr) (s : pystr) : bool :=
  existsb (fun w => py_in w s) ws.

(** Truthiness of a string: [not s]. *)
Definition py_not (s : pystr) : bool :=
  match s with [] => true | _ => false end.

Fixpoint drop_while (p : N -> bool) (s : pystr) : pystr :=
  match s with
  | [] => []
  | c :: s' => if p c then drop_while p s' else s
  end.

(** ** Unicode data

    [str.lower], [str.strip] and the classes of [re] read CPython's Unicode
    tables, which are not part of the repository: they are an interface
    here, and [ascii_tables] is the instance that is exact on ASCII text,
    also when the text holds surrogates (which have no case and are
    neither whitespace, digits nor word characters).
    The one law: lowercasing text made of whitespace leaves it so. *)

Class UnicodeData := {
  str_lower : pystr -> pystr;      (* str.lower() *)
  is_space : N -> bool;            (* whitespace of str.strip() and \s *)
  is_digit : N -> bool;            (* \d *)
  is_word : N -> bool;             (* \w, which decides \b *)
  ci_eq : N -> N -> bool;          (* equality of characters under re.IGNORECASE *)
  lower_blank : forall s,
    forallb is_space s = true -> forallb is_space (str_lower s) = true
}.

Definition in_range (lo hi c : N) : bool := N.leb lo c && N.leb c hi.

Definition ascii_lower_cp (c : N) : N :=
  if in_range 65 90 c then (c + 32)%N else c.

Definition unicode_space (c : N) : bool :=
  in_range 9 13 c || in_range 28 32 c || N.eqb c 133 || N.eqb c 160
  || N.eqb c 5760 || in_range 8192 8202 c || in_range 8232 8233 c
  || N.eqb c 8239 || N.eqb c 8287 || N.eqb c 12288.

Definition ascii_digit (c : N) : bool := in_range 48 57 c.

Definition ascii_word (c : N) : bool :=
  in_range 48 57 c || in_range 65 90 c || in_range 97 122 c || N.eqb c 95.

#[export, refine] Instance ascii_tables : UnicodeData := {|
  str_lower := map ascii_lower_cp;
  is_space := unicode_space;
  is_digit := ascii_digit;
  is_word := ascii_word;
  ci_eq := fun a b => N.eqb (ascii_lower_cp a) (ascii_lower_cp b);
  lower_blank := _
|}.
Proof.
  assert (Hid : forall c, unicode_space c = true -> ascii_lower_cp c = c).
  { intros c Hc. unfold ascii_lower_cp.
    destruct (in_range 65 90 c) eqn:E; [exfalso | reflexivity].
    unfold unicode_space, in_range in *.
    repeat match goal with
    | H : _ && _ = true |- _ => apply andb_true_iff in H; destruct H
    | H : _ || _ = true |- _ => apply orb_true_iff in H; destruct H
    | H : N.leb _ _ = true |- _ => apply N.leb_le in H
    | H : N.eqb _ _ = true |- _ => apply N.eqb_eq in H
    end; lia. }
  induction s as [|c s IH]; simpl; [reflexivity|].
  intros Hs. apply andb_true_iff in Hs. destruct Hs as [Hc Hs].
  rewrite (Hid c Hc), Hc. exact (IH Hs).
Defined.

(** ** Regular expressions: the fragment of [re] the source uses *)

Inductive citem :=
| One (c : N)                (* a literal character *)
| Range (lo hi : N)          (* a-z *)
| ClsDigit                   (* \d *)
| ClsSpace.                  (* \s *)

Inductive regex :=
| Eps
| Chr (neg : bool) (items : list citem)   (* a character, a class or [^...] *)
| Bound                                    (* \b *)
| Cat (r1 r2 : regex)
| Alt (r1 r2 : regex)
| Star (r : regex)                         (* greedy r* *)
| Group (i : nat) (r : regex).             (* the i-th capturing group *)

Definition Lit (c : N) : regex := Chr false [One c].
Definition Plus (r : regex) : regex := Cat r (Star r).
Definition Opt (r : regex) : regex := Alt r Eps.
Definition Digit : regex := Chr false [ClsDigit].

(** The characters of a literal, in sequence. *)
Fixpoint Str (s : pystr) : regex :=
  match s with
  | [] => Eps
  | [c] => Lit c
  | c :: s' => Cat (Lit c) (Str s')
  end.

Fixpoint Seq (rs : list regex) : regex :=
  match rs with
  | [] => Eps
  | [r] => r
  | r :: rs' => Cat r (Seq rs')
  end.

Fixpoint Alts (rs : list regex) : regex :=
  match rs with
  | [] => Eps
  | [r] => r
  | r :: rs' => Alt r (Alts rs')
  end.

Definition AnyOf (s : pystr) : regex := Chr false (map One s).
Definition NoneOf (s : pystr) : regex := Chr true (map One s).

(** A compiled pattern: the expression and its IGNORECASE flag. *)
Record pattern := { pat_re : regex; pat_icase : bool }.

Definition re_compile (r : regex) : pattern := {| pat_re := r; pat_icase := false |}.
Definition re_compile_i (r : regex) : pattern := {| pat_re := r; pat_icase := true |}.

(** A replacement template: literal text and group references. *)
Inductive titem :=
| TLit (s : pystr)
| TGroup (i : nat).

(** Position of the matcher in the subject: the character before it, what
    is left, the offset, and the groups captured so far. *)
Record mstate := {
  m_prev : option N;
  m_rest : pystr;
  m_pos : nat;
  m_caps : list (nat * pystr)
}.

Definition m_init (s : pystr) : mstate :=
  {| m_prev := None; m_rest := s; m_pos := 0; m_caps := [] |}.

Definition m_advance (st : mstate) : option (N * mstate) :=
  match m_rest st with
  | [] => None
  | c :: s' =>
      Some (c, {| m_prev := Some c; m_rest := s'; m_pos := S (m_pos st);
                  m_caps := m_caps st |})
  end.

Definition m_capture (i : nat) (from to : mstate) : mstate :=
  {| m_prev := m_prev to; m_rest := m_rest to; m_pos := m_pos to;
     m_caps := (i, take (m_pos to - m_pos from) (m_rest from))
               :: filter (fun p => negb (Nat.eqb (fst p) i)) (m_caps to) |}.

Definition m_group (i : nat) (st : mstate) : pystr :=
  match List.find (fun p => Nat.eqb (fst p) i) (m_caps st) with
  | Some p => snd p
  | None => []
  end.

Section Matcher.
Context `{UnicodeData}.

Definition item_match (ic : bool) (it : citem) (c : N) : bool :=
  match it with
  | One d => if ic then ci_eq c d else N.eqb c d
  | Range lo hi => in_range lo hi c
  | ClsDigit => is_digit c
  | ClsSpace => is_space c
  end.

Definition chr_match (ic neg : bool) (items : list citem) (c : N) : bool :=
  xorb neg (existsb (fun it => item_match ic it c) items).

Definition opt_word (o : option N) : bool :=
  match o with Some c => is_word c | None => false end.

Definition at_boundary (st : mstate) : bool :=
  xorb (opt_word (m_prev st)) (opt_word (head (m_rest st))).

(** Greedy repetition of [step]: one more iteration is tried first, and
    must consume input; the fuel is the length of what is left. *)
Fixpoint star_loop (step : (mstate -> option mstate) -> mstate -> option mstate)
    (k : mstate -> option mstate) (fuel : nat) (st : mstate) : option mstate :=
  match fuel with
  | O => k st
  | S fuel' =>
      match step (fun st' => if Nat.ltb (m_pos st) (m_pos st')
                             then star_loop step k fuel' st' else None) st with
      | Some m => Some m
      | None => k st
      end
  end.

(** Backtracking matcher in continuation style: the first match in the
    priority order of [re] (left alternative first, longest repetition
    first). *)
Fixpoint mt (ic : bool) (r : regex) (k : mstate -> option mstate)
    (st : mstate) {struct r} : option mstate :=
  match r with
  | Eps => k st
  | Chr neg items =>
      match m_advance st with
      | Some (c, st') => if chr_match ic neg items c then k st' else None
      | None => None
      end
  | Bound => if at_boundary st then k st else None
  | Cat r1 r2 => mt ic r1 (mt ic r2 k) st
  | Alt r1 r2 =>
      match mt ic r1 k st with
      | Some m => Some m
      | None => mt ic r2 k st
      end
  | Star r1 => star_loop (mt ic r1) k (S (length (m_rest st))) st
  | Group i r1 => mt ic r1 (fun st' => k (m_capture i st st')) st
  end.

(** A match anchored at the position of [st]; every attempt starts with
    no group captured. *)
Definition match_at (p : pattern) (st : mstate) : option mstate :=
  mt (pat_icase p) (pat_re p) Some
     {| m_prev := m_prev st; m_rest := m_rest st; m_pos := m_pos st;
        m_caps := [] |}.

(** [pattern.search(s)]: the leftmost match, as (state at its start, state
    at its end). *)
Fixpoint search_from (p : pattern) (fuel : nat) (st : mstate)
    : option (mstate * mstate) :=
  match match_at p st with
  | Some e => Some (st, e)
  | None =>
      match fuel, m_advance st with
      | S fuel', Some (_, st') => search_from p fuel' st'
      | _, _ => None
      end
  end.

Definition re_search (p : pattern) (s : pystr) : bool :=
  match search_from p (length s) (m_init s) with
  | Some _ => true
  | None => false
  end.

(** The replacement text of one match. *)
Definition expand (repl : list titem) (e : mstate) : pystr :=
  flat_map (fun it => match it with
                      | TLit s => s
                      | TGroup i => m_group i e
                      end) repl.

(** [pattern.sub(repl, s)]: every leftmost non-overlapping match is
    replaced; after an empty match one character is copied. *)
Fixpoint sub_loop (p : pattern) (repl : list titem) (fuel : nat)
    (st : mstate) : pystr :=
  match match_at p st with
  | Some e =>
      if Nat.ltb (m_pos st) (m_pos e) then
        match fuel with
        | S fuel' => expand repl e ++ sub_loop p repl fuel' e
        | O => expand repl e ++ m_rest e
        end
      else
        match fuel, m_advance st with
        | S fuel', Some (c, st') => expand repl e ++ c :: sub_loop p repl fuel' st'
        | _, _ => expand repl e ++ m_rest st
        end
  | None =>
      match fuel, m_advance st with
      | S fuel', Some (c, st') => c :: sub_loop p repl fuel' st'
      | _, _ => m_rest st
      end
  end.

Definition re_sub (p : pattern) (repl : list titem) (s : pystr) : pystr :=
  sub_loop p repl (S (length s)) (m_init s).

End Matcher.

(** ** [agents.py]: input and output guardrails *)

Module MathGuardrails.

Definition MATH_KEYWORDS : list pystr := map u [
  "solve"; "equation"; "derivative"; "integral"; "function"; "graph"; "plot";
  "algebra"; "calculus"; "geometry"; "trigonometry"; "statistics"; "probability";
  "matrix"; "vector"; "limit"; "series"; "theorem"; "proof"; "formula";
  "calculate"; "compute"; "simplify"; "factor"; "expand"; "evaluate";
  "polynomial"; "exponential"; "logarithm"; "sine"; "cosine"; "tangent";
  "differential"; "optimization"; "minimum"; "maximum"; "area"; "volume";
  "perimeter"; "distance"; "slope"; "intercept"; "quadratic"; "linear";
  "parabola"; "circle"; "triangle"; "rectangle"; "sphere"; "cylinder";
  "binomial"; "factorial"; "permutation"; "combination"; "variance"; "deviation"
]%string.

Definition MATH_PATTERNS : list pattern := [
  (* [+\-*/=<>≤≥≠±∞] *)
  re_compile (AnyOf (u "+-*/=<>" ++ [8804; 8805; 8800; 177; 8734]%N));
  (* [xy]\^?\d* *)
  re_compile (Seq [AnyOf (u "xy"); Opt (Lit 94); Star Digit]);
  (* \d+[xy] *)
  re_compile (Seq [Plus Digit; AnyOf (u "xy")]);
  (* sin|cos|tan|log|ln|sqrt, IGNORECASE *)
  re_compile_i (Alts (map Str (map u
    ["sin"; "cos"; "tan"; "log"; "ln"; "sqrt"]%string)));
  (* ∫|∑|∏|∂|∆|π|θ|α|β|γ|λ|μ|σ *)
  re_compile (Alts (map Lit
    [8747; 8721; 8719; 8706; 8710; 960; 952; 945; 946; 947; 955; 956; 963]%N));
  (* \b\d+\.\d+\b *)
  re_compile (Seq [Bound; Plus Digit; Lit 46; Plus Digit; Bound]);
  (* \b\d+/\d+\b *)
  re_compile (Seq [Bound; Plus Digit; Lit 47; Plus Digit; Bound]);
  (* \([^)]*[xy][^)]*\) *)
  re_compile (Seq [Lit 40; Star (NoneOf (u ")")); AnyOf (u "xy");
                   Star (NoneOf (u ")")); Lit 41]);
  (* [a-z]\s*²|[a-z]\s*³ *)
  re_compile (Alt
    (Seq [Chr false [Range 97 122]; Star (Chr false [ClsSpace]); Lit 178])
    (Seq [Chr false [Range 97 122]; Star (Chr false [ClsSpace]); Lit 179]))
].

Definition NON_MATH_INDICATORS : list pystr := map u [
  "write a story"; "tell me a joke"; "weather"; "news"; "recipe";
  "movie"; "book recommendation"; "health advice"; "relationship";
  "what is your opinion"; "how do you feel"; "personal experience"
]%string.

Definition EDGE_CASE_WORDS : list pystr :=
  map u ["find"; "what is"; "how much"; "calculate"]%string.

Definition letters : regex := Plus (Chr false [Range 97 122; Range 65 90]).

Definition REPLACEMENTS : list (pattern * list titem) := [
  (* (\d+)/(\d+)  ->  \\frac{\1}{\2} *)
  (re_compile (Seq [Group 1 (Plus Digit); Lit 47; Group 2 (Plus Digit)]),
   [TLit (u "\frac{"); TGroup 1; TLit (u "}{"); TGroup 2; TLit (u "}")]);
  (* \^(\d+)  ->  ^{\1} *)
  (re_compile (Seq [Lit 94; Group 1 (Plus Digit)]),
   [TLit (u "^{"); TGroup 1; TLit (u "}")]);
  (* \^([a-zA-Z]+)  ->  ^{\1} *)
  (re_compile (Seq [Lit 94; Group 1 letters]),
   [TLit (u "^{"); TGroup 1; TLit (u "}")]);
  (* sqrt\(([^)]+)\)  ->  \\sqrt{\1} *)
  (re_compile (Seq [Str (u "sqrt"); Lit 40; Group 1 (Plus (NoneOf (u ")"))); Lit 41]),
   [TLit (u "\sqrt{"); TGroup 1; TLit (u "}")]);
  (* √\(([^)]+)\)  ->  \\sqrt{\1} *)
  (re_compile (Seq [Lit 8730; Lit 40; Group 1 (Plus (NoneOf (u ")"))); Lit 41]),
   [TLit (u "\sqrt{"); TGroup 1; TLit (u "}")]);
  (* \bpi\b, IGNORECASE  ->  π *)
  (re_compile_i (Seq [Bound; Str (u "pi"); Bound]), [TLit [960%N]]);
  (* \binfinity\b, IGNORECASE  ->  ∞ *)
  (re_compile_i (Seq [Bound; Str (u "infinity"); Bound]), [TLit [8734%N]]);
  (* \btheta\b, IGNORECASE  ->  θ *)
  (re_compile_i (Seq [Bound; Str (u "theta"); Bound]), [TLit [952%N]]);
  (* \balpha\b, IGNORECASE  ->  α *)
  (re_compile_i (Seq [Bound; Str (u "alpha"); Bound]), [TLit [945%N]]);
  (* \bbeta\b, IGNORECASE  ->  β *)
  (re_compile_i (Seq [Bound; Str (u "beta"); Bound]), [TLit [946%N]]);
  (* \bgamma\b, IGNORECASE  ->  γ *)
  (re_compile_i (Seq [Bound; Str (u "gamma"); Bound]), [TLit [947%N]]);
  (* d/dx  ->  \\frac{d}{dx} *)
  (re_compile (Str (u "d/dx")), [TLit (u "\frac{d}{dx}")]);
  (* \bintegral\b, IGNORECASE  ->  ∫ *)
  (re_compile_i (Seq [Bound; Str (u "integral"); Bound]), [TLit [8747%N]])
].

Definition MSG_EMPTY : pystr :=
  u "Please provide a mathematical question or problem.".
Definition MSG_NON_MATH : pystr :=
  u "I'm designed specifically for mathematical problems. Please ask a maths related question.".
Definition MSG_VALID : pystr := u "Valid mathematical input".
Definition MSG_CAUTION : pystr :=
  u "Potentially maths problem, so proceed with caution".
Definition MSG_NOT_MATH : pystr :=
  u "This doesn't appear to be a mathematical question. I specialize in solving math problems. Please ask about equations, calculations, or mathematical concepts.".

Section Guardrails.
Context `{UnicodeData}.

(** [s.strip()] *)
Definition strip (s : pystr) : pystr :=
  rev (drop_while is_space (rev (drop_while is_space s))).

(** [topic.lower().strip()] *)
Definition topic_lower (topic : pystr) : pystr := strip (str_lower topic).

Definition has_math_keywords (topic : pystr) : bool :=
  any_in MATH_KEYWORDS (topic_lower topic).

Definition has_math_patterns (topic : pystr) : bool :=
  existsb (fun p => re_search p (topic_lower topic)) MATH_PATTERNS.

Definition validate_math_input (topic : pystr) : bool * pystr :=
  if py_not topic || py_not (strip topic) then (false, MSG_EMPTY)
  else if any_in NON_MATH_INDICATORS (topic_lower topic) then (false, MSG_NON_MATH)
  else if has_math_keywords topic || has_math_patterns topic then (true, MSG_VALID)
  else if any_in EDGE_CASE_WORDS (topic_lower topic) then (true, MSG_CAUTION)
  else (false, MSG_NOT_MATH).

Definition format_math_output (text : pystr) : pystr :=
  if py_not text then text
  else fold_left (fun formatted pr => re_sub (fst pr) (snd pr) formatted)
                 REPLACEMENTS text.

End Guardrails.

End MathGuardrails.

Import MathGuardrails.

(** ** Calls that may raise

    An exception is represented by its text, [str(e)]; only subclasses of
    [Exception] are modelled. *)

Inductive outcome (A : Type) :=
| Ok (a : A)
| Raise (e : pystr).
Arguments Ok {A} a.
Arguments Raise {A} e.

(** State and exceptions: what a handler changed before it raised stays
    changed, as in Python. *)
Definition M (S A : Type) : Type := S -> outcome A * S.

Section Monad.
Context {S : Type}.

Definition ret {A} (a : A) : M S A := fun s => (Ok a, s).

Definition bind {A B} (c : M S A) (k : A -> M S B) : M S B :=
  fun s => match c s with
           | (Ok a, s') => k a s'
           | (Raise e, s') => (Raise e, s')
           end.

Definition raise {A} (e : pystr) : M S A := fun s => (Raise e, s).

(** [try: c except Exception as e: h e] *)
Definition try_except {A} (c : M S A) (h : pystr -> M S A) : M S A :=
  fun s => match c s with
           | (Ok a, s') => (Ok a, s')
           | (Raise e, s') => h e s'
           end.

Definition get : M S S := fun s => (Ok s, s).
Definition modify (f : S -> S) : M S unit := fun s => (Ok tt, f s).

End Monad.

Notation "x <~ c ;; k" := (bind c (fun x => k))
  (at level 20, c at level 99, k at level 200, only parsing).
Notation "c ;;; k" := (bind c (fun _ => k))
  (at level 100, k at level 200, only parsing, right associativity).

(** ** Standard output

    [print(text)] writes a line to the standard output of the process.  It
    returns, or it raises: [UnicodeEncodeError], which is a [ValueError],
    when the stream cannot encode the text (a lone surrogate, for
    instance), and [OSError] or another exception when the stream is closed
    or broken.  The two are kept apart because POST /chat catches
    [ValueError] before [Exception]. *)
Inductive printed :=
| Printed
| PrintValueError (e : pystr)    (* ValueError and its subclasses *)
| PrintError (e : pystr).        (* any other Exception *)

Definition print_outcome (p : printed) : outcome unit :=
  match p with
  | Printed => Ok tt
  | PrintValueError e | PrintError e => Raise e
  end.

(** The standard output of a process: what the print of a text does, given
    the number of external calls and prints made before it. *)
Definition stdout : Type := nat -> pystr -> printed.

(** The standard output accepts every line. *)
Definition prints_ok (out : stdout) : Prop := forall n text, out n text = Printed.

(** [str(i)] of a natural number. *)
Definition str_of_nat (i : nat) : pystr := u (pretty i).

(** ** [agents.py]: the three stages

    The language model, the agent framework and the MCP tool server are
    remote collaborators.  Every call to one of them, and every [print], is
    recorded in a trace, and its result is read from [services] at the index
    of the call, so that two calls with equal arguments may answer
    differently. *)

Inductive event :=
| EvLoadTools                                   (* the tool list of the MCP client *)
| EvNewAgent (name : pystr)                     (* FunctionAgent(name=..., ...) *)
| EvAgentRun (name : pystr) (prompt : pystr)    (* agent.run(prompt) *)
| EvComplete (prompt : pystr)                   (* llm.acomplete(prompt) *)
| EvPrint (text : pystr).                       (* print(text) *)

Record services := {
  svc_mcp_tools : nat -> outcome (list pystr);
  svc_new_agent : nat -> pystr -> list pystr -> outcome unit;
  svc_agent_run : nat -> pystr -> pystr -> outcome pystr;
  svc_acomplete : nat -> pystr -> outcome pystr;
  svc_print : stdout
}.

(** The fields of a [MathematicalAgent]; an agent object is its name. *)
Record MathematicalAgent := {
  research_agent : option pystr;
  math_agent : option pystr;
  tools_initialized : bool
}.

(** [MathematicalAgent.__init__] *)
Definition MathematicalAgent_init : MathematicalAgent :=
  {| research_agent := None; math_agent := None; tools_initialized := false |}.

Record ctx := { self : MathematicalAgent; trace : list event }.

Definition is_model_call (ev : event) : bool :=
  match ev with
  | EvAgentRun _ _ | EvComplete _ => true
  | _ => false
  end.

Definition is_print (ev : event) : bool :=
  match ev with
  | EvPrint _ => true
  | _ => false
  end.

(** The calls to the remote collaborators among [evs], log lines left out. *)
Definition remote_calls (evs : list event) : list event :=
  List.filter (fun ev => negb (is_print ev)) evs.

Section Agent.
Context `{UnicodeData} (svc : services).

Definition call {A} (ev : event) (reply : nat -> outcome A) : M ctx A :=
  fun c => (reply (length (trace c)),
            {| self := self c; trace := trace c ++ [ev] |}).

Definition set_self (f : MathematicalAgent -> MathematicalAgent) : M ctx unit :=
  modify (fun c => {| self := f (self c); trace := trace c |}).

(** [print(text)] *)
Definition py_print (text : pystr) : M ctx unit :=
  call (EvPrint text) (fun n => print_outcome (svc_print svc n text)).

Definition rag_tool : pystr := u "rag_knowledge_search".

(** The client, the tool specification and its tool list are one call to
    the MCP server. *)
Definition get_mcp_tools : M ctx (list pystr) :=
  try_except
    (tools <~ call EvLoadTools (svc_mcp_tools svc) ;;
     py_print (u "MCP tools loaded: " ++ str_of_nat (length tools)) ;;;
     ret tools)
    (fun e =>
     py_print (u "Error loading MCP tools: " ++ e) ;;;
     ret []).

Definition FunctionAgent (name : pystr) (tools : list pystr) : M ctx pystr :=
  call (EvNewAgent name) (fun n => svc_new_agent svc n name tools) ;;;
  ret name.

Definition _create_agents : M ctx unit :=
  c <~ get ;;
  if tools_initialized (self c) then ret tt
  else
    try_except
      (mcp_tools <~ get_mcp_tools ;;
       let tools := rag_tool :: mcp_tools in
       py_print (u "Total tools available: " ++ str_of_nat (length tools)) ;;;
       a <~ FunctionAgent (u "MathResearchAgent") tools ;;
       set_self (fun s => {| research_agent := Some a; math_agent := math_agent s;
                             tools_initialized := tools_initialized s |}) ;;;
       py_print (u "Research agent created successfully"))
      (fun e =>
       py_print (u "Research agent creation failed: " ++ e) ;;;
       set_self (fun s => {| research_agent := None; math_agent := math_agent s;
                             tools_initialized := tools_initialized s |})) ;;;
    try_except
      (a <~ FunctionAgent (u "MathSolverAgent") [] ;;
       set_self (fun s => {| research_agent := research_agent s; math_agent := Some a;
                             tools_initialized := tools_initialized s |}) ;;;
       py_print (u "Math agent created successfully"))
      (fun e =>
       py_print (u "Math agent creation failed: " ++ e) ;;;
       set_self (fun s => {| research_agent := research_agent s; math_agent := None;
                             tools_initialized := tools_initialized s |})) ;;;
    set_self (fun s => {| research_agent := research_agent s;
                          math_agent := math_agent s;
                          tools_initialized := true |}).

Definition agent_run (name prompt : pystr) : M ctx pystr :=
  call (EvAgentRun name prompt) (fun n => svc_agent_run svc n name prompt).

Definition llm_acomplete (prompt : pystr) : M ctx pystr :=
  call (EvComplete prompt) (fun n => svc_acomplete svc n prompt).

(** [if agent: try: return body(agent) except Exception as e: print(line(e))],
    followed by [rest]. *)
Definition with_agent (agent : option pystr) (body : pystr -> M ctx pystr)
    (line : pystr -> pystr) (rest : M ctx pystr) : M ctx pystr :=
  match agent with
  | Some a => try_except (body a) (fun e => py_print (line e) ;;; rest)
  | None => rest
  end.

Definition research_prompt (topic : pystr) : pystr :=
  u "Provide comprehensive mathematical research and context for: " ++ topic
  ++ nl ++ nl
  ++ u "Include relevant definitions, formulas, theorems, and solution approaches.".

Definition research_fallback_prompt (topic : pystr) : pystr :=
  u "Research mathematical context for: " ++ topic ++ nl
  ++ u "                            Provide:" ++ nl
  ++ u "                            1. Relevant mathematical concepts and definitions" ++ nl
  ++ u "                            2. Applicable formulas and theorems  " ++ nl
  ++ u "                            3. Common solution methods" ++ nl
  ++ u "                            4. Mathematical background and theory" ++ nl
  ++ u "                            Focus on information needed to solve this type of problem.".

Definition research_topic (topic : pystr) : M ctx pystr :=
  let '(is_valid, message) := validate_math_input topic in
  if negb is_valid then ret message
  else
    _create_agents ;;;
    py_print (u "Researching: " ++ topic) ;;;
    c <~ get ;;
    with_agent (research_agent (self c))
      (fun a => agent_run a (research_prompt topic))
      (fun e => u "Research agent error: " ++ e)
      (try_except
         (llm_acomplete (research_fallback_prompt topic))
         (fun e =>
          py_print (u "Fallback research error: " ++ e) ;;;
          ret (u "I'll solve this mathematical problem using fundamental principles."))).

Definition solve_prompt (topic research_context : pystr) : pystr :=
  u "RESEARCH CONTEXT:" ++ nl ++ research_context ++ nl ++ nl
  ++ u "PROBLEM TO SOLVE:" ++ nl ++ topic ++ nl ++ nl
  ++ u "Provide a complete step-by-step solution with clear explanations for each step.".

Definition solve_fallback_prompt (topic research_context : pystr) : pystr :=
  u "Solve this mathematical problem step by step:" ++ nl
  ++ u "            PROBLEM: " ++ topic ++ nl ++ nl
  ++ u "            CONTEXT: " ++ research_context ++ nl ++ nl
  ++ u "            Requirements:" ++ nl
  ++ u "            - Provide complete step-by-step solution" ++ nl
  ++ u "            - Explain mathematical reasoning for each step" ++ nl
  ++ u "            - Show all calculations clearly" ++ nl
  ++ u "            - Use proper mathematical notation" ++ nl
  ++ u "            - State the final answer prominently" ++ nl ++ nl
  ++ u "            Solve systematically and thoroughly.".

Definition solve_problem (topic research_context : pystr) : M ctx pystr :=
  let '(is_valid, message) := validate_math_input topic in
  if negb is_valid then ret message
  else
    _create_agents ;;;
    py_print (u "Solving: " ++ topic) ;;;
    c <~ get ;;
    with_agent (math_agent (self c))
      (fun a =>
         solution <~ agent_run a (solve_prompt topic research_context) ;;
         ret (format_math_output solution))
      (fun e => u "Math agent error: " ++ e)
      (try_except
         (solution <~ llm_acomplete (solve_fallback_prompt topic research_context) ;;
          ret (format_math_output solution))
         (fun e => ret (u "I encountered an error solving this problem: " ++ e))).

Definition improve_prompt (original_solution feedback topic : pystr) : pystr :=
  u "ORIGINAL PROBLEM: " ++ topic ++ nl
  ++ u "                ORIGINAL SOLUTION:" ++ nl
  ++ u "                " ++ original_solution ++ nl ++ nl
  ++ u "                HUMAN FEEDBACK: " ++ feedback ++ nl ++ nl
  ++ u "                Based on the feedback, improve the solution by:" ++ nl
  ++ u "                - Addressing specific concerns or questions" ++ nl
  ++ u "                - Providing additional explanations where needed" ++ nl
  ++ u "                - Correcting any errors identified" ++ nl
  ++ u "                - Adding more detail or alternative approaches" ++ nl
  ++ u "                - Maintaining mathematical accuracy" ++ nl
  ++ u "                Provide an improved, comprehensive solution that addresses the feedback.".

Definition improve_fallback_prompt (original_solution feedback topic : pystr) : pystr :=
  u "Improve this mathematical solution based on feedback:" ++ nl
  ++ u "            PROBLEM: " ++ topic ++ nl
  ++ u "            ORIGINAL SOLUTION: " ++ original_solution ++ nl
  ++ u "            FEEDBACK: " ++ feedback ++ nl ++ nl
  ++ u "            Provide an improved solution that addresses the feedback while maintaining accuracy.".

Definition improve_solution (original_solution feedback topic : pystr) : M ctx pystr :=
  _create_agents ;;;
  py_print (u "Improving solution based on feedback") ;;;
  c <~ get ;;
  with_agent (math_agent (self c))
    (fun a =>
       result <~ agent_run a (improve_prompt original_solution feedback topic) ;;
       ret (format_math_output result))
    (fun e => u "Math agent improvement error: " ++ e)
    (try_except
       (improved <~ llm_acomplete (improve_fallback_prompt original_solution feedback topic) ;;
        ret (format_math_output improved))
       (fun e => ret (u "I encountered an error improving the solution: " ++ e))).

End Agent.

(** ** [kb_tool.py]: the knowledge retriever *)

(** Values exchanged with the embedding service and the vector index: JSON
    data, a number being kept as its literal. *)
#[local] Unset Elimination Schemes.
Inductive json :=
| JNull
| JBool (b : bool)
| JNum (repr : pystr)
| JStr (s : pystr)
| JList (l : list json)
| JDict (kv : list (pystr * json)).
#[local] Set Elimination Schemes.

Inductive key :=
| KInt (i : nat)
| KStr (s : pystr).

Definition pystr_eqb (a b : pystr) : bool := bool_decide (a = b).

Fixpoint dict_get (kv : list (pystr * json)) (k : pystr) : option json :=
  match kv with
  | [] => None
  | (k', v) :: kv' => if pystr_eqb k' k then Some v else dict_get kv' k
  end.

(** [v[k]], with the exception Python raises when it fails. *)
Definition subscript (v : json) (k : key) : outcome json :=
  match v, k with
  | JList l, KInt i =>
      match l !! i with
      | Some x => Ok x
      | None => Raise (u "list index out of range")
      end
  | JList _, KStr _ => Raise (u "list indices must be integers or slices, not str")
  | JDict kv, KStr s =>
      match dict_get kv s with
      | Some x => Ok x
      | None => Raise (u "'" ++ s ++ u "'")
      end
  | JDict _, KInt _ => Raise (u "0")
  | JStr s, KInt i =>
      match s !! i with
      | Some c => Ok (JStr [c])
      | None => Raise (u "string index out of range")
      end
  | JStr _, KStr _ => Raise (u "string indices must be integers, not 'str'")
  | _, _ => Raise (u "object is not subscriptable")
  end.

(** [for res in v]: the elements of a list, the keys of a dict, the
    characters of a string. *)
Definition py_iter (v : json) : outcome (list json) :=
  match v with
  | JList l => Ok l
  | JDict kv => Ok (map (fun p => JStr (fst p)) kv)
  | JStr s => Ok (map (fun c => JStr [c]) s)
  | _ => Raise (u "object is not iterable")
  end.

Definition is_list (v : json) : bool :=
  match v with JList _ => true | _ => false end.

(** An HTTP response of [requests]: the status and the decoded body. *)
Record response := {
  status_code : N;
  json_body : outcome json
}.

(** The remote collaborators of the retriever. *)
Record kb_services := {
  kb_getenv : pystr -> option pystr;
  kb_post : pystr -> option pystr -> json -> outcome response;
  kb_Pinecone : option pystr -> outcome unit;
  kb_Index : pystr -> outcome unit;
  kb_query : pystr -> json -> nat -> bool -> outcome json;
  kb_print : pystr -> printed
}.

Section KbTool.
Context (kb : kb_services).

Definition lift {A} (o : outcome A) : M unit A := fun s => (o, s).

Fixpoint mapM {A B} (f : A -> M unit B) (l : list A) : M unit (list B) :=
  match l with
  | [] => ret []
  | x :: l' => y <~ f x ;; ys <~ mapM f l' ;; ret (y :: ys)
  end.

Definition HF_API_KEY : option pystr := kb_getenv kb (u "HF_TOKEN").
Definition HF_API_URL : pystr :=
  u "https://router.huggingface.co/hf-inference/models/intfloat/multilingual-e5-large/pipeline/feature-extraction".

(** [response.raise_for_status()] *)
Definition raise_for_status (r : response) : M unit unit :=
  if in_range 400 599 (status_code r) then raise (u "HTTPError") else ret tt.

Definition get_embeddings (query : pystr) : M unit json :=
  response <~ lift (kb_post kb HF_API_URL HF_API_KEY
                      (JDict [(u "inputs", JStr query)])) ;;
  raise_for_status response ;;;
  embeddings <~ lift (json_body response) ;;
  first <~ lift (subscript embeddings (KInt 0)) ;;
  if is_list first then lift (subscript embeddings (KInt 0)) else ret embeddings.

Definition get_pinecone_index : M unit unit :=
  let pinecone_key := kb_getenv kb (u "PINECONE_API_KEY") in
  lift (kb_Pinecone kb pinecone_key) ;;;
  lift (kb_Index kb (u "math-docs")).

(** [res["metadata"]["text"]] *)
Definition text_of (res : json) : M unit json :=
  metadata <~ lift (subscript res (KStr (u "metadata"))) ;;
  lift (subscript metadata (KStr (u "text"))).

(** The body of the [try] block. *)
Definition retrieve_body (query : pystr) : M unit (list json) :=
  vectorized_query <~ get_embeddings query ;;
  get_pinecone_index ;;;
  let namespace := u "engg-math-1" in
  search_result <~ lift (kb_query kb namespace vectorized_query 3 true) ;;
  matches <~ lift (subscript search_result (KStr (u "matches"))) ;;
  items <~ lift (py_iter matches) ;;
  mapM text_of items.

(** The line the [except] block prints. *)
Definition retrieval_error_line (e : pystr) : pystr := u "Rag retrieval error -> " ++ e.

(** What the [except] block makes of the failure [e]: the empty list, or
    the exception of its own print. *)
Definition after_failure (e : pystr) : outcome (list json) :=
  match kb_print kb (retrieval_error_line e) with
  | Printed => Ok []
  | PrintValueError e' | PrintError e' => Raise e'
  end.

Definition retrieve_data_from_db (query : pystr) : M unit (list json) :=
  try_except (retrieve_body query)
    (fun e =>
     lift (print_outcome (kb_print kb (retrieval_error_line e))) ;;;
     ret []).

(** The contract of the vector index on [top_k]: a query answers with at
    most [top_k] matches. *)
Definition honours_top_k : Prop :=
  forall ns v k md r m ms,
    kb_query kb ns v k md = Ok r ->
    subscript r (KStr (u "matches")) = Ok m ->
    py_iter m = Ok ms ->
    length ms <= k.

End KbTool.

(** ** [main.py]: the session store and the endpoints *)

Inductive status :=
| Processing            (* "processing" *)
| Researching           (* "researching" *)
| Solving               (* "solving" *)
| WaitingForApproval    (* "waiting_for_approval" *)
| Improving             (* "improving" *)
| Completed             (* "completed" *)
| Error.                (* "error" *)

Inductive speaker := user | assistant.

Record message := { role : speaker; content : pystr }.

(** The dict stored under a session id. *)
Record session := {
  agent : MathematicalAgent;
  sess_status : status;
  messages : list message;
  waiting_for_approval : bool;
  current_solution : option pystr;
  current_topic : pystr;
  research_context : option pystr
}.

Abbreviation loc := nat (only parsing).

(** A coroutine that is scheduled or suspended at an [await]. *)
Inductive task :=
| TStart (session_id topic : pystr)
    (* process_math_question(session_id, topic), created and not yet run *)
| TResearch (sess : loc) (session_id topic : pystr)
    (* ... at [await agent.research_topic(topic)] *)
| TSolve (sess : loc) (session_id topic research_result : pystr)
    (* ... at [await agent.solve_problem(topic, research_result)] *)
| TImprove (sess : loc) (current_solution : option pystr) (feedback topic : pystr).
    (* human_input at [await agent.improve_solution(current_solution, feedback, topic)] *)

(** The process: the global [sessions] dict maps an id to a reference to a
    session dict; a handler that holds [sess] across an [await] keeps
    writing to that object even after the id was deleted. *)
Record server := {
  sessions : gmap (list N) loc;
  heap : gmap loc session;
  tasks : list task;
  log : list event
}.

Definition server_init : server :=
  {| sessions := ∅; heap := ∅; tasks := []; log := [] |}.

Record ChatRequest := { topic : pystr; session_id : option pystr }.
Record HumanInputRequest := { hi_session_id : pystr; feedback : pystr }.

(** What an endpoint function does: it returns a value, raises an
    [HTTPException], or lets another exception out (the framework then
    answers 500, Internal Server Error). *)
Inductive http (A : Type) :=
| HttpOk (a : A)
| HTTPException (status_code : nat) (detail : pystr)
| Propagates (e : pystr).
Arguments HttpOk {A} a.
Arguments HTTPException {A} status_code detail.
Arguments Propagates {A} e.

Record ChatResponse := {
  r_session_id : pystr;
  r_status : status;
  r_messages : list message
}.

Record StateResponse := {
  g_session_id : pystr;
  g_status : status;
  g_messages : list message;
  g_waiting : bool        (* {"key": "approval"} or None *)
}.

(** *** Updates of one session object *)

Definition set_status (v : status) (s : session) : session :=
  {| agent := agent s; sess_status := v; messages := messages s;
     waiting_for_approval := waiting_for_approval s;
     current_solution := current_solution s; current_topic := current_topic s;
     research_context := research_context s |}.

Definition append_message (m : message) (s : session) : session :=
  {| agent := agent s; sess_status := sess_status s; messages := messages s ++ [m];
     waiting_for_approval := waiting_for_approval s;
     current_solution := current_solution s; current_topic := current_topic s;
     research_context := research_context s |}.

Definition set_waiting_for_approval (v : bool) (s : session) : session :=
  {| agent := agent s; sess_status := sess_status s; messages := messages s;
     waiting_for_approval := v;
     current_solution := current_solution s; current_topic := current_topic s;
     research_context := research_context s |}.

Definition set_current_solution (v : option pystr) (s : session) : session :=
  {| agent := agent s; sess_status := sess_status s; messages := messages s;
     waiting_for_approval := waiting_for_approval s;
     current_solution := v; current_topic := current_topic s;
     research_context := research_context s |}.

Definition set_research_context (v : option pystr) (s : session) : session :=
  {| agent := agent s; sess_status := sess_status s; messages := messages s;
     waiting_for_approval := waiting_for_approval s;
     current_solution := current_solution s; current_topic := current_topic s;
     research_context := v |}.

Definition set_agent (v : MathematicalAgent) (s : session) : session :=
  {| agent := v; sess_status := sess_status s; messages := messages s;
     waiting_for_approval := waiting_for_approval s;
     current_solution := current_solution s; current_topic := current_topic s;
     research_context := research_context s |}.

(** [sess[...] = ...] on the object at [l]. *)
Definition update (l : loc) (f : session -> session) (st : server) : server :=
  {| sessions := sessions st; heap := alter f l (heap st);
     tasks := tasks st; log := log st |}.

Definition spawn (t : task) (st : server) : server :=
  {| sessions := sessions st; heap := heap st;
     tasks := tasks st ++ [t]; log := log st |}.

Definition set_tasks (ts : list task) (st : server) : server :=
  {| sessions := sessions st; heap := heap st; tasks := ts; log := log st |}.

Definition set_log (t : list event) (st : server) : server :=
  {| sessions := sessions st; heap := heap st; tasks := tasks st; log := t |}.

(** [print(text)] in a handler: the line joins the trace of the process,
    and the standard output tells whether it was written. *)
Definition say (out : stdout) (text : pystr) (st : server) : outcome unit * server :=
  (print_outcome (out (length (log st)) text), set_log (log st ++ [EvPrint text]) st).

(** [str(x)] of a value that is a string or None, as an f-string shows it. *)
Definition fmt_opt (o : option pystr) : pystr :=
  match o with Some s => s | None => u "None" end.

(** *** process_math_question *)

Definition approval_message (solution : pystr) : pystr :=
  u " Yay! Solution Complete!" ++ nl
  ++ u "        Here's my step by step solution:" ++ nl ++ nl
  ++ u "        " ++ solution ++ nl ++ nl
  ++ u "        ---" ++ nl
  ++ u "        Please Review:" ++ nl
  ++ u "        - Type " ++ dquote ++ u "approve" ++ dquote ++ u " if the solution is correct" ++ nl
  ++ u "        - Or provide specific feedback for improvements.".

(** The [except Exception as e] block: it prints, then goes through
    [sessions] again.  When the print raises, the exception leaves the
    coroutine and nothing is written. *)
Definition pmq_except (out : stdout) (session_id e : pystr) (st : server) : server :=
  match say out (u "Error processing question: " ++ e) st with
  | (Raise _, st1) => st1
  | (Ok _, st1) =>
      match sessions st1 !! session_id with
      | Some l =>
          update l (fun s => append_message
                      {| role := assistant; content := u "I encountered an error: " ++ e |}
                      (set_status Error s)) st1
      | None => st1
      end
  end.

(** From the start to the first [await]. *)
Definition pmq_start (session_id : pystr) (st : server) : server * option loc :=
  match sessions st !! session_id with
  | None => (st, None)
  | Some l => (update l (set_status Researching) st, Some l)
  end.

(** From the result of [research_topic] to the second [await]. *)
Definition pmq_researched (out : stdout) (l : loc) (session_id : pystr)
    (r : outcome pystr) (st : server) : server * option pystr :=
  match r with
  | Ok research_result =>
      let st1 := update l (set_research_context (Some research_result)) st in
      match say out (u "Research completed for " ++ session_id) st1 with
      | (Ok _, st2) => (update l (set_status Solving) st2, Some research_result)
      | (Raise e, st2) => (pmq_except out session_id e st2, None)
      end
  | Raise e => (pmq_except out session_id e st, None)
  end.

(** From the result of [solve_problem] to the end. *)
Definition pmq_solved (out : stdout) (l : loc) (session_id : pystr)
    (r : outcome pystr) (st : server) : server :=
  match r with
  | Ok solution =>
      match say out (u "Solution generated for " ++ session_id) st with
      | (Ok _, st1) =>
          let st2 :=
            update l (fun s =>
              append_message {| role := assistant; content := approval_message solution |}
                (set_status WaitingForApproval
                   (set_waiting_for_approval true
                      (set_current_solution (Some solution) s)))) st1 in
          match say out (u " Awaiting feedback for " ++ session_id) st2 with
          | (Ok _, st3) => st3
          | (Raise e, st3) => pmq_except out session_id e st3
          end
      | (Raise e, st1) => pmq_except out session_id e st1
      end
  | Raise e => pmq_except out session_id e st
  end.

(** *** The endpoints *)

Record Ack := { ack_status : pystr; ack_message : pystr }.

(** POST /human-input has answered, or is suspended at
    [await agent.improve_solution(current_solution, req.feedback, topic)]. *)
Inductive progress :=
| Done (r : http Ack)
| AwaitImprove (sess : loc) (current_solution : option pystr) (topic : pystr).

Definition lookup_session (st : server) (session_id : pystr) : option (loc * session) :=
  match sessions st !! session_id with
  | Some l =>
      match heap st !! l with
      | Some s => Some (l, s)
      | None => None
      end
  | None => None
  end.

Definition new_session (topic : pystr) : session :=
  {| agent := MathematicalAgent_init;
     sess_status := Processing;
     messages := [{| role := user; content := topic |}];
     waiting_for_approval := false;
     current_solution := None;
     current_topic := topic;
     research_context := None |}.

(** The supplied id continues a session when it is truthy and a key of
    [sessions]. *)
Definition continued (req : ChatRequest) (st : server) : option (pystr * loc * session) :=
  match session_id req with
  | Some sid =>
      if py_not sid then None
      else match lookup_session st sid with
           | Some (l, s) => Some (sid, l, s)
           | None => None
           end
  | None => None
  end.

(** The line POST /chat prints first. *)
Definition chat_line (req : ChatRequest) : pystr :=
  u "Chat request: topic='" ++ take 100 (topic req) ++ u "...', session_id="
  ++ fmt_opt (session_id req).

(** The body of the [try] block of POST /chat after its print. *)
Definition chat_body (req : ChatRequest) (uuid : pystr) (st : server)
    : ChatResponse * server :=
  match continued req st with
  | Some (sid, l, s) =>
      let m := {| role := user; content := topic req |} in
      let st1 := spawn (TStart sid (topic req)) (update l (append_message m) st) in
      ({| r_session_id := sid; r_status := Processing;
          r_messages := messages s ++ [m] |}, st1)
  | None =>
      let l := fresh (dom (heap st)) in
      let s := new_session (topic req) in
      let st1 := {| sessions := <[uuid := l]> (sessions st);
                    heap := <[l := s]> (heap st);
                    tasks := tasks st; log := log st |} in
      ({| r_session_id := uuid; r_status := Processing;
          r_messages := messages s |},
       spawn (TStart uuid (topic req)) st1)
  end.

(** POST /chat; [uuid] is the value of [uuid.uuid4().hex].  Only the print
    can raise in the [try] block: a [ValueError] becomes the answer 400, and
    another exception is printed and becomes the answer 500. *)
Definition chat (out : stdout) (req : ChatRequest) (uuid : pystr) (st : server)
    : http ChatResponse * server :=
  let st0 := set_log (log st ++ [EvPrint (chat_line req)]) st in
  match out (length (log st)) (chat_line req) with
  | Printed =>
      let '(r, st1) := chat_body req uuid st0 in (HttpOk r, st1)
  | PrintValueError e => (HTTPException 400 e, st0)
  | PrintError e =>
      match say out (u " Error starting chat: " ++ e) st0 with
      | (Ok _, st1) => (HTTPException 500 (u "Error: " ++ e), st1)
      | (Raise e', st1) => (Propagates e', st1)
      end
  end.

(** GET /chat/{session_id} *)
Definition get_chat (session_id : pystr) (st : server) : http StateResponse :=
  match lookup_session st session_id with
  | None => HTTPException 404 (u "Session not found")
  | Some (_, s) =>
      HttpOk {| g_session_id := session_id; g_status := sess_status s;
                g_messages := messages s; g_waiting := waiting_for_approval s |}
  end.

(** DELETE /chat/{session_id} *)
Definition delete_session (session_id : pystr) (st : server) : http pystr * server :=
  match sessions st !! session_id with
  | Some _ =>
      (HttpOk (u "Session deleted"),
       {| sessions := delete session_id (sessions st); heap := heap st;
          tasks := tasks st; log := log st |})
  | None => (HTTPException 404 (u "Session not found"), st)
  end.

Definition APPROVAL_WORDS : list pystr :=
  map u ["approve"; "approved"; "yes"; "ok"; "correct"; "good"; "looks good"]%string.

Definition approved_response (current_solution : option pystr) : pystr :=
  u "Solution Approved!" ++ nl
  ++ u "            Final Solution:" ++ nl
  ++ u "            " ++ fmt_opt current_solution.

Definition improved_response (feedback improved_solution : pystr) : pystr :=
  u "Solution Improved Based on user Feedback" ++ nl
  ++ u "            Your Feedback: " ++ feedback ++ nl ++ nl
  ++ u "            Improved Solution:" ++ nl
  ++ u "            " ++ improved_solution ++ nl ++ nl
  ++ u "            ---" ++ nl
  ++ u "            Please Review Again: " ++ nl
  ++ u "            - Type " ++ dquote ++ u "approve" ++ dquote ++ u " if this solution looks good" ++ nl
  ++ u "            - Or provide additional feedback for further refinements".

Definition thanks_message : message :=
  {| role := assistant;
     content := u "Thank you for the feedback! Let me improve the solution..." |}.

Definition success : Ack :=
  {| ack_status := u "success"; ack_message := u "Feedback processed successfully" |}.

(** The line POST /human-input prints first in its [try] block. *)
Definition feedback_line (req : HumanInputRequest) : pystr :=
  u "Processing feedback for " ++ hi_session_id req ++ u ": "
  ++ take 100 (feedback req) ++ u "...".

(** The state after that print. *)
Definition fed (req : HumanInputRequest) (st : server) : server :=
  set_log (log st ++ [EvPrint (feedback_line req)]) st.

(** The [except Exception as e] block of POST /human-input, on the session
    object [l]: it prints, sets the status, appends a message and raises
    the answer 500.  When the print raises, that exception leaves the
    handler and nothing is written. *)
Definition hi_except (out : stdout) (l : loc) (e : pystr) (st : server)
    : http Ack * server :=
  match say out (u "Error processing feedback: " ++ e) st with
  | (Ok _, st1) =>
      (HTTPException 500 (u "Error: " ++ e),
       update l (fun s =>
         append_message
           {| role := assistant;
              content := u "I encountered an error processing your feedback: " ++ e |}
           (set_status Error s)) st1)
  | (Raise e', st1) => (Propagates e', st1)
  end.

Section Feedback.
Context `{UnicodeData}.

(** [req.feedback.strip().lower()] *)
Definition feedback_lower (feedback : pystr) : pystr := str_lower (strip feedback).

Definition is_approval (feedback : pystr) : bool :=
  any_in APPROVAL_WORDS (feedback_lower feedback).

(** POST /human-input, up to its answer or to the [await]. *)
Definition human_input_begin (out : stdout) (req : HumanInputRequest) (st : server)
    : progress * server :=
  match lookup_session st (hi_session_id req) with
  | None => (Done (HTTPException 404 (u "Session not found")), st)
  | Some (l, s) =>
      if negb (waiting_for_approval s)
      then (Done (HTTPException 400 (u "Session is not waiting for feedback")), st)
      else
        match say out (feedback_line req) st with
        | (Raise e, st0) =>
            let '(r, st1) := hi_except out l e st0 in (Done r, st1)
        | (Ok _, st0) =>
            let st1 := update l (append_message
                          {| role := user; content := feedback req |}) st0 in
            let current_solution := current_solution s in
            if is_approval (feedback req) then
              let final_response := approved_response current_solution in
              (Done (HttpOk success),
               update l (fun s =>
                 append_message {| role := assistant; content := final_response |}
                   (set_current_solution None
                      (set_waiting_for_approval false
                         (set_status Completed s)))) st1)
            else
              (AwaitImprove l current_solution (current_topic s),
               update l (fun s => append_message thanks_message (set_status Improving s)) st1)
        end
  end.

End Feedback.

(** POST /human-input, from the result of [improve_solution] on. *)
Definition human_input_resume (out : stdout) (l : loc) (feedback : pystr)
    (r : outcome pystr) (st : server) : http Ack * server :=
  match r with
  | Ok improved_solution =>
      let final_response := improved_response feedback improved_solution in
      (HttpOk success,
       update l (fun s =>
         append_message {| role := assistant; content := final_response |}
           (set_status WaitingForApproval
              (set_current_solution (Some improved_solution) s))) st)
  | Raise e => hi_except out l e st
  end.

(** *** Scheduling: requests and resumed coroutines, one step at a time

    Handlers run without interruption between two [await]s.  A step is a
    request, or the resumption of a coroutine with the result of the call it
    waits for; that result, the new state of the agent object and the
    external calls made are arbitrary here, so that every behaviour of
    the stages, raising included, is a step. *)

Inductive label :=
| LChat (req : ChatRequest) (uuid : pystr)
| LGetChat (session_id : pystr)
| LHumanInput (req : HumanInputRequest)
| LDelete (session_id : pystr)
| LResume (i : nat) (r : outcome pystr) (ag : MathematicalAgent) (evs : list event).

(** What the awaited call did to the agent of the session and to the trace. *)
Definition agent_effect (l : loc) (ag : MathematicalAgent) (evs : list event)
    (st : server) : server :=
  update l (set_agent ag) (set_log (log st ++ evs) st).

Definition resume (out : stdout) (t : task) (r : outcome pystr)
    (ag : MathematicalAgent) (evs : list event) (st : server) : server :=
  match t with
  | TStart sid topic =>
      match pmq_start sid st with
      | (st', Some l) => spawn (TResearch l sid topic) st'
      | (st', None) => st'
      end
  | TResearch l sid topic =>
      match pmq_researched out l sid r (agent_effect l ag evs st) with
      | (st', Some research_result) => spawn (TSolve l sid topic research_result) st'
      | (st', None) => st'
      end
  | TSolve l sid _ _ => pmq_solved out l sid r (agent_effect l ag evs st)
  | TImprove l _ fb _ => snd (human_input_resume out l fb r (agent_effect l ag evs st))
  end.

Section Steps.
Context `{UnicodeData} (out : stdout).

Definition do_step (lbl : label) (st : server) : server :=
  match lbl with
  | LChat req uuid => snd (chat out req uuid st)
  | LGetChat _ => st
  | LHumanInput req =>
      match human_input_begin out req st with
      | (Done _, st') => st'
      | (AwaitImprove l cs tp, st') => spawn (TImprove l cs (feedback req) tp) st'
      end
  | LDelete sid => snd (delete_session sid st)
  | LResume i r ag evs =>
      match tasks st !! i with
      | Some t => resume out t r ag evs (set_tasks (delete i (tasks st)) st)
      | None => st
      end
  end.

Fixpoint run (lbls : list label) (st : server) : server :=
  match lbls with
  | [] => st
  | lbl :: lbls' => run lbls' (do_step lbl st)
  end.

(** A feedback request is pending on the object [l]. *)
Definition improving (l : loc) (t : task) : bool :=
  match t with
  | TImprove l' _ _ _ => Nat.eqb l l'
  | _ => false
  end.

(** Feedback for a session is not overlapped: POST /human-input is not
    sent for a session while an earlier one for it is unanswered. *)
Definition no_overlap (lbl : label) (st : server) : bool :=
  match lbl with
  | LHumanInput req =>
      match sessions st !! hi_session_id req with
      | Some l => negb (existsb (improving l) (tasks st))
      | None => true
      end
  | _ => true
  end.

Fixpoint orderly (lbls : list label) (st : server) : bool :=
  match lbls with
  | [] => true
  | lbl :: lbls' => no_overlap lbl st && orderly lbls' (do_step lbl st)
  end.

End Steps.

(** *** A coroutine run to its end, with the stages of [agents.py] *)

Section Atomic.
Context `{UnicodeData} (svc : services).

(** [await m] on the agent of the session object [l] (a reference held
    by a handler always designates an object). *)
Definition await (l : loc) (m : M ctx pystr) (st : server) : outcome pystr * server :=
  match heap st !! l with
  | Some s =>
      let '(r, c) := m {| self := agent s; trace := log st |} in
      (r, update l (set_agent (self c)) (set_log (trace c) st))
  | None => (Raise (u "KeyError"), st)
  end.

Definition process_math_question (session_id topic : pystr) (st : server) : server :=
  match pmq_start session_id st with
  | (st1, None) => st1
  | (st1, Some l) =>
      let '(r1, st2) := await l (research_topic svc topic) st1 in
      match pmq_researched (svc_print svc) l session_id r1 st2 with
      | (st3, None) => st3
      | (st3, Some research_result) =>
          let '(r2, st4) := await l (solve_problem svc topic research_result) st3 in
          pmq_solved (svc_print svc) l session_id r2 st4
      end
  end.

Definition human_input (req : HumanInputRequest) (st : server) : http Ack * server :=
  match human_input_begin (svc_print svc) req st with
  | (Done r, st1) => (r, st1)
  | (AwaitImprove l cs tp, st1) =>
      let '(r, st2) := await l (improve_solution svc (fmt_opt cs) (feedback req) tp) st1 in
      human_input_resume (svc_print svc) l (feedback req) r st2
  end.

End Atomic.

(** ** Predicates on sessions and steps *)

(** The text [x] was shown in an assistant message of the session. *)
Definition in_history (x : pystr) (s : session) : Prop :=
  exists m, In m (messages s) /\ role m = assistant /\ py_in x (content m) = true.

(** Messages are appended, never removed or changed. *)
Definition extends (s s' : session) : Prop :=
  exists ms, messages s' = messages s ++ ms.

(** A write that touches neither the flag nor the solution: the status is
    kept, or becomes researching, solving, improving or error. *)
Definition neutral (s s' : session) : Prop :=
  waiting_for_approval s' = waiting_for_approval s /\
  current_solution s' = current_solution s /\
  extends s s' /\
  (sess_status s' = sess_status s \/
   In (sess_status s') [Researching; Solving; Improving; Error]).

(** What one step does to the session object at [l].  A solution that
    arrives is stored with the flag and the status waiting_for_approval;
    the status is error instead when the log line printed after the
    writes raises. *)
Inductive obj_step `{UnicodeData} (st : server) (lbl : label) (l : loc)
    : option session -> option session -> Prop :=
| os_same o :
    obj_step st lbl l o o
| os_new t :
    obj_step st lbl l None (Some (new_session t))
| os_neutral s s' :
    neutral s s' ->
    obj_step st lbl l (Some s) (Some s')
| os_approved s s' req :
    lbl = LHumanInput req ->
    sessions st !! hi_session_id req = Some l ->
    is_approval (feedback req) = true ->
    waiting_for_approval s = true ->
    waiting_for_approval s' = false ->
    current_solution s' = None ->
    sess_status s' = Completed ->
    extends s s' ->
    obj_step st lbl l (Some s) (Some s')
| os_solved s s' x :
    waiting_for_approval s' = true ->
    current_solution s' = Some x ->
    sess_status s' = WaitingForApproval \/ sess_status s' = Error ->
    extends s s' ->
    in_history x s' ->
    obj_step st lbl l (Some s) (Some s')
| os_improved s s' x i r ag evs cs fb tp :
    lbl = LResume i r ag evs ->
    tasks st !! i = Some (TImprove l cs fb tp) ->
    waiting_for_approval s' = waiting_for_approval s ->
    current_solution s' = Some x ->
    sess_status s' = WaitingForApproval ->
    extends s s' ->
    in_history x s' ->
    obj_step st lbl l (Some s) (Some s').

(** Every pending revision is for a session whose flag is set. *)
Definition pending_flagged (st : server) : Prop :=
  forall l cs fb tp, TImprove l cs fb tp ∈ tasks st ->
    exists s, heap st !! l = Some s /\ waiting_for_approval s = true.

Definition flag_iff_solution (s : session) : Prop :=
  waiting_for_approval s = true <-> current_solution s <> None.

Definition heap_all (P : session -> Prop) (st : server) : Prop :=
  forall l s, heap st !! l = Some s -> P s.

(** The flag is set only together with a solution. *)
Definition flag_has_solution (s : session) : Prop :=
  waiting_for_approval s = true -> current_solution s <> None.


(** The status waiting_for_approval goes with the flag. *)
Definition waiting_is_flagged (s : session) : Prop :=
  sess_status s = WaitingForApproval -> waiting_for_approval s = true.

(** How the status and the flag of a session object may change together in
    one step: the status is kept; or it becomes researching, solving,
    improving or error with the flag as it was; or completed with the flag
    cleared; or waiting_for_approval with the flag set (a solution arrived)
    or as it was (a revision arrived); or error with the flag set (a
    solution arrived and was stored, and the log line after it could not
    be printed). *)
Definition status_flag_step (s s' : session) : Prop :=
  (sess_status s' = sess_status s /\
   waiting_for_approval s' = waiting_for_approval s) \/
  (In (sess_status s') [Researching; Solving; Improving; Error] /\
   waiting_for_approval s' = waiting_for_approval s) \/
  (sess_status s' = Completed /\ waiting_for_approval s' = false) \/
  (sess_status s' = WaitingForApproval /\
   (waiting_for_approval s' = true \/
    waiting_for_approval s' = waiting_for_approval s)) \/
  (sess_status s' = Error /\ waiting_for_approval s' = true).

(** *** Predicates on the computations of the stages *)

(** A computation only adds to the trace. *)
Definition grows {A} (m : M ctx A) : Prop :=
  forall c, exists evs, trace (snd (m c)) = trace c ++ evs.

(** A computation calls a model, whether it returns or raises. *)
Definition always_calls_model {A} (m : M ctx A) : Prop :=
  forall c, exists evs,
    trace (snd (m c)) = trace c ++ evs /\ existsb is_model_call evs = true.

(** A computation that returns has called a model. *)
Definition calls_model {A} (m : M ctx A) : Prop :=
  forall c r c', m c = (Ok r, c') ->
    exists evs, trace c' = trace c ++ evs /\ existsb is_model_call evs = true.

(** A computation returns: it does not raise. *)
Definition returns {A} (m : M ctx A) : Prop :=
  forall c, exists a, fst (m c) = Ok a.


(** A computation leaves [tools_initialized] as it is. *)
Definition keeps_initialized {A} (m : M ctx A) : Prop :=
  forall c, tools_initialized (self (snd (m c))) = tools_initialized (self c).


(** ** Worlds used in examples *)

(** A standard output that accepts every line. *)
Definition stdout_ok : stdout := fun _ _ => Printed.

(** A standard output in UTF-8: it cannot encode a surrogate, and
    [print] then raises UnicodeEncodeError. *)
Definition is_surrogate (c : N) : bool := in_range 55296 57343 c.

Definition stdout_utf8 : stdout := fun _ text =>
  if existsb is_surrogate text
  then PrintValueError (u "'utf-8' codec can't encode character: surrogates not allowed")
  else Printed.

(** A standard output that was closed. *)
Definition stdout_closed : stdout := fun _ _ =>
  PrintValueError (u "I/O operation on closed file.").

(** A standard output whose reader is gone. *)
Definition stdout_broken : stdout := fun _ _ =>
  PrintError (u "[Errno 32] Broken pipe").

(** A standard output on which one write fails, the one at position [k]. *)
Definition stdout_fails_at (k : nat) : stdout := fun n _ =>
  if Nat.eqb n k then PrintError (u "[Errno 4] Interrupted system call") else Printed.

(** Every remote call fails. *)
Definition svc_down : services := {|
  svc_mcp_tools := fun _ => Raise (u "connection refused");
  svc_new_agent := fun _ _ _ => Raise (u "no api key");
  svc_agent_run := fun _ _ _ => Raise (u "unavailable");
  svc_acomplete := fun _ _ => Raise (u "unavailable");
  svc_print := stdout_ok
|}.

(** Agents are built and answer with a fixed text. *)
Definition svc_fixed (answer : pystr) : services := {|
  svc_mcp_tools := fun _ => Ok [u "web_search"];
  svc_new_agent := fun _ _ _ => Ok tt;
  svc_agent_run := fun _ _ _ => Ok answer;
  svc_acomplete := fun _ _ => Ok answer;
  svc_print := stdout_ok
|}.

(** The MCP server fails with a text that holds a lone surrogate, on a
    standard output in UTF-8; the agents can be built. *)
Definition svc_bad_tools : services := {|
  svc_mcp_tools := fun _ => Raise (u "cannot start " ++ [56448%N]);
  svc_new_agent := fun _ _ _ => Ok tt;
  svc_agent_run := fun _ _ _ => Ok (u "x = 1");
  svc_acomplete := fun _ _ => Ok (u "x = 1");
  svc_print := stdout_utf8
|}.

(** Every remote call fails, and the standard output was closed. *)
Definition svc_down_closed : services := {|
  svc_mcp_tools := svc_mcp_tools svc_down;
  svc_new_agent := svc_new_agent svc_down;
  svc_agent_run := svc_agent_run svc_down;
  svc_acomplete := svc_acomplete svc_down;
  svc_print := stdout_closed
|}.

(** The same, with a standard output in UTF-8. *)
Definition svc_utf8 (answer : pystr) : services := {|
  svc_mcp_tools := fun _ => Ok [u "web_search"];
  svc_new_agent := fun _ _ _ => Ok tt;
  svc_agent_run := fun _ _ _ => Ok answer;
  svc_acomplete := fun _ _ => Ok answer;
  svc_print := stdout_utf8
|}.

Definition ctx0 : ctx := {| self := MathematicalAgent_init; trace := [] |}.

(** An index that holds two chunks and answers every query with them. *)
Definition two_matches : json :=
  JDict [(u "matches",
          JList [JDict [(u "id", JStr (u "a")); (u "metadata", JDict [(u "text", JStr (u "chain rule"))])];
                 JDict [(u "id", JStr (u "b")); (u "metadata", JDict [(u "text", JStr (u "product rule"))])]])].

Definition kb_demo : kb_services := {|
  kb_getenv := fun _ => Some (u "key");
  kb_post := fun _ _ _ =>
    Ok {| status_code := 200;
          json_body := Ok (JList [JList [JNum (u "0.1"); JNum (u "0.2")]]) |};
  kb_Pinecone := fun _ => Ok tt;
  kb_Index := fun _ => Ok tt;
  kb_query := fun _ _ k _ =>
    match k with
    | 0 => Ok (JDict [(u "matches", JList [])])
    | 1 => Ok (JDict [(u "matches", JList [JDict [(u "metadata", JDict [(u "text", JStr (u "chain rule"))])]])])
    | _ => Ok two_matches
    end;
  kb_print := fun _ => Printed
|}.

(** A match whose text is [t]. *)
Definition match_with_text (t : pystr) : json :=
  JDict [(u "metadata", JDict [(u "text", JStr t)])].

(** An index that answers every query with five matches, whatever
    [top_k] asks for. *)
Definition kb_five : kb_services := {|
  kb_getenv := kb_getenv kb_demo;
  kb_post := kb_post kb_demo;
  kb_Pinecone := kb_Pinecone kb_demo;
  kb_Index := kb_Index kb_demo;
  kb_query := fun _ _ _ _ =>
    Ok (JDict [(u "matches",
                JList (map match_with_text
                         [u "a"; u "b"; u "c"; u "d"; u "e"]))]);
  kb_print := kb_print kb_demo
|}.

(** An embedding service that is down, with a standard output that
    accepts the report of it. *)
Definition kb_down : kb_services := {|
  kb_getenv := kb_getenv kb_demo;
  kb_post := fun _ _ _ => Raise (u "connection refused");
  kb_Pinecone := kb_Pinecone kb_demo;
  kb_Index := kb_Index kb_demo;
  kb_query := kb_query kb_demo;
  kb_print := fun _ => Printed
|}.

(** The same, with a standard output that was closed. *)
Definition kb_down_closed : kb_services := {|
  kb_getenv := kb_getenv kb_demo;
  kb_post := fun _ _ _ => Raise (u "connection refused");
  kb_Pinecone := kb_Pinecone kb_demo;
  kb_Index := kb_Index kb_demo;
  kb_query := kb_query kb_demo;
  kb_print := fun text => stdout_closed 0 text
|}.

(** A session created for "solve x + 1 = 2" whose pipeline has delivered
    the solution "x = 1": it awaits approval. *)
Definition demo_id : pystr := u "3f2a".

Definition demo_labels : list label :=
  [LChat {| topic := u "solve x + 1 = 2"; session_id := None |} demo_id;
   LResume 0 (Ok []) MathematicalAgent_init [];
   LResume 0 (Ok (u "linear equations")) MathematicalAgent_init [];
   LResume 0 (Ok (u "x = 1")) MathematicalAgent_init []].

Definition demo_waiting : server := run stdout_ok demo_labels server_init.

Definition demo_feedback : HumanInputRequest :=
  {| hi_session_id := demo_id; feedback := u "please show the algebraic steps" |}.

(** The feedback is received: the handler is at its [await]. *)
Definition demo_improving : server :=
  do_step stdout_ok (LHumanInput demo_feedback) demo_waiting.

(** The revision fails. *)
Definition demo_failed : server :=
  do_step stdout_ok (LResume 0 (Raise (u "timeout")) MathematicalAgent_init []) demo_improving.

(** An approval is received while the revision is under way, and the
    revision then arrives. *)
Definition demo_overlapped : server :=
  run stdout_ok
      [LHumanInput {| hi_session_id := demo_id; feedback := u "approve" |};
       LResume 0 (Ok (u "x = 2 - 1 = 1")) MathematicalAgent_init []]
      demo_improving.

Definition demo_session : session :=
  {| agent := MathematicalAgent_init;
     sess_status := WaitingForApproval;
     messages := [{| role := user; content := u "solve x + 1 = 2" |};
                  {| role := assistant; content := approval_message (u "x = 1") |}];
     waiting_for_approval := true;
     current_solution := Some (u "x = 1");
     current_topic := u "solve x + 1 = 2";
     research_context := Some (u "linear equations") |}.

(** ** [db_setup.py]: the ingestion script *)

(** The collaborators of the script: the reader and the splitter, which
    together give the text of each chunk of a file; the embedding model;
    the generator of identifiers; the vector index. *)
Record db_services := {
  db_chunks : pystr -> outcome (list pystr);
  db_encode : pystr -> outcome json;
  db_uuid4 : nat -> pystr;
  db_getenv : pystr -> option pystr;
  db_Pinecone : option pystr -> outcome unit;
  db_Index : pystr -> outcome unit;
  db_upsert : nat -> list json -> pystr -> outcome unit
}.

(** What the script has done so far: the identifiers drawn, and the
    batches sent to the index with their namespace. *)
Record db_state := {
  uuids_drawn : nat;
  upserted : list (list json * pystr)
}.

Definition db_init : db_state := {| uuids_drawn := 0; upserted := [] |}.

(** [range(start, stop, step)] for a positive step. *)
Fixpoint range_loop (fuel i stop step : nat) : list nat :=
  match fuel with
  | O => []
  | S fuel' => if Nat.ltb i stop then i :: range_loop fuel' (i + step) stop step else []
  end.

Definition py_range (start stop step : nat) : list nat :=
  range_loop stop start stop step.

(** [l[i:j]] for [i <= j]. *)
Definition py_slice {A} (l : list A) (i j : nat) : list A := take (j - i) (drop i l).

(** The record of a chunk. *)
Definition make_record (id : pystr) (values : json) (text : pystr) : json :=
  JDict [(u "id", JStr id);
         (u "values", values);
         (u "metadata", JDict [(u "text", JStr text)])].

Section DbSetup.
Context (db : db_services).

Definition lift_db {A} (o : outcome A) : M db_state A := fun s => (o, s).

(** [uuid.uuid4()], as a string. *)
Definition uuid4 : M db_state pystr :=
  fun s => (Ok (db_uuid4 db (uuids_drawn s)),
            {| uuids_drawn := S (uuids_drawn s); upserted := upserted s |}).

(** The body of the loop of [encode_db], from the chunk of index [i] on. *)
Fixpoint encode_chunks (i : nat) (chunks : list pystr) : M db_state (list json) :=
  match chunks with
  | [] => ret []
  | text :: chunks' =>
      embeddings <~ lift_db (db_encode db text) ;;
      id <~ uuid4 ;;
      let record := make_record (u "chunk-" ++ str_of_nat i ++ u "-" ++ id) embeddings text in
      records <~ encode_chunks (S i) chunks' ;;
      ret (record :: records)
  end.

Definition encode_db (db_path : pystr) : M db_state (list json) :=
  chunks <~ lift_db (db_chunks db db_path) ;;
  encode_chunks 0 chunks.

(** [index.upsert(vectors=batch, namespace=namespace)] *)
Definition upsert (batch : list json) (namespace : pystr) : M db_state unit :=
  fun s =>
    match db_upsert db (length (upserted s)) batch namespace with
    | Ok tt => (Ok tt, {| uuids_drawn := uuids_drawn s;
                          upserted := upserted s ++ [(batch, namespace)] |})
    | Raise e => (Raise e, s)
    end.

Fixpoint upsert_batches (records : list json) (batch_size : nat) (namespace : pystr)
    (starts : list nat) : M db_state unit :=
  match starts with
  | [] => ret tt
  | i :: starts' =>
      upsert (py_slice records i (i + batch_size)) namespace ;;;
      upsert_batches records batch_size namespace starts'
  end.

Definition add_db_records (records : list json) : M db_state unit :=
  let index_name := u "math-docs" in
  let namespace := u "engg-math-1" in
  let pinecone_api_key := db_getenv db (u "PINECONE_API_KEY") in
  lift_db (db_Pinecone db pinecone_api_key) ;;;
  lift_db (db_Index db index_name) ;;;
  let batch_size := 80 in
  upsert_batches records batch_size namespace (py_range 0 (length records) batch_size).

(** The two statements at the end of the module. *)
Definition ingest (pdf_path : pystr) : M db_state unit :=
  records <~ encode_db pdf_path ;;
  add_db_records records.

End DbSetup.

(** ** [mcp_server.py]: the web search tool *)

Record web_services := {
  web_search : pystr -> nat -> pystr -> outcome json;   (* tavily_client.search *)
  web_dumps : json -> nat -> outcome pystr              (* json.dumps(results, indent=2) *)
}.

Definition websearch_tool (web : web_services) (query : pystr) : M unit pystr :=
  try_except
    (results <~ lift (web_search web query 3 (u "basic")) ;;
     lift (web_dumps web results 2))
    (fun e => ret (u "Error: " ++ e)).

(** The batches [add_db_records] cuts a list of records into. *)
Definition record_batches (records : list json) : list (list json) :=
  map (fun i => py_slice records i (i + 80)) (py_range 0 (length records) 80).

(** The identifier of a record. *)
Definition record_id (r : json) : outcome json := subscript r (KStr (u "id")).

(** A match of the index that carries the metadata of the record [r]. *)
Definition match_of (r m : json) : Prop :=
  subscript m (KStr (u "metadata")) = subscript r (KStr (u "metadata")).

(** An ingestion world in which every call succeeds: the file has three
    chunks, embeddings are a fixed vector. *)
Definition db_ok : db_services := {|
  db_chunks := fun _ => Ok [u "chain rule"; u "product rule"; u "quotient rule"];
  db_encode := fun _ => Ok (JList [JNum (u "0.6"); JNum (u "0.8")]);
  db_uuid4 := fun n => u "0f8fad5b-d9cb-469f-a165-70867728950" ++ str_of_nat (n mod 10);
  db_getenv := fun _ => Some (u "key");
  db_Pinecone := fun _ => Ok tt;
  db_Index := fun _ => Ok tt;
  db_upsert := fun _ _ _ => Ok tt
|}.

(** The same, with an index that refuses its third call. *)
Definition db_third_fails : db_services := {|
  db_chunks := db_chunks db_ok;
  db_encode := db_encode db_ok;
  db_uuid4 := db_uuid4 db_ok;
  db_getenv := db_getenv db_ok;
  db_Pinecone := db_Pinecone db_ok;
  db_Index := db_Index db_ok;
  db_upsert := fun n _ _ => if Nat.eqb n 2 then Raise (u "503") else Ok tt
|}.

(** The same, with a model that cannot embed the second chunk. *)
Definition db_encode_fails : db_services := {|
  db_chunks := db_chunks db_ok;
  db_encode := fun text =>
    if pystr_eqb text (u "product rule") then Raise (u "out of memory")
    else db_encode db_ok text;
  db_uuid4 := db_uuid4 db_ok;
  db_getenv := db_getenv db_ok;
  db_Pinecone := db_Pinecone db_ok;
  db_Index := db_Index db_ok;
  db_upsert := db_upsert db_ok
|}.

(** 170 records: three batches. *)
Definition many_records : list json :=
  map (fun i => make_record (str_of_nat i) JNull (u "text")) (seq 0 170).

(** The writes the handlers make to a session dict: every one assigns the
    status, the flag, the solution, the research context or the agent, or
    appends a message; none assigns the topic or removes a message. *)
Inductive session_write : (session -> session) -> Prop :=
| w_none : session_write (fun s => s)
| w_status v f :
    session_write f -> session_write (fun s => set_status (v s) (f s))
| w_message m f :
    session_write f -> session_write (fun s => append_message (m s) (f s))
| w_flag v f :
    session_write f -> session_write (fun s => set_waiting_for_approval (v s) (f s))
| w_solution v f :
    session_write f -> session_write (fun s => set_current_solution (v s) (f s))
| w_research v f :
    session_write f -> session_write (fun s => set_research_context (v s) (f s))
| w_agent v f :
    session_write f -> session_write (fun s => set_agent (v s) (f s)).

(** * Properties *)

(** ** Strings *)

Lemma drop_while_nil (p : N -> bool) (s : pystr) :
  drop_while p s = [] <-> forallb p s = true.
Proof.
  induction s as [|c s IH]; simpl; [tauto|].
  destruct (p c); simpl; [exact IH|].
  split; discriminate.
Qed.

Lemma forallb_rev_true (p : N -> bool) (s : pystr) :
  forallb p (rev s) = true <-> forallb p s = true.
Proof.
  rewrite !forallb_forall. split; intros Hs x Hx; apply Hs.
  - apply in_rev in Hx. exact Hx.
  - apply in_rev. exact Hx.
Qed.

Lemma drop_while_head (p : N -> bool) (s : pystr) c s' :
  drop_while p s = c :: s' -> p c = false.
Proof.
  induction s as [|d s IH]; simpl; [discriminate|].
  destruct (p d) eqn:E; [exact IH|].
  intros Heq. injection Heq as -> _. exact E.
Qed.

Lemma prefix_of_app (p s : pystr) : prefix_of p (p ++ s) = true.
Proof.
  induction p as [|c p IH]; simpl; [reflexivity|].
  rewrite N.eqb_refl. exact IH.
Qed.

Lemma py_in_app (p a b : pystr) : py_in p (a ++ p ++ b) = true.
Proof.
  induction a as [|c a IH]; simpl.
  - destruct (p ++ b) eqn:E; simpl.
    + destruct p; [reflexivity | discriminate].
    + rewrite <- E, prefix_of_app. reflexivity.
  - rewrite IH. apply orb_true_r.
Qed.

Lemma py_in_app_r (p a b : pystr) : py_in p b = true -> py_in p (a ++ b) = true.
Proof.
  intros Hb. induction a as [|c a IH]; simpl; [exact Hb|].
  rewrite IH. apply orb_true_r.
Qed.

Section GuardrailFacts.
Context `{UnicodeData}.

Lemma strip_nil (s : pystr) : strip s = [] <-> forallb is_space s = true.
Proof.
  unfold strip. split.
  - intros Hs.
    assert (Hd : drop_while is_space (rev (drop_while is_space s)) = []).
    { destruct (drop_while is_space (rev (drop_while is_space s))); [reflexivity|].
      simpl in Hs. destruct (rev l); discriminate. }
    apply drop_while_nil in Hd. apply (proj1 (forallb_rev_true _ _)) in Hd.
    destruct (drop_while is_space s) as [|c s'] eqn:E.
    + apply drop_while_nil. exact E.
    + apply drop_while_head in E. simpl in Hd. rewrite E in Hd. discriminate.
  - intros Hs. apply drop_while_nil in Hs. rewrite Hs. reflexivity.
Qed.

Lemma blank_topic_lower (t : pystr) :
  py_not t || py_not (strip t) = true -> topic_lower t = [].
Proof.
  intros Hb. unfold topic_lower. apply strip_nil, lower_blank. apply (proj1 (strip_nil _)).
  destruct t; [reflexivity|]. simpl in Hb.
  destruct (strip (n :: t)); [reflexivity | discriminate].
Qed.

Lemma blank_matches_nothing (t : pystr) :
  py_not t || py_not (strip t) = true ->
  has_math_keywords t || has_math_patterns t = false.
Proof.
  intros Hb. unfold has_math_keywords, has_math_patterns.
  rewrite (blank_topic_lower t Hb). reflexivity.
Qed.

Lemma has_math_keywords_iff (t : pystr) :
  has_math_keywords t = true <->
  exists kw, In kw MATH_KEYWORDS /\ py_in kw (topic_lower t) = true.
Proof. unfold has_math_keywords, any_in. apply existsb_exists. Qed.


End GuardrailFacts.

(** ** The input guardrail *)






Example validate_plain_text :
  validate_math_input (u "hello there") = (false, MSG_NOT_MATH).
Proof. reflexivity. Qed.

Example validate_edge_case_word :
  validate_math_input (u "What is love") = (true, MSG_CAUTION).
Proof. reflexivity. Qed.

Example validate_blank : validate_math_input (u "   ") = (false, MSG_EMPTY).
Proof. reflexivity. Qed.

(** ** Output formatting *)

Example format_sqrt_pi_derivative :
  format_math_output (u "sqrt(x+1) + PI*d/dx x^n pie")
  = u "\sqrt{x+1} + " ++ [960%N] ++ u "*\frac{d}{dx} x^{n} pie".
Proof. vm_compute. reflexivity. Qed.

(** C8: [format_math_output("3/4 + x^2")] is [\frac{3}{4} + x^{2}]: it
    contains the fraction markup and the braced exponent.  The fraction rule
    runs first and the exponent rule second, each leaving the other's part
    as it is. *)
Theorem C8_format_fraction_and_exponent :
  format_math_output (u "3/4 + x^2") = u "\frac{3}{4} + x^{2}" /\
  py_in (u "\frac{3}{4}") (format_math_output (u "3/4 + x^2")) = true /\
  py_in (u "x^{2}") (format_math_output (u "3/4 + x^2")) = true /\
  (forall fraction exponent rest,
     REPLACEMENTS = fraction :: exponent :: rest ->
     re_sub (fst fraction) (snd fraction) (u "3/4 + x^2") = u "\frac{3}{4} + x^2" /\
     re_sub (fst exponent) (snd exponent) (u "\frac{3}{4} + x^2")
       = u "\frac{3}{4} + x^{2}").
Proof.
  split; [vm_compute; reflexivity|].
  split; [vm_compute; reflexivity|].
  split; [vm_compute; reflexivity|].
  intros fraction exponent rest Heq. unfold REPLACEMENTS in Heq.
  injection Heq as <- <- _. split; vm_compute; reflexivity.
Qed.

(** ** The stages of the agent *)

Section AgentFacts.
Context `{UnicodeData} (svc : services).

Lemma grows_ret {A} (a : A) : grows (ret a).
Proof. intros c. exists []. symmetry. apply app_nil_r. Qed.

Lemma grows_get : grows get.
Proof. intros c. exists []. symmetry. apply app_nil_r. Qed.

Lemma grows_set_self (f : MathematicalAgent -> MathematicalAgent) : grows (set_self f).
Proof. intros c. exists []. symmetry. apply app_nil_r. Qed.

Lemma grows_call {A} (ev : event) (reply : nat -> outcome A) : grows (call ev reply).
Proof. intros c. exists [ev]. reflexivity. Qed.

Lemma grows_bind {A B} (m : M ctx A) (k : A -> M ctx B) :
  grows m -> (forall a, grows (k a)) -> grows (bind m k).
Proof.
  intros Hm Hk c. unfold bind. destruct (Hm c) as [e1 H1].
  destruct (m c) as [[a|e] c1]; simpl in *.
  - destruct (Hk a c1) as [e2 H2]. exists (e1 ++ e2).
    rewrite H2, H1, app_assoc. reflexivity.
  - exists e1. exact H1.
Qed.

Lemma grows_try {A} (m : M ctx A) (h : pystr -> M ctx A) :
  grows m -> (forall e, grows (h e)) -> grows (try_except m h).
Proof.
  intros Hm Hh c. unfold try_except. destruct (Hm c) as [e1 H1].
  destruct (m c) as [[a|e] c1]; simpl in *.
  - exists e1. exact H1.
  - destruct (Hh e c1) as [e2 H2]. exists (e1 ++ e2).
    rewrite H2, H1, app_assoc. reflexivity.
Qed.

Lemma always_call {A} (ev : event) (reply : nat -> outcome A) :
  is_model_call ev = true -> always_calls_model (call ev reply).
Proof. intros Hev c. exists [ev]. simpl. rewrite Hev. auto. Qed.

Lemma always_bind {A B} (m : M ctx A) (k : A -> M ctx B) :
  always_calls_model m -> (forall a, grows (k a)) -> always_calls_model (bind m k).
Proof.
  intros Hm Hk c. unfold bind. destruct (Hm c) as (e1 & H1 & Hc).
  destruct (m c) as [[a|e] c1]; simpl in *.
  - destruct (Hk a c1) as [e2 H2]. exists (e1 ++ e2).
    rewrite H2, H1, app_assoc, existsb_app, Hc. auto.
  - exists e1. auto.
Qed.

Lemma always_try {A} (m : M ctx A) (h : pystr -> M ctx A) :
  always_calls_model m -> (forall e, grows (h e)) -> always_calls_model (try_except m h).
Proof.
  intros Hm Hh c. unfold try_except. destruct (Hm c) as (e1 & H1 & Hc).
  destruct (m c) as [[a|e] c1]; simpl in *.
  - exists e1. auto.
  - destruct (Hh e c1) as [e2 H2]. exists (e1 ++ e2).
    rewrite H2, H1, app_assoc, existsb_app, Hc. auto.
Qed.

Lemma calls_model_always {A} (m : M ctx A) : always_calls_model m -> calls_model m.
Proof.
  intros Hm c r c' Heq. destruct (Hm c) as (evs & Ht & Hc).
  rewrite Heq in Ht. exists evs. auto.
Qed.

Lemma calls_model_bind {A B} (m : M ctx A) (k : A -> M ctx B) :
  grows m -> (forall a, calls_model (k a)) -> calls_model (bind m k).
Proof.
  intros Hm Hk c r c'. unfold bind. destruct (Hm c) as [e1 H1].
  destruct (m c) as [[a|e] c1]; simpl in *; [|discriminate].
  intros Heq. destruct (Hk a c1 r c' Heq) as (e2 & H2 & Hc).
  exists (e1 ++ e2). rewrite H2, H1, app_assoc, existsb_app, Hc.
  split; [reflexivity | apply orb_true_r].
Qed.

Lemma returns_ret {A} (a : A) : returns (ret (S := ctx) a).
Proof. intros c. exists a. reflexivity. Qed.

Lemma returns_get : returns (get (S := ctx)).
Proof. intros c. exists c. reflexivity. Qed.

Lemma returns_set_self (f : MathematicalAgent -> MathematicalAgent) : returns (set_self f).
Proof. intros c. exists tt. reflexivity. Qed.

Lemma returns_bind {A B} (m : M ctx A) (k : A -> M ctx B) :
  returns m -> (forall a, returns (k a)) -> returns (bind m k).
Proof.
  intros Hm Hk c. unfold bind. destruct (Hm c) as [a Ha].
  destruct (m c) as [[a0|e] c1]; simpl in *; [|discriminate].
  apply Hk.
Qed.

Lemma returns_try {A} (m : M ctx A) (h : pystr -> M ctx A) :
  (forall e, returns (h e)) -> returns (try_except m h).
Proof.
  intros Hh c. unfold try_except.
  destruct (m c) as [[a|e] c1]; simpl; [exists a; reflexivity | apply Hh].
Qed.

Lemma returns_print (text : pystr) :
  prints_ok (svc_print svc) -> returns (py_print svc text).
Proof. intros Hp c. exists tt. unfold py_print, call. simpl. rewrite Hp. reflexivity. Qed.

Ltac stage_tac :=
  repeat first
    [ progress cbv zeta
    | progress intros
    | apply grows_ret | apply grows_get | apply grows_set_self | apply grows_call
    | apply grows_bind | apply grows_try
    | apply returns_ret | apply returns_get | apply returns_set_self
    | apply returns_print; assumption
    | apply returns_bind | apply returns_try ].

Lemma grows_create_agents : grows (_create_agents svc).
Proof.
  unfold _create_agents. apply grows_bind; [apply grows_get|]. intros c0.
  destruct (tools_initialized (self c0)); [apply grows_ret|].
  unfold get_mcp_tools, FunctionAgent, py_print. stage_tac.
Qed.

Lemma grows_print (text : pystr) : grows (py_print svc text).
Proof. apply grows_call. Qed.

(** Without a failure of the standard output, the set-up of the agents
    returns. *)
Lemma create_agents_returns :
  prints_ok (svc_print svc) -> returns (_create_agents svc).
Proof.
  intros Hp. unfold _create_agents. apply returns_bind; [apply returns_get|]. intros c0.
  destruct (tools_initialized (self c0)); [apply returns_ret|].
  unfold get_mcp_tools, FunctionAgent. stage_tac.
Qed.

(** The second tier of a stage, a completion request inside [try]. *)
Lemma fallback_always (prompt : pystr) (post : pystr -> M ctx pystr)
    (h : pystr -> M ctx pystr) :
  (forall x, grows (post x)) -> (forall e, grows (h e)) ->
  always_calls_model (try_except (x <~ llm_acomplete svc prompt ;; post x) h).
Proof.
  intros Hpost Hh. apply always_try; [|exact Hh].
  apply always_bind; [|exact Hpost]. apply always_call. reflexivity.
Qed.

(** Both tiers: the agent if there is one, else or on its failure the
    completion request.  A model is called in every case. *)
Lemma two_tier_always (ag : option pystr) (p1 p2 : pystr)
    (post1 post2 : pystr -> M ctx pystr) (line : pystr -> pystr)
    (h : pystr -> M ctx pystr) :
  (forall x, grows (post1 x)) -> (forall x, grows (post2 x)) ->
  (forall e, grows (h e)) ->
  always_calls_model
    (with_agent svc ag
       (fun a => x <~ agent_run svc a p1 ;; post1 x) line
       (try_except (x <~ llm_acomplete svc p2 ;; post2 x) h)).
Proof.
  intros Hpost1 Hpost2 Hh.
  pose proof (fallback_always p2 post2 h Hpost2 Hh) as Hfb.
  destruct ag as [a|]; simpl; [|exact Hfb].
  apply always_try.
  - apply always_bind; [|exact Hpost1]. apply always_call. reflexivity.
  - intros e. apply grows_bind; [apply grows_print|]. intros _.
    intros c. destruct (Hfb c) as (evs & Ht & _). exists evs. exact Ht.
Qed.

(** Revise never returns without having called a model. *)
Lemma improve_solution_calls_model (original_solution fb tp : pystr) :
  calls_model (improve_solution svc original_solution fb tp).
Proof.
  unfold improve_solution.
  apply calls_model_bind; [apply grows_create_agents|]. intros _.
  apply calls_model_bind; [apply grows_print|]. intros _.
  apply calls_model_bind; [apply grows_get|]. intros c0.
  apply calls_model_always.
  apply (two_tier_always _ _ _ (fun x => ret (format_math_output x))
           (fun x => ret (format_math_output x))); intros; apply grows_ret.
Qed.

Lemma improve_solution_total (original_solution fb tp : pystr) :
  prints_ok (svc_print svc) -> returns (improve_solution svc original_solution fb tp).
Proof.
  intros Hp. unfold improve_solution.
  apply returns_bind; [apply create_agents_returns; exact Hp|]. intros _.
  apply returns_bind; [apply returns_print; exact Hp|]. intros _.
  apply returns_bind; [apply returns_get|]. intros c0.
  destruct (math_agent (self c0)); simpl; stage_tac.
Qed.

(** With a standard output that accepts its lines, Revise returns, and a
    model was called. *)
Lemma improve_solution_returns (original_solution fb tp : pystr) (c : ctx) :
  prints_ok (svc_print svc) ->
  exists r c' evs,
    improve_solution svc original_solution fb tp c = (Ok r, c') /\
    trace c' = trace c ++ evs /\
    existsb is_model_call evs = true.
Proof.
  intros Hp. destruct (improve_solution_total original_solution fb tp Hp c) as [r Hr].
  destruct (improve_solution svc original_solution fb tp c) as [r0 c'] eqn:E.
  simpl in Hr. subst r0.
  destruct (improve_solution_calls_model original_solution fb tp c r c' E)
    as (evs & Ht & Hm).
  exists r, c', evs. auto.
Qed.

Lemma research_topic_rejects (t : pystr) (c : ctx) :
  fst (validate_math_input t) = false ->
  research_topic svc t c = (Ok (snd (validate_math_input t)), c).
Proof.
  intros Hv. unfold research_topic.
  destruct (validate_math_input t) as [v msg]. simpl in Hv. subst v. reflexivity.
Qed.

Lemma solve_problem_rejects (t rc : pystr) (c : ctx) :
  fst (validate_math_input t) = false ->
  solve_problem svc t rc c = (Ok (snd (validate_math_input t)), c).
Proof.
  intros Hv. unfold solve_problem.
  destruct (validate_math_input t) as [v msg]. simpl in Hv. subst v. reflexivity.
Qed.

Lemma research_topic_returns (t : pystr) :
  prints_ok (svc_print svc) -> returns (research_topic svc t).
Proof.
  intros Hp. unfold research_topic.
  destruct (validate_math_input t) as [[|] msg]; simpl; [|apply returns_ret].
  apply returns_bind; [apply create_agents_returns; exact Hp|]. intros _.
  apply returns_bind; [apply returns_print; exact Hp|]. intros _.
  apply returns_bind; [apply returns_get|]. intros c0.
  destruct (research_agent (self c0)); simpl; stage_tac.
Qed.

Lemma solve_problem_returns (t rc : pystr) :
  prints_ok (svc_print svc) -> returns (solve_problem svc t rc).
Proof.
  intros Hp. unfold solve_problem.
  destruct (validate_math_input t) as [[|] msg]; simpl; [|apply returns_ret].
  apply returns_bind; [apply create_agents_returns; exact Hp|]. intros _.
  apply returns_bind; [apply returns_print; exact Hp|]. intros _.
  apply returns_bind; [apply returns_get|]. intros c0.
  destruct (math_agent (self c0)); simpl; stage_tac.
Qed.

End AgentFacts.

(** C6: Research and Solve pass their topic through the validator before
    any work: on an invalid topic each returns the validator's message and
    leaves the agent and the trace of external calls and prints as they
    were.  Revise has no such guard: on the same invalid topic it never
    returns without having called a model (the agent, or the completion
    request), and it does return, a model called, whenever the standard
    output accepts its log lines. *)
Theorem C6_research_and_solve_guard_topic `{UnicodeData} (svc : services) (t : pystr) :
  fst (validate_math_input t) = false ->
  (forall c, research_topic svc t c = (Ok (snd (validate_math_input t)), c)) /\
  (forall rc c, solve_problem svc t rc c = (Ok (snd (validate_math_input t)), c)) /\
  (forall original_solution fb c r c',
      improve_solution svc original_solution fb t c = (Ok r, c') ->
      exists evs, trace c' = trace c ++ evs /\ existsb is_model_call evs = true) /\
  (prints_ok (svc_print svc) ->
   forall original_solution fb c, exists r c' evs,
      improve_solution svc original_solution fb t c = (Ok r, c') /\
      trace c' = trace c ++ evs /\
      existsb is_model_call evs = true).
Proof.
  intros Hv. split; [|split; [|split]].
  - intros c. apply research_topic_rejects. exact Hv.
  - intros rc c. apply solve_problem_rejects. exact Hv.
  - intros o fb c r c'. apply improve_solution_calls_model.
  - intros Hp o fb c. apply improve_solution_returns. exact Hp.
Qed.

Lemma C6_research_and_solve_guard_topic_witness :
  fst (validate_math_input (u "tell me a joke")) = false /\
  research_topic svc_down (u "tell me a joke") ctx0 = (Ok MSG_NON_MATH, ctx0) /\
  solve_problem svc_down (u "tell me a joke") [] ctx0 = (Ok MSG_NON_MATH, ctx0) /\
  exists r c' evs,
    improve_solution svc_down (u "x = 1") (u "why?") (u "tell me a joke") ctx0 = (Ok r, c') /\
    trace c' = trace ctx0 ++ evs /\
    existsb is_model_call evs = true.
Proof.
  assert (Hv : fst (validate_math_input (u "tell me a joke")) = false) by reflexivity.
  split; [exact Hv|].
  destruct (C6_research_and_solve_guard_topic svc_down (u "tell me a joke") Hv)
    as (Hr & Hs & _ & Hi).
  split; [exact (Hr ctx0)|]. split; [exact (Hs [] ctx0)|].
  apply Hi. intros n text. reflexivity.
Defined.

(** ** The knowledge retriever *)

Section KbFacts.
Context (kb : kb_services).

Lemma mapM_length {A B} (f : A -> M unit B) (l : list A) (ys : list B) s s' :
  mapM f l s = (Ok ys, s') -> length ys = length l.
Proof.
  revert ys s s'. induction l as [|x l IH]; intros ys s s'; simpl.
  - unfold ret. intros Heq. injection Heq as <- _. reflexivity.
  - unfold bind at 1. destruct (f x s) as [[y|e] s1]; [|discriminate].
    unfold bind at 1. destruct (mapM f l s1) as [[ys'|e] s2] eqn:E; [|discriminate].
    unfold ret. intros Heq. injection Heq as <- _. simpl.
    f_equal. exact (IH _ _ _ E).
Qed.

(** When every element is extracted, the result lists the extracted
    values in the order of the matches. *)
Lemma mapM_ok {A B} (f : A -> M unit B) (l : list A) (ys : list B) s s' :
  mapM f l s = (Ok ys, s') -> Forall2 (fun x y => fst (f x tt) = Ok y) l ys.
Proof.
  revert ys s s'. induction l as [|x l IH]; intros ys s s'; simpl.
  - unfold ret. intros Heq. injection Heq as <- _. constructor.
  - unfold bind at 1. destruct s. destruct (f x tt) as [[y|e] []] eqn:Ex; [|discriminate].
    unfold bind at 1. destruct (mapM f l tt) as [[ys'|e] s2] eqn:E; [|discriminate].
    unfold ret. intros Heq. injection Heq as <- _.
    constructor; [rewrite Ex; reflexivity | exact (IH _ _ _ E)].
Qed.

Lemma mapM_raises {A B} (f : A -> M unit B) (l : list A) x e :
  In x l -> fst (f x tt) = Raise e -> exists e', fst (mapM f l tt) = Raise e'.
Proof.
  intros Hin Hx. induction l as [|y l IH]; simpl in *; [contradiction|].
  unfold bind at 1. destruct (f y tt) as [[b|e1] []] eqn:Ey.
  - destruct Hin as [-> | Hin].
    + rewrite Ey in Hx. discriminate.
    + destruct (IH Hin) as [e' He']. unfold bind at 1.
      destruct (mapM f l tt) as [[ys|e2] []]; [discriminate|].
      exists e2. reflexivity.
  - exists e1. reflexivity.
Qed.

(** The retriever gives the result of its body, or what the [except]
    block makes of the failure of the body. *)
Lemma retrieve_cases (query : pystr) :
  retrieve_data_from_db kb query tt =
    (match fst (retrieve_body kb query tt) with
     | Ok l => Ok l
     | Raise e => after_failure kb e
     end, tt).
Proof.
  unfold retrieve_data_from_db, try_except, after_failure.
  destruct (retrieve_body kb query tt) as [[l|e] []]; simpl; [reflexivity|].
  unfold bind, lift, ret.
  destruct (kb_print kb (retrieval_error_line e)); reflexivity.
Qed.

Lemma mapM_complete {A B} (f : A -> M unit B) (l : list A) (ys : list B) :
  Forall2 (fun x y => fst (f x tt) = Ok y) l ys -> mapM f l tt = (Ok ys, tt).
Proof.
  induction 1 as [|x y l ys Hxy _ IH]; simpl; [reflexivity|].
  unfold bind at 1. destruct (f x tt) as [r []]. simpl in Hxy. subst r.
  unfold bind at 1. rewrite IH. reflexivity.
Qed.

(** A body whose calls and extractions all succeed gives the texts. *)
Lemma retrieve_body_complete (query : pystr) (v r m : json) (items xs : list json) :
  fst (get_embeddings kb query tt) = Ok v ->
  fst (get_pinecone_index kb tt) = Ok tt ->
  kb_query kb (u "engg-math-1") v 3 true = Ok r ->
  subscript r (KStr (u "matches")) = Ok m ->
  py_iter m = Ok items ->
  Forall2 (fun res x => fst (text_of res tt) = Ok x) items xs ->
  retrieve_body kb query tt = (Ok xs, tt).
Proof.
  intros Hv Hidx Hq Hm Hi Hall. unfold retrieve_body. unfold bind at 1.
  destruct (get_embeddings kb query tt) as [[v0|e0] []]; [|discriminate].
  simpl in Hv. injection Hv as ->.
  unfold bind at 1.
  destruct (get_pinecone_index kb tt) as [[[]|e1] []]; [|discriminate].
  unfold bind at 1, lift at 1. rewrite Hq.
  unfold bind at 1, lift at 1. rewrite Hm.
  unfold bind at 1, lift at 1. rewrite Hi.
  apply mapM_complete. exact Hall.
Qed.

(** The shape of a successful body. *)
Lemma retrieve_body_ok (query : pystr) (l : list json) :
  fst (retrieve_body kb query tt) = Ok l ->
  exists v r m items,
    fst (get_embeddings kb query tt) = Ok v /\
    kb_query kb (u "engg-math-1") v 3 true = Ok r /\
    subscript r (KStr (u "matches")) = Ok m /\
    py_iter m = Ok items /\
    Forall2 (fun res x => fst (text_of res tt) = Ok x) items l.
Proof.
  unfold retrieve_body. unfold bind at 1.
  destruct (get_embeddings kb query tt) as [[v|e] []]; [|discriminate].
  unfold bind at 1.
  destruct (get_pinecone_index kb tt) as [[[]|e] []]; [|discriminate].
  unfold bind at 1, lift at 1.
  destruct (kb_query kb (u "engg-math-1") v 3 true) as [r|e] eqn:Eq; [|discriminate].
  unfold bind at 1, lift at 1.
  destruct (subscript r (KStr (u "matches"))) as [m|e] eqn:Em; [|discriminate].
  unfold bind at 1, lift at 1.
  destruct (py_iter m) as [items|e] eqn:Ei; [|discriminate].
  destruct (mapM text_of items tt) as [[ys|e] s'] eqn:Emap; [|discriminate].
  simpl. intros Heq. injection Heq as <-.
  exists v, r, m, items. repeat split; try assumption.
  exact (mapM_ok _ _ _ _ _ Emap).
Qed.

Lemma embedding_failure_raises (query e : pystr) :
  fst (get_embeddings kb query tt) = Raise e ->
  exists e', fst (retrieve_body kb query tt) = Raise e'.
Proof.
  intros He. unfold retrieve_body. unfold bind at 1.
  destruct (get_embeddings kb query tt) as [[v|e0] []]; [discriminate|].
  exists e0. reflexivity.
Qed.

Lemma query_failure_raises (query : pystr) (v : json) (e : pystr) :
  fst (get_embeddings kb query tt) = Ok v ->
  kb_query kb (u "engg-math-1") v 3 true = Raise e ->
  exists e', fst (retrieve_body kb query tt) = Raise e'.
Proof.
  intros Hv Hq. unfold retrieve_body. unfold bind at 1.
  destruct (get_embeddings kb query tt) as [[v0|e0] []]; [|discriminate].
  simpl in Hv. injection Hv as ->.
  unfold bind at 1.
  destruct (get_pinecone_index kb tt) as [[[]|e1] []]; [|exists e1; reflexivity].
  unfold bind at 1, lift at 1. rewrite Hq. exists e. reflexivity.
Qed.

Lemma extraction_failure_raises (query : pystr) (v r m : json)
    (items : list json) (res : json) (e : pystr) :
  fst (get_embeddings kb query tt) = Ok v ->
  kb_query kb (u "engg-math-1") v 3 true = Ok r ->
  subscript r (KStr (u "matches")) = Ok m ->
  py_iter m = Ok items ->
  In res items ->
  fst (text_of res tt) = Raise e ->
  exists e', fst (retrieve_body kb query tt) = Raise e'.
Proof.
  intros Hv Hq Hm Hi Hin Hres. unfold retrieve_body. unfold bind at 1.
  destruct (get_embeddings kb query tt) as [[v0|e0] []]; [|discriminate].
  simpl in Hv. injection Hv as ->.
  unfold bind at 1.
  destruct (get_pinecone_index kb tt) as [[[]|e1] []]; [|exists e1; reflexivity].
  unfold bind at 1, lift at 1. rewrite Hq.
  unfold bind at 1, lift at 1. rewrite Hm.
  unfold bind at 1, lift at 1. rewrite Hi.
  exact (mapM_raises text_of items res e Hin Hres).
Qed.

Lemma index_failure_raises (query : pystr) (v : json) (e : pystr) :
  fst (get_embeddings kb query tt) = Ok v ->
  fst (get_pinecone_index kb tt) = Raise e ->
  exists e', fst (retrieve_body kb query tt) = Raise e'.
Proof.
  intros Hv Hi. unfold retrieve_body. unfold bind at 1.
  destruct (get_embeddings kb query tt) as [[v0|e0] []]; [|discriminate].
  unfold bind at 1.
  destruct (get_pinecone_index kb tt) as [[[]|e1] []]; [discriminate|].
  exists e1. reflexivity.
Qed.

End KbFacts.

(** C7, as stated, fails twice.  The retriever asks the index for three
    matches and keeps whatever it gets: an index that answers with five
    matches gives five snippets.  And its [except] block prints the failure
    before it returns the empty list: when the embedding service is down
    and the standard output is closed, the exception of the print reaches
    the caller. *)
Lemma C7_five_snippets_and_a_raise :
  retrieve_data_from_db kb_five (u "derivative of a product") tt
    = (Ok (map JStr [u "a"; u "b"; u "c"; u "d"; u "e"]), tt) /\
  retrieve_data_from_db kb_down (u "derivative of a product") tt = (Ok [], tt) /\
  retrieve_data_from_db kb_down_closed (u "derivative of a product") tt
    = (Raise (u "I/O operation on closed file."), tt).
Proof. vm_compute. repeat split. Qed.

(** C7 (amended): the retriever gives the result of its body, or what its
    [except] block makes of the body's failure.  When the embedding call,
    the set-up and the query of the index and the extraction succeed, the
    result is the [text] field of each match's metadata, one snippet per
    match in the order of the matches; the retriever asks the index for
    [top_k=3] and does not truncate, so the list has at most 3 snippets
    when the index answers with at most [top_k] matches.  When one of them
    fails, the failure is printed and the result is the empty list, unless
    the print raises: then that exception reaches the caller.  A result
    that is not empty is always the list of the texts of the matches. *)
Theorem C7_retriever_returns_at_most_three (kb : kb_services) (query : pystr) :
  (forall v r m items xs,
     fst (get_embeddings kb query tt) = Ok v ->
     fst (get_pinecone_index kb tt) = Ok tt ->
     kb_query kb (u "engg-math-1") v 3 true = Ok r ->
     subscript r (KStr (u "matches")) = Ok m ->
     py_iter m = Ok items ->
     Forall2 (fun res x => fst (text_of res tt) = Ok x) items xs ->
     retrieve_data_from_db kb query tt = (Ok xs, tt) /\
     length xs = length items /\
     (honours_top_k kb -> length xs <= 3)) /\
  (forall e, fst (retrieve_body kb query tt) = Raise e ->
     retrieve_data_from_db kb query tt = (after_failure kb e, tt) /\
     (kb_print kb (retrieval_error_line e) = Printed ->
      retrieve_data_from_db kb query tt = (Ok [], tt))) /\
  (forall e, fst (get_embeddings kb query tt) = Raise e ->
     exists e', fst (retrieve_body kb query tt) = Raise e') /\
  (forall v e,
     fst (get_embeddings kb query tt) = Ok v ->
     fst (get_pinecone_index kb tt) = Raise e \/
     kb_query kb (u "engg-math-1") v 3 true = Raise e ->
     exists e', fst (retrieve_body kb query tt) = Raise e') /\
  (forall v r m items res e,
     fst (get_embeddings kb query tt) = Ok v ->
     kb_query kb (u "engg-math-1") v 3 true = Ok r ->
     subscript r (KStr (u "matches")) = Ok m ->
     py_iter m = Ok items ->
     In res items ->
     fst (text_of res tt) = Raise e ->
     exists e', fst (retrieve_body kb query tt) = Raise e') /\
  (forall l, fst (retrieve_data_from_db kb query tt) = Ok l -> l <> [] ->
     exists v r m items,
       fst (get_embeddings kb query tt) = Ok v /\
       kb_query kb (u "engg-math-1") v 3 true = Ok r /\
       subscript r (KStr (u "matches")) = Ok m /\
       py_iter m = Ok items /\
       Forall2 (fun res x => fst (text_of res tt) = Ok x) items l).
Proof.
  split; [|split; [|split; [|split; [|split]]]].
  - intros v r m items xs Hv Hidx Hq Hm Hi Hall.
    pose proof (retrieve_body_complete kb query v r m items xs Hv Hidx Hq Hm Hi Hall) as Hb.
    split; [rewrite retrieve_cases, Hb; reflexivity|].
    split; [symmetry; exact (Forall2_length _ _ _ Hall)|].
    intros Htop. rewrite <- (Forall2_length _ _ _ Hall).
    exact (Htop _ _ _ _ _ _ _ Hq Hm Hi).
  - intros e He. rewrite retrieve_cases, He. split; [reflexivity|].
    intros Hp. unfold after_failure. rewrite Hp. reflexivity.
  - intros e He. exact (embedding_failure_raises kb query e He).
  - intros v e Hv [Hidx | Hq].
    + exact (index_failure_raises kb query v e Hv Hidx).
    + exact (query_failure_raises kb query v e Hv Hq).
  - intros v r m items res e Hv Hq Hm Hi Hin Hres.
    exact (extraction_failure_raises kb query v r m items res e Hv Hq Hm Hi Hin Hres).
  - intros l Hl Hne. rewrite retrieve_cases in Hl. simpl in Hl.
    destruct (fst (retrieve_body kb query tt)) as [l'|e] eqn:Eb.
    + injection Hl as ->. exact (retrieve_body_ok kb query l Eb).
    + unfold after_failure in Hl.
      destruct (kb_print kb (retrieval_error_line e)); try discriminate.
      injection Hl as <-. elim Hne. reflexivity.
Qed.

Lemma kb_demo_honours_top_k : honours_top_k kb_demo.
Proof.
  intros ns v k md r m ms Hq Hm Hi. simpl in Hq.
  destruct k as [|[|k]]; injection Hq as <-; simpl in Hm;
    injection Hm as <-; injection Hi as <-; simpl; lia.
Defined.

Example retrieve_demo :
  retrieve_data_from_db kb_demo (u "derivative of a product") tt
  = (Ok [JStr (u "chain rule"); JStr (u "product rule")], tt).
Proof. vm_compute. reflexivity. Qed.

Lemma C7_retriever_returns_at_most_three_witness :
  honours_top_k kb_demo /\
  retrieve_data_from_db kb_demo (u "derivative of a product") tt
    = (Ok [JStr (u "chain rule"); JStr (u "product rule")], tt) /\
  length [JStr (u "chain rule"); JStr (u "product rule")] <= 3.
Proof.
  split; [exact kb_demo_honours_top_k|].
  destruct (C7_retriever_returns_at_most_three kb_demo (u "derivative of a product"))
    as (Hok & _).
  destruct (Hok (JList [JNum (u "0.1"); JNum (u "0.2")]) two_matches
              (JList [JDict [(u "id", JStr (u "a")); (u "metadata", JDict [(u "text", JStr (u "chain rule"))])];
                      JDict [(u "id", JStr (u "b")); (u "metadata", JDict [(u "text", JStr (u "product rule"))])]])
              [JDict [(u "id", JStr (u "a")); (u "metadata", JDict [(u "text", JStr (u "chain rule"))])];
               JDict [(u "id", JStr (u "b")); (u "metadata", JDict [(u "text", JStr (u "product rule"))])]]
              [JStr (u "chain rule"); JStr (u "product rule")])
    as (Hres & _ & Hlen); try reflexivity.
  - repeat constructor.
  - split; [exact Hres | exact (Hlen kb_demo_honours_top_k)].
Defined.

(** ** The session store *)

Lemma update_lookup (l l' : loc) (f : session -> session) (st : server) :
  heap (update l f st) !! l' =
  if decide (l = l') then f <$> heap st !! l else heap st !! l'.
Proof. unfold update. simpl. apply lookup_alter. Qed.

Lemma update_lookup_eq (l : loc) (f : session -> session) (st : server) (s : session) :
  heap st !! l = Some s -> heap (update l f st) !! l = Some (f s).
Proof. intros Hs. rewrite update_lookup, decide_True by reflexivity. rewrite Hs. reflexivity. Qed.

Lemma fresh_unused (st : server) : heap st !! fresh (dom (heap st)) = None.
Proof. apply not_elem_of_dom, is_fresh. Qed.

Lemma unknown_id_not_continued (req : ChatRequest) (sid : pystr) (st : server) :
  session_id req = Some sid -> sessions st !! sid = None -> continued req st = None.
Proof.
  intros Hsid Hnone. unfold continued, lookup_session. rewrite Hsid, Hnone.
  destruct (py_not sid); reflexivity.
Qed.

(** POST /chat when its first print returns. *)
Lemma chat_printed (out : stdout) (req : ChatRequest) (uuid : pystr) (st : server) :
  out (length (log st)) (chat_line req) = Printed ->
  chat out req uuid st =
    (HttpOk (fst (chat_body req uuid (set_log (log st ++ [EvPrint (chat_line req)]) st))),
     snd (chat_body req uuid (set_log (log st ++ [EvPrint (chat_line req)]) st))).
Proof.
  intros Hp. unfold chat. rewrite Hp.
  destruct (chat_body req uuid _) as [r st1]. reflexivity.
Qed.

(** POST /chat when its first print raises: no session is created or
    changed and no pipeline is scheduled. *)
Lemma chat_not_printed (out : stdout) (req : ChatRequest) (uuid : pystr) (st : server) :
  out (length (log st)) (chat_line req) <> Printed ->
  sessions (snd (chat out req uuid st)) = sessions st /\
  heap (snd (chat out req uuid st)) = heap st /\
  tasks (snd (chat out req uuid st)) = tasks st /\
  (forall a, fst (chat out req uuid st) <> HttpOk a).
Proof.
  intros Hp. unfold chat, say.
  destruct (out (length (log st)) (chat_line req)) as [|e|e]; [contradiction| |]; simpl.
  - repeat split. discriminate.
  - match goal with |- context [print_outcome ?x] => destruct x end; simpl;
      repeat split; discriminate.
Qed.

(** C9, as stated, fails: the first statement of POST /chat prints the
    topic inside the [try] block, and a [ValueError] there is answered with
    400.  With a standard output in UTF-8 and a topic that holds a lone
    surrogate, the request with an unknown [session_id] is answered with
    400 and no session is created. *)
Lemma C9_unprintable_topic_is_refused :
  sessions server_init !! u "no-such-id" = None /\
  exists e st',
    chat stdout_utf8
         {| topic := u "solve x + 1 = 2" ++ [56448%N]; session_id := Some (u "no-such-id") |}
         (u "3f2a") server_init = (HTTPException 400 e, st') /\
    sessions st' = ∅ /\ heap st' = ∅ /\ tasks st' = [].
Proof.
  split; [apply lookup_empty|].
  eexists _, _. split; [vm_compute; reflexivity|]. repeat split.
Qed.

(** C9 (amended): a POST /chat request whose [session_id] is not a key of
    the store is not an error in itself.  When the log line of the request
    is printed, a session is created under the generated identifier, at
    a new object; the answer carries that identifier and the status
    "processing"; the supplied identifier is not used (it stays unknown
    unless it is the generated one), and the pipeline is scheduled.  When
    the print raises a [ValueError] (the topic or the identifier cannot be
    encoded), the answer is 400 with the text of the exception; when it
    raises another exception, the answer is 500, or the exception of the
    second print; in both cases no session is created and nothing is
    scheduled. *)
Theorem C9_unknown_session_id_creates_session (out : stdout)
    (req : ChatRequest) (uuid sid : pystr) (st : server) :
  session_id req = Some sid ->
  sessions st !! sid = None ->
  (out (length (log st)) (chat_line req) = Printed ->
   exists l st',
     chat out req uuid st =
       (HttpOk {| r_session_id := uuid; r_status := Processing;
                  r_messages := [{| role := user; content := topic req |}] |}, st') /\
     heap st !! l = None /\
     sessions st' !! uuid = Some l /\
     heap st' !! l = Some (new_session (topic req)) /\
     (sid <> uuid -> sessions st' !! sid = None) /\
     (forall l' s, heap st !! l' = Some s -> heap st' !! l' = Some s) /\
     tasks st' = tasks st ++ [TStart uuid (topic req)] /\
     log st' = log st ++ [EvPrint (chat_line req)]) /\
  (forall e, out (length (log st)) (chat_line req) = PrintValueError e ->
   exists st',
     chat out req uuid st = (HTTPException 400 e, st') /\
     sessions st' = sessions st /\ heap st' = heap st /\ tasks st' = tasks st) /\
  (forall e, out (length (log st)) (chat_line req) = PrintError e ->
   exists r st',
     chat out req uuid st = (r, st') /\
     (r = HTTPException 500 (u "Error: " ++ e) \/ exists e', r = Propagates e') /\
     sessions st' = sessions st /\ heap st' = heap st /\ tasks st' = tasks st).
Proof.
  intros Hsid Hnone. split; [|split].
  - intros Hp. rewrite (chat_printed out req uuid st Hp).
    assert (Hc : continued req (set_log (log st ++ [EvPrint (chat_line req)]) st) = None)
      by (apply (unknown_id_not_continued req sid); assumption).
    unfold chat_body. rewrite Hc.
    eexists (fresh (dom (heap st))), _. split; [reflexivity|]. simpl.
    split; [apply fresh_unused|].
    split; [apply lookup_insert_eq|].
    split; [apply lookup_insert_eq|].
    split; [intros Hne; rewrite lookup_insert_ne by congruence; exact Hnone|].
    split; [|split; reflexivity].
    intros l' s Hl'. rewrite lookup_insert_ne; [exact Hl'|].
    intros <-. rewrite fresh_unused in Hl'. discriminate.
  - intros e Hp. unfold chat. rewrite Hp. eexists. split; [reflexivity|].
    repeat split.
  - intros e Hp. unfold chat, say. rewrite Hp.
    match goal with |- context [print_outcome ?x] => destruct x end; simpl;
      eexists _, _; (split; [reflexivity|]); (split; [|repeat split]); eauto.
Qed.

(** On a standard output whose reader is gone, the first print raises an
    exception that is not a ValueError, the print of the except block
    raises it again, and that exception leaves the handler; when one write
    only is interrupted, the answer is 500.  No session is created. *)
Example chat_on_broken_stdout :
  chat stdout_broken {| topic := u "solve x + 1 = 2"; session_id := None |}
       (u "3f2a") server_init
    = (Propagates (u "[Errno 32] Broken pipe"),
       set_log [EvPrint (chat_line {| topic := u "solve x + 1 = 2"; session_id := None |});
                EvPrint (u " Error starting chat: [Errno 32] Broken pipe")]
               server_init) /\
  chat (stdout_fails_at 0) {| topic := u "solve x + 1 = 2"; session_id := None |}
       (u "3f2a") server_init
    = (HTTPException 500 (u "Error: [Errno 4] Interrupted system call"),
       set_log [EvPrint (chat_line {| topic := u "solve x + 1 = 2"; session_id := None |});
                EvPrint (u " Error starting chat: [Errno 4] Interrupted system call")]
               server_init).
Proof. split; vm_compute; reflexivity. Qed.

Lemma C9_unknown_session_id_creates_session_witness :
  exists l st',
    chat stdout_ok
         {| topic := u "solve x + 1 = 2"; session_id := Some (u "no-such-id") |}
         (u "3f2a") server_init =
      (HttpOk {| r_session_id := u "3f2a"; r_status := Processing;
                 r_messages := [{| role := user; content := u "solve x + 1 = 2" |}] |}, st') /\
    sessions st' !! u "3f2a" = Some l.
Proof.
  destruct (C9_unknown_session_id_creates_session stdout_ok
              {| topic := u "solve x + 1 = 2"; session_id := Some (u "no-such-id") |}
              (u "3f2a") (u "no-such-id") server_init eq_refl (lookup_empty _))
    as (Hok & _).
  destruct (Hok eq_refl) as (l & st' & Hchat & _ & Hs & _).
  exists l, st'. split; [exact Hchat | exact Hs].
Defined.

Section FeedbackFacts.
Context `{UnicodeData}.

Lemma is_approval_iff (fb : pystr) :
  is_approval fb = true <->
  exists w, In w APPROVAL_WORDS /\ py_in w (str_lower (strip fb)) = true.
Proof. unfold is_approval, any_in, feedback_lower. apply existsb_exists. Qed.

Lemma lookup_session_Some (st : server) (sid : pystr) (l : loc) (s : session) :
  sessions st !! sid = Some l -> heap st !! l = Some s ->
  lookup_session st sid = Some (l, s).
Proof. intros Hl Hs. unfold lookup_session. rewrite Hl, Hs. reflexivity. Qed.

(** The approving branch of POST /human-input. *)
Lemma human_input_begin_approve (out : stdout) (req : HumanInputRequest) (st : server)
    (l : loc) (s : session) :
  sessions st !! hi_session_id req = Some l ->
  heap st !! l = Some s ->
  waiting_for_approval s = true ->
  out (length (log st)) (feedback_line req) = Printed ->
  is_approval (feedback req) = true ->
  human_input_begin out req st =
    (Done (HttpOk success),
     update l (fun s0 =>
       append_message {| role := assistant;
                         content := approved_response (current_solution s) |}
         (set_current_solution None
            (set_waiting_for_approval false (set_status Completed s0))))
       (update l (append_message {| role := user; content := feedback req |})
          (fed req st))).
Proof.
  intros Hl Hs Hw Hp Ha. unfold human_input_begin, say.
  rewrite (lookup_session_Some st _ l s Hl Hs), Hw, Hp, Ha. reflexivity.
Qed.

(** The revising branch, up to the [await]. *)
Lemma human_input_begin_revise (out : stdout) (req : HumanInputRequest) (st : server)
    (l : loc) (s : session) :
  sessions st !! hi_session_id req = Some l ->
  heap st !! l = Some s ->
  waiting_for_approval s = true ->
  out (length (log st)) (feedback_line req) = Printed ->
  is_approval (feedback req) = false ->
  human_input_begin out req st =
    (AwaitImprove l (current_solution s) (current_topic s),
     update l (fun s0 => append_message thanks_message (set_status Improving s0))
       (update l (append_message {| role := user; content := feedback req |})
          (fed req st))).
Proof.
  intros Hl Hs Hw Hp Ha. unfold human_input_begin, say.
  rewrite (lookup_session_Some st _ l s Hl Hs), Hw, Hp, Ha. reflexivity.
Qed.

(** The first print raises: the [except] block runs, on a state in which
    the feedback was not recorded. *)
Lemma human_input_begin_unprinted (out : stdout) (req : HumanInputRequest) (st : server)
    (l : loc) (s : session) (e : pystr) :
  sessions st !! hi_session_id req = Some l ->
  heap st !! l = Some s ->
  waiting_for_approval s = true ->
  print_outcome (out (length (log st)) (feedback_line req)) = Raise e ->
  human_input_begin out req st =
    (Done (fst (hi_except out l e (fed req st))), snd (hi_except out l e (fed req st))).
Proof.
  intros Hl Hs Hw Hp. unfold human_input_begin, say.
  rewrite (lookup_session_Some st _ l s Hl Hs), Hw, Hp. simpl. unfold fed.
  destruct (hi_except out l e _) as [r st1]. reflexivity.
Qed.

End FeedbackFacts.

(** The approving branch finalizes a flagged session, in any state, when
    the log line of the request is printed. *)
Lemma approval_finalizes `{UnicodeData} (svc : services)
    (req : HumanInputRequest) (st : server) (l : loc) (s : session) :
  sessions st !! hi_session_id req = Some l ->
  heap st !! l = Some s ->
  waiting_for_approval s = true ->
  svc_print svc (length (log st)) (feedback_line req) = Printed ->
  is_approval (feedback req) = true ->
  exists st',
    human_input svc req st = (HttpOk success, st') /\
    human_input_begin (svc_print svc) req st = (Done (HttpOk success), st') /\
    heap st' !! l = Some
      {| agent := agent s;
         sess_status := Completed;
         messages := messages s ++
           [{| role := user; content := feedback req |};
            {| role := assistant;
               content := approved_response (current_solution s) |}];
         waiting_for_approval := false;
         current_solution := None;
         current_topic := current_topic s;
         research_context := research_context s |} /\
    sessions st' = sessions st /\
    tasks st' = tasks st /\
    log st' = log st ++ [EvPrint (feedback_line req)].
Proof.
  intros Hl Hs Hw Hp Happ.
  pose proof (human_input_begin_approve (svc_print svc) req st l s Hl Hs Hw Hp Happ) as Hb.
  eexists. split; [unfold human_input; rewrite Hb; reflexivity|].
  split; [exact Hb|].
  split; [|split; [|split]; reflexivity].
  erewrite update_lookup_eq; [|apply update_lookup_eq; exact Hs].
  unfold append_message, set_current_solution, set_waiting_for_approval, set_status.
  simpl. rewrite <- app_assoc. reflexivity.
Qed.

Lemma demo_waiting_session :
  sessions demo_waiting !! demo_id = Some 0 /\
  heap demo_waiting !! 0 = Some demo_session.
Proof. split; vm_compute; reflexivity. Defined.

(** ** The pipeline *)

Section PipelineFacts.
Context `{UnicodeData} (svc : services).

Lemma await_lookup (l : loc) (m : M ctx pystr) (st : server) (s : session) :
  heap st !! l = Some s ->
  await l m st =
    (fst (m {| self := agent s; trace := log st |}),
     update l (set_agent (self (snd (m {| self := agent s; trace := log st |}))))
       (set_log (trace (snd (m {| self := agent s; trace := log st |}))) st)).
Proof.
  intros Hs. unfold await. rewrite Hs.
  destruct (m {| self := agent s; trace := log st |}) as [r c]. reflexivity.
Qed.


End PipelineFacts.




(** ** One step, seen from one session object *)

Lemma lookup_session_inv (st : server) (sid : pystr) (l : loc) (s : session) :
  lookup_session st sid = Some (l, s) ->
  sessions st !! sid = Some l /\ heap st !! l = Some s.
Proof.
  unfold lookup_session. destruct (sessions st !! sid) as [l0|]; [|discriminate].
  destruct (heap st !! l0) as [s0|] eqn:E; [|discriminate].
  intros Heq. injection Heq as -> ->. auto.
Qed.

Lemma py_in_prefix (p b : pystr) : py_in p (p ++ b) = true.
Proof. exact (py_in_app p [] b). Qed.

Lemma approval_message_shows (solution : pystr) :
  py_in solution (approval_message solution) = true.
Proof.
  unfold approval_message.
  repeat first [apply py_in_prefix | apply py_in_app_r].
Qed.

Lemma improved_response_shows (fb improved_solution : pystr) :
  py_in improved_solution (improved_response fb improved_solution) = true.
Proof.
  unfold improved_response.
  repeat first [apply py_in_prefix | apply py_in_app_r].
Qed.

Ltac extends_tac :=
  unfold extends; eexists; simpl; rewrite <- ?app_assoc;
  first [reflexivity | symmetry; apply app_nil_r].

Ltac neutral_tac :=
  unfold neutral; simpl;
  split; [reflexivity | split; [reflexivity | split;
    [extends_tac | first [left; reflexivity | right; simpl; tauto]]]].

(** Case analysis on a step of one object. *)
Ltac inv_obj Ho :=
  inversion Ho; subst;
  repeat match goal with
  | Hx : Some _ = _ !! _ |- _ => symmetry in Hx
  | Hx : None = _ !! _ |- _ => symmetry in Hx
  | Hx : neutral _ _ |- _ => destruct Hx as (? & ? & ? & ?)
  end.

Ltac lookup_tac Hl :=
  simpl; rewrite ?lookup_alter; repeat case_decide; subst;
  try congruence; rewrite ?Hl; simpl.

(** Case analysis on the prints and the look-ups of a handler. *)
Ltac handler_cases out :=
  repeat first
    [ progress simpl
    | match goal with
      | |- context [out ?n ?t] => destruct (out n t)
      | |- context [match sessions ?st !! ?k with _ => _ end] =>
          destruct (sessions st !! k)
      end ].

Ltac shown_tac lem :=
  eexists; split;
    [simpl; rewrite <- ?app_assoc; apply in_or_app; right; left; reflexivity|];
  split; [reflexivity | apply lem].

Section ObjectSteps.
Context `{UnicodeData} (out : stdout).

Lemma chat_obj (req : ChatRequest) (uuid : pystr) (st : server) (l : loc) :
  obj_step st (LChat req uuid) l
    (heap st !! l) (heap (snd (chat out req uuid st)) !! l).
Proof.
  unfold chat, say.
  destruct (out (length (log st)) (chat_line req)) as [|e|e]; simpl.
  - unfold chat_body. destruct (continued req _) as [[[sid l0] s0]|]; simpl.
    + destruct (heap st !! l) as [s|] eqn:Hl; lookup_tac Hl;
        first [apply os_same | apply os_neutral; neutral_tac].
    + rewrite lookup_insert. case_decide; [|apply os_same].
      subst l. rewrite fresh_unused. apply os_new.
  - apply os_same.
  - handler_cases out; apply os_same.
Qed.

Lemma hi_except_obj (lbl : label) (st0 st : server) (l0 l : loc) (e : pystr) :
  obj_step st0 lbl l (heap st !! l) (heap (snd (hi_except out l0 e st)) !! l).
Proof.
  unfold hi_except, say. handler_cases out; try apply os_same.
  destruct (heap st !! l) as [s|] eqn:Hl; lookup_tac Hl;
    first [apply os_same | apply os_neutral; neutral_tac].
Qed.

Lemma human_input_begin_obj (req : HumanInputRequest) (st : server) (l : loc) :
  obj_step st (LHumanInput req) l
    (heap st !! l) (heap (snd (human_input_begin out req st)) !! l).
Proof.
  unfold human_input_begin.
  destruct (lookup_session st (hi_session_id req)) as [[l0 s0]|] eqn:E;
    [|apply os_same].
  apply lookup_session_inv in E. destruct E as [Hsid Hs0].
  destruct (waiting_for_approval s0) eqn:Hw; [|apply os_same]. simpl.
  unfold say.
  destruct (print_outcome (out (length (log st)) (feedback_line req))) as [[]|e].
  - destruct (is_approval (feedback req)) eqn:Happ.
    + destruct (decide (l0 = l)) as [->|Hne].
      * lookup_tac Hs0.
        eapply os_approved; try reflexivity; try eassumption. extends_tac.
      * simpl. rewrite !lookup_alter_ne by exact Hne. apply os_same.
    + destruct (decide (l0 = l)) as [->|Hne].
      * lookup_tac Hs0. apply os_neutral. neutral_tac.
      * simpl. rewrite !lookup_alter_ne by exact Hne. apply os_same.
  - pose proof (hi_except_obj (LHumanInput req) st
                  (set_log (log st ++ [EvPrint (feedback_line req)]) st) l0 l e) as Ho.
    destruct (hi_except out l0 e _) as [r st1]. exact Ho.
Qed.

Lemma delete_session_obj (sid : pystr) (st : server) (l : loc) :
  obj_step st (LDelete sid) l
    (heap st !! l) (heap (snd (delete_session sid st)) !! l).
Proof.
  unfold delete_session. destruct (sessions st !! sid); apply os_same.
Qed.

Lemma resume_obj (i : nat) (r : outcome pystr) (ag : MathematicalAgent)
    (evs : list event) (st : server) (t : task) (l : loc) :
  tasks st !! i = Some t ->
  obj_step st (LResume i r ag evs) l
    (heap st !! l)
    (heap (resume out t r ag evs (set_tasks (delete i (tasks st)) st)) !! l).
Proof.
  intros Ht.
  destruct (heap st !! l) as [s|] eqn:Hl;
    destruct t as [sid tp | l0 sid tp | l0 sid tp rr | l0 cs fb tp]; simpl.
  all: try (unfold pmq_start; simpl; destruct (sessions st !! sid) as [l1|]; simpl;
            lookup_tac Hl; first [apply os_same | apply os_neutral; neutral_tac]).
  all: destruct r as [x|e]; simpl.
  all: unfold pmq_researched, pmq_solved, pmq_except, hi_except, say.
  all: handler_cases out.
  all: lookup_tac Hl.
  all: try first [apply os_same | apply os_neutral; neutral_tac].
  all: first
    [ eapply (os_solved _ _ _ _ _ x); try reflexivity;
        [first [left; reflexivity | right; reflexivity] | extends_tac
        | shown_tac approval_message_shows]
    | eapply (os_improved _ _ _ _ _ x); try reflexivity; [exact Ht | extends_tac |];
      shown_tac improved_response_shows ].
Qed.

Lemma do_step_obj (lbl : label) (st : server) (l : loc) :
  obj_step st lbl l (heap st !! l) (heap (do_step out lbl st) !! l).
Proof.
  destruct lbl as [req uuid | sid | req | sid | i r ag evs]; simpl.
  - apply chat_obj.
  - apply os_same.
  - pose proof (human_input_begin_obj req st l) as Hb.
    destruct (human_input_begin out req st) as [[a | l0 cs tp] st']; exact Hb.
  - apply delete_session_obj.
  - destruct (tasks st !! i) as [t|] eqn:Ht; [|apply os_same].
    apply resume_obj. exact Ht.
Qed.

End ObjectSteps.

(** ** Invariants of the runs *)

Section Invariants.
Context `{UnicodeData} (out : stdout).

(** A revision that is pending after a step was pending before it, or was
    started by this step, for a session whose flag is set. *)
Lemma do_step_pending (lbl : label) (st : server) l cs fb tp :
  TImprove l cs fb tp ∈ tasks (do_step out lbl st) ->
  TImprove l cs fb tp ∈ tasks st \/
  (exists req s, lbl = LHumanInput req /\
     sessions st !! hi_session_id req = Some l /\
     heap st !! l = Some s /\
     waiting_for_approval s = true /\
     is_approval (feedback req) = false).
Proof.
  destruct lbl as [req uuid | sid | req | sid | i r ag evs]; simpl.
  - unfold chat, say.
    destruct (out (length (log st)) (chat_line req)) as [|e|e]; simpl.
    + unfold chat_body. destruct (continued req _) as [[[sid l0] s0]|]; simpl;
        rewrite elem_of_app, list_elem_of_singleton; intros [Hin | Heq];
        auto; discriminate.
    + auto.
    + handler_cases out; auto.
  - auto.
  - unfold human_input_begin.
    destruct (lookup_session st (hi_session_id req)) as [[l0 s0]|] eqn:E; [|auto].
    apply lookup_session_inv in E. destruct E as [Hsid Hs0].
    destruct (waiting_for_approval s0) eqn:Hw; [|auto]. simpl.
    unfold say, hi_except, say.
    destruct (print_outcome (out (length (log st)) (feedback_line req))) as [[]|e].
    + destruct (is_approval (feedback req)) eqn:Happ; simpl; [auto|].
      rewrite elem_of_app, list_elem_of_singleton. intros [Hin | Heq]; [auto|].
      injection Heq as -> -> -> ->. right. exists req, s0. auto.
    + handler_cases out; auto.
  - unfold delete_session. destruct (sessions st !! sid); auto.
  - destruct (tasks st !! i) as [t|] eqn:Ht; [|auto].
    intros Hin. left.
    assert (Hdel : TImprove l cs fb tp ∈ delete i (tasks st));
      [|exact (list_elem_of_delete_inv _ _ _ Hdel)].
    revert Hin.
    destruct t as [sid t0 | l0 sid t0 | l0 sid t0 rr | l0 cs0 fb0 t0]; simpl;
      [unfold pmq_start; simpl; destruct (sessions st !! sid); simpl
      |destruct r as [x|e]; simpl..];
      unfold pmq_researched, pmq_solved, pmq_except, hi_except, say;
      handler_cases out;
      intros Hin;
      first [exact Hin
            |apply elem_of_app in Hin; destruct Hin as [Hin | Heq]; [exact Hin|];
             apply list_elem_of_singleton in Heq; discriminate].
Qed.

Lemma no_overlap_spec (req : HumanInputRequest) (st : server) l cs fb tp :
  no_overlap (LHumanInput req) st = true ->
  sessions st !! hi_session_id req = Some l ->
  TImprove l cs fb tp ∈ tasks st -> False.
Proof.
  simpl. intros Hno Hsid Hin. rewrite Hsid in Hno.
  apply negb_true_iff in Hno.
  assert (Hex : existsb (improving l) (tasks st) = true); [|congruence].
  apply existsb_exists. exists (TImprove l cs fb tp).
  split; [apply list_elem_of_In; exact Hin | simpl; apply Nat.eqb_refl].
Qed.


Lemma do_step_flag_has_solution (lbl : label) (st : server) :
  heap_all flag_has_solution st -> heap_all flag_has_solution (do_step out lbl st).
Proof.
  intros Hall l s' Hs'. pose proof (do_step_obj out lbl st l) as Ho.
  rewrite Hs' in Ho. unfold flag_has_solution.
  inv_obj Ho.
  - match goal with Hx : heap st !! l = Some s' |- _ => exact (Hall l s' Hx) end.
  - simpl. discriminate.
  - match goal with
    | Hf : waiting_for_approval s' = waiting_for_approval ?s,
      Hc : current_solution s' = current_solution ?s,
      Hx : heap st !! l = Some ?s |- _ => rewrite Hf, Hc; exact (Hall l s Hx)
    end.
  - match goal with Hf : waiting_for_approval s' = false |- _ => rewrite Hf end.
    discriminate.
  - match goal with Hc : current_solution s' = Some _ |- _ => rewrite Hc end.
    discriminate.
  - match goal with Hc : current_solution s' = Some _ |- _ => rewrite Hc end.
    discriminate.
Qed.


(** With feedback not overlapped, the flag and the solution go together,
    and every pending revision is for a flagged session. *)
Lemma do_step_flag_iff_solution (lbl : label) (st : server) :
  no_overlap lbl st = true ->
  heap_all flag_iff_solution st /\ pending_flagged st ->
  heap_all flag_iff_solution (do_step out lbl st) /\ pending_flagged (do_step out lbl st).
Proof.
  intros Hno [Hall Hpend]. split.
  - intros l s' Hs'. pose proof (do_step_obj out lbl st l) as Ho.
    rewrite Hs' in Ho. unfold flag_iff_solution.
    inv_obj Ho.
    + match goal with Hx : heap st !! l = Some s' |- _ => exact (Hall l s' Hx) end.
    + simpl. split; [discriminate | intros Hn; elim Hn; reflexivity].
    + match goal with
      | Hf : waiting_for_approval s' = waiting_for_approval ?s,
        Hc : current_solution s' = current_solution ?s,
        Hx : heap st !! l = Some ?s |- _ => rewrite Hf, Hc; exact (Hall l s Hx)
      end.
    + match goal with
      | Hf : waiting_for_approval s' = false,
        Hc : current_solution s' = None |- _ => rewrite Hf, Hc
      end.
      split; [discriminate | intros Hn; elim Hn; reflexivity].
    + match goal with
      | Hf : waiting_for_approval s' = true,
        Hc : current_solution s' = Some _ |- _ => rewrite Hf, Hc
      end.
      split; [discriminate | reflexivity].
    + match goal with
      | Ht : tasks st !! _ = Some (TImprove l _ _ _),
        Hf : waiting_for_approval s' = waiting_for_approval ?s,
        Hc : current_solution s' = Some _,
        Hx : heap st !! l = Some ?s |- _ =>
          apply list_elem_of_lookup_2, Hpend in Ht;
          destruct Ht as (s0 & Hs0 & Hw0);
          rewrite Hx in Hs0; injection Hs0 as <-;
          rewrite Hf, Hc, Hw0
      end.
      split; [discriminate | reflexivity].
  - intros l cs fb tp Hin.
    assert (Hbefore : exists s, heap st !! l = Some s /\ waiting_for_approval s = true).
    { destruct (do_step_pending lbl st l cs fb tp Hin)
        as [Hold | (req & s & _ & _ & Hs & Hw & _)]; [exact (Hpend _ _ _ _ Hold)|].
      exists s. auto. }
    destruct Hbefore as (s & Hs & Hw).
    pose proof (do_step_obj out lbl st l) as Ho. rewrite Hs in Ho.
    inversion Ho; subst.
    + exists s. split; [congruence | exact Hw].
    + match goal with Hn : neutral s ?s' |- _ =>
        exists s'; destruct Hn as (Hf & _); split; [congruence | congruence] end.
    + exfalso.
      destruct (do_step_pending (LHumanInput req) st l cs fb tp Hin)
        as [Hold | (req' & s1 & Heq & _ & _ & _ & Hna)].
      * match goal with Hsid : sessions st !! hi_session_id req = Some l |- _ =>
          exact (no_overlap_spec req st l cs fb tp Hno Hsid Hold) end.
      * injection Heq as <-. congruence.
    + match goal with Hf : waiting_for_approval ?s' = true |- _ =>
        exists s'; split; [congruence | exact Hf] end.
    + match goal with Hf : waiting_for_approval ?s' = waiting_for_approval s |- _ =>
        exists s'; split; [congruence | congruence] end.
Qed.

Lemma do_step_waiting_is_flagged (lbl : label) (st : server) :
  pending_flagged st ->
  heap_all waiting_is_flagged st -> heap_all waiting_is_flagged (do_step out lbl st).
Proof.
  intros Hpend Hall l s' Hs'. pose proof (do_step_obj out lbl st l) as Ho.
  rewrite Hs' in Ho. unfold waiting_is_flagged.
  inv_obj Ho.
  - match goal with Hx : heap st !! l = Some s' |- _ => exact (Hall l s' Hx) end.
  - simpl. discriminate.
  - match goal with
    | Hf : waiting_for_approval s' = waiting_for_approval ?s,
      Hst : _ \/ _,
      Hx : heap st !! l = Some ?s |- _ =>
        rewrite Hf; destruct Hst as [Hst | Hst];
        [rewrite Hst; exact (Hall l s Hx)
        |intros Hw; rewrite Hw in Hst; simpl in Hst;
         repeat (destruct Hst as [Hst | Hst]; [discriminate|]); contradiction]
    end.
  - match goal with Hst : sess_status s' = Completed |- _ => rewrite Hst end.
    discriminate.
  - match goal with Hf : waiting_for_approval s' = true |- _ => intros _; exact Hf end.
  - match goal with
    | Ht : tasks st !! _ = Some (TImprove l _ _ _),
      Hf : waiting_for_approval s' = waiting_for_approval ?s,
      Hx : heap st !! l = Some ?s |- _ =>
        apply list_elem_of_lookup_2, Hpend in Ht;
        destruct Ht as (s0 & Hs0 & Hw0);
        rewrite Hx in Hs0; injection Hs0 as <-;
        intros _; rewrite Hf; exact Hw0
    end.
Qed.

End Invariants.

Section Runs.
Context `{UnicodeData} (out : stdout).

Lemma run_app (a b : list label) (st : server) :
  run out (a ++ b) st = run out b (run out a st).
Proof. revert st. induction a as [|x a IH]; intros st; simpl; [reflexivity | apply IH]. Qed.

Lemma run_heap_all (P : session -> Prop) :
  (forall lbl st, heap_all P st -> heap_all P (do_step out lbl st)) ->
  forall lbls st, heap_all P st -> heap_all P (run out lbls st).
Proof.
  intros Hstep lbls. induction lbls as [|lbl lbls IH]; intros st Hst; simpl.
  - exact Hst.
  - apply IH, Hstep, Hst.
Qed.

Lemma heap_all_init (P : session -> Prop) : heap_all P server_init.
Proof. intros l s Hl. simpl in Hl. rewrite lookup_empty in Hl. discriminate. Qed.

Lemma run_flag_has_solution (lbls : list label) :
  heap_all flag_has_solution (run out lbls server_init).
Proof.
  apply run_heap_all; [exact (do_step_flag_has_solution out) | apply heap_all_init].
Qed.


Lemma run_flag_iff_solution (lbls : list label) (st : server) :
  orderly out lbls st = true ->
  heap_all flag_iff_solution st /\ pending_flagged st ->
  heap_all flag_iff_solution (run out lbls st) /\ pending_flagged (run out lbls st).
Proof.
  revert st. induction lbls as [|lbl lbls IH]; intros st Hord Hinv; simpl.
  - exact Hinv.
  - simpl in Hord. apply andb_true_iff in Hord. destruct Hord as [Hno Hord].
    apply IH; [exact Hord|]. apply (do_step_flag_iff_solution out); assumption.
Qed.

Lemma pending_flagged_init : pending_flagged server_init.
Proof. intros l cs fb tp Hin. simpl in Hin. inversion Hin. Qed.

Lemma run_waiting_is_flagged (lbls : list label) (st : server) :
  orderly out lbls st = true ->
  heap_all flag_iff_solution st /\ pending_flagged st ->
  heap_all waiting_is_flagged st ->
  heap_all waiting_is_flagged (run out lbls st).
Proof.
  revert st. induction lbls as [|lbl lbls IH]; intros st Hord Hinv Hw; simpl.
  - exact Hw.
  - simpl in Hord. apply andb_true_iff in Hord. destruct Hord as [Hno Hord].
    apply IH; [exact Hord | apply (do_step_flag_iff_solution out); assumption |].
    apply (do_step_waiting_is_flagged out); [exact (proj2 Hinv) | exact Hw].
Qed.

(** A session whose status is waiting_for_approval has its flag set, when
    feedback was not overlapped. *)
Lemma waiting_flag (lbls : list label) (l : loc) (s : session) :
  heap (run out lbls server_init) !! l = Some s ->
  waiting_for_approval s = true \/
  (sess_status s = WaitingForApproval /\ orderly out lbls server_init = true) ->
  waiting_for_approval s = true.
Proof.
  intros Hs [Hw | [Hst Hord]]; [exact Hw|].
  apply (run_waiting_is_flagged lbls server_init Hord) in Hs.
  - exact (Hs Hst).
  - split; [apply heap_all_init | apply pending_flagged_init].
  - apply heap_all_init.
Qed.

(** The status and the flag in one step of one object. *)
Lemma do_step_status_flag (lbl : label) (st : server) (l : loc) (s s' : session) :
  heap st !! l = Some s ->
  heap (do_step out lbl st) !! l = Some s' ->
  status_flag_step s s'.
Proof.
  intros Hs Hs'. pose proof (do_step_obj out lbl st l) as Ho.
  rewrite Hs, Hs' in Ho. unfold status_flag_step.
  inversion Ho; subst.
  - left. auto.
  - match goal with Hn : neutral s s' |- _ => destruct Hn as (Hf & _ & _ & [Hst | Hst]) end;
      [left | right; left]; auto.
  - right. right. left. auto.
  - match goal with Hst : _ \/ _ |- _ => destruct Hst as [Hst | Hst] end;
      [right; right; right; left | right; right; right; right]; auto.
  - right. right. right. left. auto.
Qed.

End Runs.

(** ** The approval loop *)

(** C1, as stated, fails: from the session that awaits approval of
    "x = 1", feedback that is not an approval moves the status to
    improving with the flag still set; and when the revision then fails,
    the status is error with the flag still set. *)
Lemma C1_revision_keeps_flag :
  (sess_status <$> heap demo_waiting !! 0) = Some WaitingForApproval /\
  (sess_status <$> heap demo_improving !! 0) = Some Improving /\
  (waiting_for_approval <$> heap demo_improving !! 0) = Some true /\
  (sess_status <$> heap demo_failed !! 0) = Some Error /\
  (waiting_for_approval <$> heap demo_failed !! 0) = Some true.
Proof. vm_compute. repeat split. Qed.

(** The one step to error that sets the flag: the pipeline stores the
    solution, the flag and the status, and the print that follows raises
    (here the write at position 3 of the trace is interrupted). *)
Example delivered_and_not_logged :
  (sess_status <$> heap (run (stdout_fails_at 3) (take 3 demo_labels) server_init) !! 0)
    = Some Solving /\
  (waiting_for_approval <$>
     heap (run (stdout_fails_at 3) (take 3 demo_labels) server_init) !! 0) = Some false /\
  (sess_status <$> heap (run (stdout_fails_at 3) demo_labels server_init) !! 0)
    = Some Error /\
  (waiting_for_approval <$> heap (run (stdout_fails_at 3) demo_labels server_init) !! 0)
    = Some true /\
  (current_solution <$> heap (run (stdout_fails_at 3) demo_labels server_init) !! 0)
    = Some (Some (u "x = 1")).
Proof. vm_compute. repeat split. Qed.

(** C1 (amended): in every state reached by requests and resumed
    coroutines, whatever the standard output does, a session whose flag is
    set holds a solution; when no feedback request is sent for a session
    while an earlier one for it is unanswered, the flag is set exactly when
    the session holds a solution, and it is set in the status
    waiting_for_approval.
    The flag is cleared by the transition to completed only: a step that
    moves a session to researching, solving, improving or error leaves the
    flag as it was, or, to error, has set it (the pipeline stored its
    solution and could not print its last log line); and a step to
    waiting_for_approval sets it or leaves it. *)
Theorem C1_flag_tracks_solution `{UnicodeData} (out : stdout) (lbls : list label) :
  (forall l s, heap (run out lbls server_init) !! l = Some s ->
     waiting_for_approval s = true -> current_solution s <> None) /\
  (orderly out lbls server_init = true ->
   forall l s, heap (run out lbls server_init) !! l = Some s ->
     (waiting_for_approval s = true <-> current_solution s <> None) /\
     (sess_status s = WaitingForApproval -> waiting_for_approval s = true)) /\
  (forall lbl l s s',
     heap (run out lbls server_init) !! l = Some s ->
     heap (do_step out lbl (run out lbls server_init)) !! l = Some s' ->
     status_flag_step s s').
Proof.
  split; [|split].
  - intros l s Hs. exact (run_flag_has_solution out lbls l s Hs).
  - intros Hord l s Hs.
    destruct (run_flag_iff_solution out lbls server_init Hord) as [Hall _].
    { split; [apply heap_all_init | apply pending_flagged_init]. }
    split; [exact (Hall l s Hs)|].
    intros Hst. apply (waiting_flag out lbls l s Hs). right. auto.
  - intros lbl l s s' Hs Hs'. exact (do_step_status_flag out lbl _ l s s' Hs Hs').
Qed.

Lemma C1_flag_tracks_solution_witness :
  orderly stdout_ok (demo_labels ++ [LHumanInput demo_feedback]) server_init = true /\
  exists s,
    heap (run stdout_ok (demo_labels ++ [LHumanInput demo_feedback]) server_init) !! 0
      = Some s /\
    sess_status s = Improving /\
    (waiting_for_approval s = true <-> current_solution s <> None).
Proof.
  assert (Hord : orderly stdout_ok (demo_labels ++ [LHumanInput demo_feedback]) server_init
                 = true)
    by (vm_compute; reflexivity).
  split; [exact Hord|].
  destruct (heap (run stdout_ok (demo_labels ++ [LHumanInput demo_feedback]) server_init) !! 0)
    as [s|] eqn:Hs; [|vm_compute in Hs; discriminate].
  exists s. split; [reflexivity|].
  split; [vm_compute in Hs; injection Hs as <-; reflexivity|].
  destruct (C1_flag_tracks_solution stdout_ok (demo_labels ++ [LHumanInput demo_feedback]))
    as (_ & Hiff & _).
  exact (proj1 (Hiff Hord 0 s Hs)).
Defined.

(** An unprintable feedback: "approve" followed by a lone surrogate. *)
Example feedback_line_unprintable :
  svc_print (svc_utf8 [])
    (length (log demo_waiting))
    (feedback_line {| hi_session_id := demo_id; feedback := u "approve" ++ [56448%N] |})
  = PrintValueError (u "'utf-8' codec can't encode character: surrogates not allowed").
Proof. vm_compute. reflexivity. Qed.

(** C4, as stated, fails twice.  After overlapped feedback a session has
    the status waiting_for_approval without the flag, and its approval is
    refused with 400.  And the first statement of the [try] block prints
    the feedback: when the standard output cannot encode it, the approval
    of a session that awaits it is answered with 500, the status becomes
    error, and the solution and the flag stay. *)
Lemma C4_approval_refused_or_failed :
  (sess_status <$> heap demo_overlapped !! 0) = Some WaitingForApproval /\
  human_input svc_down {| hi_session_id := demo_id; feedback := u "approve" |}
      demo_overlapped
    = (HTTPException 400 (u "Session is not waiting for feedback"), demo_overlapped) /\
  is_approval (u "approve" ++ [56448%N]) = true /\
  exists e st',
    human_input (svc_utf8 []) {| hi_session_id := demo_id; feedback := u "approve" ++ [56448%N] |}
      demo_waiting = (HTTPException 500 e, st') /\
    (sess_status <$> heap st' !! 0) = Some Error /\
    (current_solution <$> heap st' !! 0) = Some (Some (u "x = 1")) /\
    (waiting_for_approval <$> heap st' !! 0) = Some true.
Proof.
  split; [vm_compute; reflexivity|]. split; [vm_compute; reflexivity|].
  split; [vm_compute; reflexivity|].
  eexists _, _. split; [vm_compute; reflexivity|]. vm_compute. repeat split.
Qed.

(** C4 (amended): for a session whose flag is set, which is the case of
    every session with the status waiting_for_approval when feedback was
    not overlapped, feedback whose stripped, lowercased text contains one
    of approve, approved, yes, ok, correct, good, looks good finalizes the
    session when the log line of the request is printed: the answer is a
    success, the status is completed, the current solution is None, the
    flag is cleared, and after the feedback itself a final assistant
    message with the approved solution is appended.  Nothing is left
    pending. *)
Theorem C4_approval_finalizes `{UnicodeData} (svc : services) (out : stdout)
    (lbls : list label) (req : HumanInputRequest) (l : loc) (s : session) :
  sessions (run out lbls server_init) !! hi_session_id req = Some l ->
  heap (run out lbls server_init) !! l = Some s ->
  waiting_for_approval s = true \/
  (sess_status s = WaitingForApproval /\ orderly out lbls server_init = true) ->
  (exists w, In w APPROVAL_WORDS /\
             py_in w (str_lower (strip (feedback req))) = true) ->
  svc_print svc (length (log (run out lbls server_init))) (feedback_line req) = Printed ->
  exists st',
    human_input svc req (run out lbls server_init) = (HttpOk success, st') /\
    heap st' !! l = Some
      {| agent := agent s;
         sess_status := Completed;
         messages := messages s ++
           [{| role := user; content := feedback req |};
            {| role := assistant;
               content := approved_response (current_solution s) |}];
         waiting_for_approval := false;
         current_solution := None;
         current_topic := current_topic s;
         research_context := research_context s |} /\
    sessions st' = sessions (run out lbls server_init) /\
    tasks st' = tasks (run out lbls server_init).
Proof.
  intros Hl Hs Hwait Happ Hp. apply is_approval_iff in Happ.
  pose proof (waiting_flag out lbls l s Hs Hwait) as Hw.
  destruct (approval_finalizes svc req _ l s Hl Hs Hw Hp Happ)
    as (st' & Hi & _ & Hh & Hsess & Htasks & _).
  exists st'. auto.
Qed.

Lemma C4_approval_finalizes_witness :
  (sess_status demo_session = WaitingForApproval /\
   orderly stdout_ok demo_labels server_init = true) /\
  exists st',
    human_input svc_down {| hi_session_id := demo_id; feedback := u " Looks GOOD to me " |}
      demo_waiting = (HttpOk success, st') /\
    (sess_status <$> heap st' !! 0) = Some Completed /\
    (current_solution <$> heap st' !! 0) = Some None /\
    (waiting_for_approval <$> heap st' !! 0) = Some false.
Proof.
  assert (Hwait : sess_status demo_session = WaitingForApproval /\
                  orderly stdout_ok demo_labels server_init = true).
  { split; [reflexivity | vm_compute; reflexivity]. }
  split; [exact Hwait|].
  destruct (C4_approval_finalizes svc_down stdout_ok demo_labels
              {| hi_session_id := demo_id; feedback := u " Looks GOOD to me " |}
              0 demo_session
              (proj1 demo_waiting_session) (proj2 demo_waiting_session)
              (or_intror Hwait))
    as (st' & Hi & Hh & _).
  { exists (u "good"). split; [|vm_compute; reflexivity].
    apply in_map. simpl. tauto. }
  { reflexivity. }
  exists st'. split; [exact Hi|]. rewrite Hh. repeat split.
Defined.





(** Overlapped feedback is where the flag and the solution part: the
    approval clears both, and the revision that arrives afterwards stores
    its solution and the status waiting_for_approval without the flag. *)
Example overlapped_feedback_parts_flag_and_solution :
  orderly stdout_ok [LHumanInput {| hi_session_id := demo_id; feedback := u "approve" |}]
          demo_improving = false /\
  (sess_status <$> heap demo_overlapped !! 0) = Some WaitingForApproval /\
  (waiting_for_approval <$> heap demo_overlapped !! 0) = Some false /\
  (current_solution <$> heap demo_overlapped !! 0) = Some (Some (u "x = 2 - 1 = 1")).
Proof. vm_compute. repeat split. Qed.

(** ** The ingestion script *)

Lemma range_loop_concat {A} (l : list A) (step fuel i : nat) :
  1 <= step -> length l - i <= fuel ->
  concat (map (fun k => py_slice l k (k + step)) (range_loop fuel i (length l) step))
  = drop i l.
Proof.
  intros Hstep. revert i. induction fuel as [|fuel IH]; intros i Hfuel; simpl.
  - symmetry. apply drop_ge. lia.
  - destruct (Nat.ltb_spec i (length l)) as [Hlt | Hge]; simpl.
    + rewrite IH by lia. unfold py_slice.
      replace (i + step - i) with step by lia.
      rewrite <- (drop_drop l step i). apply take_drop.
    + symmetry. apply drop_ge. lia.
Qed.

Lemma range_loop_bound (fuel i stop step k : nat) :
  In k (range_loop fuel i stop step) -> i <= k < stop.
Proof.
  revert i. induction fuel as [|fuel IH]; intros i; simpl; [contradiction|].
  destruct (Nat.ltb_spec i stop) as [Hlt | Hge]; simpl; [|contradiction].
  intros [<- | Hin]; [lia|]. apply IH in Hin. lia.
Qed.

Lemma range_loop_length (fuel i stop step : nat) :
  1 <= step -> stop - i <= fuel ->
  length (range_loop fuel i stop step) = (stop - i + (step - 1)) / step.
Proof.
  intros Hstep. revert i. induction fuel as [|fuel IH]; intros i Hfuel; simpl.
  - replace (stop - i) with 0 by lia. simpl.
    symmetry. apply Nat.div_small. lia.
  - destruct (Nat.ltb_spec i stop) as [Hlt | Hge]; simpl.
    + rewrite IH by lia.
      destruct (Nat.le_gt_cases step (stop - i)) as [Hbig | Hsmall].
      * replace (stop - i + (step - 1)) with (stop - (i + step) + (step - 1) + 1 * step)
          by lia.
        rewrite Nat.div_add by lia. lia.
      * replace (stop - (i + step)) with 0 by lia. simpl.
        rewrite (Nat.div_small (step - 1) step) by lia.
        apply (Nat.div_unique _ _ 1 (stop - i - 1)); lia.
    + replace (stop - i) with 0 by lia. simpl.
      symmetry. apply Nat.div_small. lia.
Qed.

(** The batches, in order, are the records; none is empty and none holds
    more than 80. *)
Lemma record_batches_spec (records : list json) :
  concat (record_batches records) = records /\
  Forall (fun b => 1 <= length b <= 80) (record_batches records) /\
  length (record_batches records) = (length records + 79) / 80.
Proof.
  unfold record_batches, py_range. split; [|split].
  - rewrite range_loop_concat by lia. reflexivity.
  - apply Forall_forall. intros b Hb. apply list_elem_of_In, in_map_iff in Hb.
    destruct Hb as (i & <- & Hi). apply range_loop_bound in Hi.
    unfold py_slice. rewrite length_take, length_drop. lia.
  - rewrite length_map, range_loop_length by lia.
    f_equal. lia.
Qed.

Section DbFacts.
Context (db : db_services).

(** Whatever happens, what [upsert_batches] has sent is a prefix of the
    batches it was given; it is all of them exactly when it returns. *)
Lemma upsert_batches_prefix (records : list json) (bs : nat) (ns : pystr)
    (starts : list nat) (s s' : db_state) (r : outcome unit) :
  upsert_batches db records bs ns starts s = (r, s') ->
  exists k,
    k <= length starts /\
    upserted s' =
      upserted s ++ map (fun i => (py_slice records i (i + bs), ns)) (take k starts) /\
    uuids_drawn s' = uuids_drawn s /\
    (r = Ok tt <-> k = length starts).
Proof.
  revert s. induction starts as [|i starts IH]; intros s; simpl.
  - unfold ret. intros Heq. injection Heq as <- <-.
    exists 0. simpl. rewrite app_nil_r.
    split; [lia|]. split; [reflexivity|]. split; [reflexivity|]. split; auto.
  - unfold bind, upsert.
    destruct (db_upsert db (length (upserted s)) (py_slice records i (i + bs)) ns)
      as [[]|e].
    + intros Heq. destruct (IH _ Heq) as (k & Hk & Hup & Hud & Hok).
      exists (S k). simpl in *. split; [lia|]. split; [|split; [exact Hud|]].
      * rewrite Hup, <- app_assoc. reflexivity.
      * rewrite Hok. lia.
    + intros Heq. injection Heq as <- <-.
      exists 0. simpl. rewrite app_nil_r. split; [lia|]. split; [reflexivity|].
      split; [reflexivity|]. split; [discriminate | lia].
Qed.

(** What [add_db_records] sends is, in order, a prefix of the batches of
    the records, each under the namespace the retriever queries. *)
Lemma add_db_records_prefix (records : list json) (s s' : db_state)
    (r : outcome unit) :
  add_db_records db records s = (r, s') ->
  exists k,
    k <= length (record_batches records) /\
    upserted s' =
      upserted s ++ map (fun b => (b, u "engg-math-1")) (take k (record_batches records)) /\
    uuids_drawn s' = uuids_drawn s /\
    (r = Ok tt -> k = length (record_batches records)).
Proof.
  unfold add_db_records, bind, lift_db.
  destruct (db_Pinecone db (db_getenv db (u "PINECONE_API_KEY"))) as [[]|e];
    [destruct (db_Index db (u "math-docs")) as [[]|e]|].
  - intros Heq. apply upsert_batches_prefix in Heq.
    destruct Heq as (k & Hk & Hup & Hud & Hok).
    exists k. unfold record_batches. rewrite length_map.
    split; [exact Hk|]. split; [|split; [exact Hud | apply Hok]].
    rewrite Hup. f_equal. rewrite firstn_map, map_map. reflexivity.
  - intros Heq. injection Heq as <- <-. exists 0. simpl. rewrite app_nil_r.
    split; [lia|]. split; [reflexivity|]. split; [reflexivity | discriminate].
  - intros Heq. injection Heq as <- <-. exists 0. simpl. rewrite app_nil_r.
    split; [lia|]. split; [reflexivity|]. split; [reflexivity | discriminate].
Qed.

Lemma encode_chunks_upserted (i : nat) (chunks : list pystr) (s : db_state) :
  upserted (snd (encode_chunks db i chunks s)) = upserted s.
Proof.
  revert i s. induction chunks as [|text chunks IH]; intros i s; simpl; [reflexivity|].
  unfold bind at 1, lift_db. destruct (db_encode db text) as [v|e]; [|reflexivity].
  unfold bind at 1, uuid4. unfold bind at 1.
  match goal with |- context [encode_chunks db (S i) chunks ?s1] =>
    specialize (IH (S i) s1); destruct (encode_chunks db (S i) chunks s1) as [[rs|e] s2]
  end; simpl in *; exact IH.
Qed.

Lemma encode_chunks_ok (i : nat) (chunks : list pystr) (s s' : db_state)
    (records : list json) :
  encode_chunks db i chunks s = (Ok records, s') ->
  length records = length chunks /\
  uuids_drawn s' = uuids_drawn s + length chunks /\
  (forall k text, chunks !! k = Some text ->
     exists v, db_encode db text = Ok v /\
       records !! k = Some
         (make_record (u "chunk-" ++ str_of_nat (i + k) ++ u "-"
                         ++ db_uuid4 db (uuids_drawn s + k)) v text)).
Proof.
  revert i s s' records. induction chunks as [|text chunks IH];
    intros i s s' records; simpl.
  - unfold ret. intros Heq. injection Heq as <- <-.
    split; [reflexivity|]. split; [lia|]. intros k t Hk. discriminate.
  - unfold bind at 1, lift_db. destruct (db_encode db text) as [v|e] eqn:Ev; [|discriminate].
    unfold bind at 1, uuid4. unfold bind at 1.
    match goal with |- context [encode_chunks db (S i) chunks ?s1] =>
      destruct (encode_chunks db (S i) chunks s1) as [[rs|e] s2] eqn:Er
    end; [|discriminate].
    unfold ret. intros Heq. injection Heq as <- <-.
    destruct (IH _ _ _ _ Er) as (Hlen & Hud & Hrec). simpl in Hud.
    split; [simpl; lia|]. split; [lia|].
    intros [|k] t Hk; simpl in Hk.
    + injection Hk as <-. exists v. split; [exact Ev|].
      simpl. rewrite !Nat.add_0_r. reflexivity.
    + destruct (Hrec k t Hk) as (v' & Hv' & Hr). exists v'. split; [exact Hv'|].
      simpl. rewrite Hr. simpl.
      replace (i + S k) with (S (i + k)) by lia.
      replace (uuids_drawn s + S k) with (S (uuids_drawn s + k)) by lia. reflexivity.
Qed.

Lemma encode_chunks_raises (i : nat) (chunks : list pystr) (s : db_state)
    (text e : pystr) :
  In text chunks -> db_encode db text = Raise e ->
  exists e', fst (encode_chunks db i chunks s) = Raise e'.
Proof.
  intros Hin He. revert i s. induction chunks as [|t chunks IH]; intros i s;
    [contradiction|]. simpl.
  unfold bind at 1, lift_db. destruct (db_encode db t) as [v|e0] eqn:Ev.
  - destruct Hin as [-> | Hin]; [congruence|].
    unfold bind at 1, uuid4. unfold bind at 1.
    match goal with |- context [encode_chunks db (S i) chunks ?s1] =>
      destruct (IH Hin (S i) s1) as [e' He'];
      destruct (encode_chunks db (S i) chunks s1) as [[rs|e1] s2]
    end; [discriminate|]. exists e1. reflexivity.
  - exists e0. reflexivity.
Qed.

End DbFacts.

Lemma u_inj (a b : string) : u a = u b -> a = b.
Proof.
  revert b. induction a as [|x a IH]; intros [|y b]; simpl; try discriminate.
  - reflexivity.
  - intros Heq. injection Heq as Hxy Hab.
    f_equal; [|exact (IH b Hab)].
    rewrite <- (ascii_N_embedding x), <- (ascii_N_embedding y), Hxy. reflexivity.
Qed.

(** Identifiers of chunks of different indices differ, whatever the
    generated parts, as long as those have one length. *)
Lemma chunk_id_inj (a b : nat) (x y : pystr) :
  length x = length y ->
  u "chunk-" ++ str_of_nat a ++ u "-" ++ x = u "chunk-" ++ str_of_nat b ++ u "-" ++ y ->
  a = b.
Proof.
  intros Hlen Heq. apply app_inv_head in Heq.
  assert (Hl : length (str_of_nat a) = length (str_of_nat b)).
  { apply (f_equal (@length N)) in Heq. rewrite !length_app in Heq. simpl in Heq. lia. }
  apply app_inj_1 in Heq; [|exact Hl]. destruct Heq as [Heq _].
  unfold str_of_nat in Heq. apply u_inj in Heq.
  exact (inj pretty a b Heq).
Qed.

Lemma text_of_record (id : pystr) (v : json) (text : pystr) :
  text_of (make_record id v text) tt = (Ok (JStr text), tt).
Proof. reflexivity. Qed.

Lemma record_id_record (id : pystr) (v : json) (text : pystr) :
  record_id (make_record id v text) = Ok (JStr id).
Proof. reflexivity. Qed.

(** X1 (add_db_records): when the upload returns, the batches it sent,
    put end to end in the order sent, are exactly the records: none is
    lost, repeated or moved.  Each batch holds between 1 and 80 records,
    goes to the namespace engg-math-1, and there are as many calls as the
    number of records divided by 80, rounded up. *)
Theorem X1_upload_sends_every_record_once (db : db_services)
    (records : list json) (s s' : db_state) :
  add_db_records db records s = (Ok tt, s') ->
  exists batches,
    upserted s' = upserted s ++ map (fun b => (b, u "engg-math-1")) batches /\
    concat batches = records /\
    Forall (fun b => 1 <= length b <= 80) batches /\
    length batches = (length records + 79) / 80.
Proof.
  intros Hadd. destruct (add_db_records_prefix db records s s' (Ok tt) Hadd)
    as (k & Hk & Hup & _ & Hall).
  destruct (record_batches_spec records) as (Hcat & Hlen & Hnum).
  exists (record_batches records).
  rewrite (Hall eq_refl), firstn_all in Hup. auto.
Qed.

Lemma X1_upload_sends_every_record_once_witness :
  exists s' batches,
    add_db_records db_ok many_records db_init = (Ok tt, s') /\
    upserted s' = map (fun b => (b, u "engg-math-1")) batches /\
    concat batches = many_records /\
    length batches = 3.
Proof.
  destruct (add_db_records db_ok many_records db_init) as [r s'] eqn:Hadd.
  assert (Hr : r = Ok tt).
  { apply (f_equal fst) in Hadd. simpl in Hadd. rewrite <- Hadd.
    vm_compute. reflexivity. }
  subst r.
  destruct (X1_upload_sends_every_record_once db_ok many_records db_init s' Hadd)
    as (batches & Hup & Hcat & _ & Hnum).
  exists s', batches. split; [reflexivity|]. split; [exact Hup|].
  split; [exact Hcat | exact Hnum].
Defined.

(** X2 (add_db_records): when the upload raises (nothing in it catches),
    the index has received an initial part of the records, in order and in
    whole batches: the records are what was sent followed by what was
    not, and nothing was sent after the failure. *)
Theorem X2_failed_upload_sent_a_prefix (db : db_services)
    (records : list json) (s s' : db_state) (e : pystr) :
  add_db_records db records s = (Raise e, s') ->
  exists sent rest,
    upserted s' = upserted s ++ map (fun b => (b, u "engg-math-1")) sent /\
    records = concat sent ++ rest /\
    Forall (fun b => 1 <= length b <= 80) sent.
Proof.
  intros Hadd. destruct (add_db_records_prefix db records s s' (Raise e) Hadd)
    as (k & Hk & Hup & _ & _).
  destruct (record_batches_spec records) as (Hcat & Hlen & _).
  exists (take k (record_batches records)), (concat (drop k (record_batches records))).
  split; [exact Hup|]. split.
  - rewrite <- concat_app, take_drop. symmetry. exact Hcat.
  - apply Forall_take. exact Hlen.
Qed.

Lemma X2_failed_upload_sent_a_prefix_witness :
  exists s' sent rest,
    add_db_records db_third_fails many_records db_init = (Raise (u "503"), s') /\
    upserted s' = map (fun b => (b, u "engg-math-1")) sent /\
    many_records = concat sent ++ rest.
Proof.
  destruct (add_db_records db_third_fails many_records db_init) as [r s'] eqn:Hadd.
  assert (Hr : r = Raise (u "503")).
  { apply (f_equal fst) in Hadd. simpl in Hadd. rewrite <- Hadd.
    vm_compute. reflexivity. }
  subst r.
  destruct (X2_failed_upload_sent_a_prefix db_third_fails many_records db_init s' _ Hadd)
    as (sent & rest & Hup & Hrec & _).
  exists s', sent, rest. split; [reflexivity|]. split; [exact Hup | exact Hrec].
Defined.

(** X3 (encode_db): when the encoding returns, there is one record per
    chunk, in the order of the chunks; the record of a chunk carries the
    embedding of its text and, under metadata.text, the text itself, which
    is what the retriever reads back.  When the generated identifiers have
    one length, the ids of the records are pairwise different, even if
    the generator repeats itself.  Nothing is sent to the index. *)
Theorem X3_one_record_per_chunk (db : db_services) (path : pystr)
    (s s' : db_state) (records : list json) :
  (forall a b, length (db_uuid4 db a) = length (db_uuid4 db b)) ->
  encode_db db path s = (Ok records, s') ->
  exists chunks,
    db_chunks db path = Ok chunks /\
    length records = length chunks /\
    (forall k text, chunks !! k = Some text ->
       exists r, records !! k = Some r /\
         text_of r tt = (Ok (JStr text), tt) /\
         subscript r (KStr (u "values")) = db_encode db text) /\
    NoDup (map record_id records) /\
    upserted s' = upserted s.
Proof.
  intros Hlen Henc. unfold encode_db in Henc. unfold bind at 1, lift_db in Henc.
  destruct (db_chunks db path) as [chunks|e] eqn:Ec; [|discriminate].
  pose proof (encode_chunks_upserted db 0 chunks s) as Hup. rewrite Henc in Hup.
  destruct (encode_chunks_ok db 0 chunks s s' records Henc) as (Hn & _ & Hrec).
  exists chunks. split; [reflexivity|]. split; [exact Hn|].
  split; [|split; [|exact Hup]].
  - intros k text Hk. destruct (Hrec k text Hk) as (v & Hv & Hr).
    eexists. split; [exact Hr|]. split; [reflexivity|]. rewrite Hv. reflexivity.
  - apply NoDup_alt. intros i j x Hi Hj.
    rewrite list_lookup_fmap in Hi, Hj.
    destruct (records !! i) as [ri|] eqn:Eri; [|discriminate].
    destruct (records !! j) as [rj|] eqn:Erj; [|discriminate].
    simpl in Hi, Hj.
    destruct (lookup_lt_is_Some_2 chunks i) as [ti Hti];
      [rewrite <- Hn; apply (lookup_lt_Some _ _ _ Eri)|].
    destruct (lookup_lt_is_Some_2 chunks j) as [tj Htj];
      [rewrite <- Hn; apply (lookup_lt_Some _ _ _ Erj)|].
    destruct (Hrec i ti Hti) as (vi & _ & Hri).
    destruct (Hrec j tj Htj) as (vj & _ & Hrj).
    rewrite Eri in Hri. apply (inj Some) in Hri. subst ri.
    rewrite Erj in Hrj. apply (inj Some) in Hrj. subst rj.
    rewrite record_id_record in Hi, Hj.
    assert (Heq : u "chunk-" ++ str_of_nat (0 + i) ++ u "-"
                    ++ db_uuid4 db (uuids_drawn s + i)
                  = u "chunk-" ++ str_of_nat (0 + j) ++ u "-"
                    ++ db_uuid4 db (uuids_drawn s + j)) by congruence.
    apply chunk_id_inj in Heq; [lia | apply Hlen].
Qed.

Lemma X3_one_record_per_chunk_witness :
  exists records s',
    encode_db db_ok (u "data/mathbook.pdf") db_init = (Ok records, s') /\
    length records = 3 /\
    NoDup (map record_id records).
Proof.
  destruct (encode_db db_ok (u "data/mathbook.pdf") db_init) as [r s'] eqn:Henc.
  destruct r as [records|e];
    [|apply (f_equal fst) in Henc; vm_compute in Henc; discriminate].
  destruct (X3_one_record_per_chunk db_ok (u "data/mathbook.pdf") db_init s' records)
    as (chunks & Hc & Hn & _ & Hnd & _).
  - intros a b. unfold db_ok, db_uuid4. rewrite !length_app.
    f_equal. unfold str_of_nat.
    assert (Hd : forall n, n < 10 -> length (u (pretty n)) = 1).
    { intros n Hn. do 10 (destruct n as [|n]; [reflexivity|]). lia. }
    rewrite !Hd by (apply Nat.mod_upper_bound; lia). reflexivity.
  - exact Henc.
  - exists records, s'. split; [reflexivity|]. split; [|exact Hnd].
    rewrite Hn. simpl in Hc. injection Hc as <-. reflexivity.
Defined.

(** X4 (module body of db_setup.py): the upload starts only when every
    chunk has been embedded.  If the model fails on any chunk of the file,
    the script raises and the index has received nothing. *)
Theorem X4_nothing_uploaded_unless_all_embedded (db : db_services)
    (path : pystr) (s : db_state) (chunks : list pystr) (text e : pystr) :
  db_chunks db path = Ok chunks ->
  In text chunks ->
  db_encode db text = Raise e ->
  exists e',
    fst (ingest db path s) = Raise e' /\
    upserted (snd (ingest db path s)) = upserted s.
Proof.
  intros Hc Hin He.
  assert (Henc : encode_db db path s = encode_chunks db 0 chunks s).
  { unfold encode_db, bind, lift_db. rewrite Hc. reflexivity. }
  unfold ingest, bind. rewrite Henc.
  pose proof (encode_chunks_upserted db 0 chunks s) as Hup.
  destruct (encode_chunks_raises db 0 chunks s text e Hin He) as [e' He'].
  destruct (encode_chunks db 0 chunks s) as [[rs|e0] s1]; [discriminate|].
  exists e0. split; [reflexivity | exact Hup].
Qed.

Lemma X4_nothing_uploaded_unless_all_embedded_witness :
  exists e',
    fst (ingest db_encode_fails (u "data/mathbook.pdf") db_init) = Raise e' /\
    upserted (snd (ingest db_encode_fails (u "data/mathbook.pdf") db_init)) = [].
Proof.
  apply (X4_nothing_uploaded_unless_all_embedded db_encode_fails
           (u "data/mathbook.pdf") db_init
           [u "chain rule"; u "product rule"; u "quotient rule"]
           (u "product rule") (u "out of memory")).
  - reflexivity.
  - simpl. tauto.
  - reflexivity.
Defined.

Lemma text_of_match (r m : json) : match_of r m -> text_of m tt = text_of r tt.
Proof. unfold match_of, text_of, bind, lift. intros ->. reflexivity. Qed.

Lemma mapM_texts (chunks : list pystr) (ms : list json) :
  Forall (fun m => exists t, In t chunks /\ text_of m tt = (Ok (JStr t), tt)) ms ->
  exists texts,
    mapM text_of ms tt = (Ok (map JStr texts), tt) /\
    length texts = length ms /\
    Forall (fun t => In t chunks) texts.
Proof.
  induction 1 as [|m ms (t & Ht & Hm) _ (texts & Hmap & Hlen & Hin)].
  - exists []. simpl. auto.
  - exists (t :: texts). simpl. unfold bind at 1. rewrite Hm.
    unfold bind at 1. rewrite Hmap. unfold ret. simpl.
    split; [reflexivity|]. split; [lia|]. constructor; assumption.
Qed.

Lemma retrieve_of_matches (kb : kb_services) (query : pystr) (v r : json)
    (ms : list json) :
  fst (get_embeddings kb query tt) = Ok v ->
  fst (get_pinecone_index kb tt) = Ok tt ->
  kb_query kb (u "engg-math-1") v 3 true = Ok r ->
  subscript r (KStr (u "matches")) = Ok (JList ms) ->
  retrieve_body kb query tt = mapM text_of ms tt.
Proof.
  intros Hv Hi Hq Hm. unfold retrieve_body. unfold bind at 1.
  destruct (get_embeddings kb query tt) as [[v0|e0] []]; [|discriminate].
  simpl in Hv. injection Hv as ->.
  unfold bind at 1.
  destruct (get_pinecone_index kb tt) as [[[]|e1] []]; [|discriminate].
  unfold bind at 1, lift at 1. rewrite Hq.
  unfold bind at 1, lift at 1. rewrite Hm.
  unfold bind at 1, lift at 1. reflexivity.
Qed.

(** X5 (encode_db with retrieve_data_from_db): the round trip of a text
    through the index.  When the index answers a query with matches that
    carry the metadata of ingested records, the retriever returns one
    snippet per match, and each snippet is the text of a chunk of the
    ingested file. *)
Theorem X5_ingested_text_is_retrieved (db : db_services) (kb : kb_services)
    (path : pystr) (s s' : db_state) (records : list json)
    (query : pystr) (v r : json) (ms : list json) :
  encode_db db path s = (Ok records, s') ->
  fst (get_embeddings kb query tt) = Ok v ->
  fst (get_pinecone_index kb tt) = Ok tt ->
  kb_query kb (u "engg-math-1") v 3 true = Ok r ->
  subscript r (KStr (u "matches")) = Ok (JList ms) ->
  Forall (fun m => exists rec, In rec records /\ match_of rec m) ms ->
  exists chunks texts,
    db_chunks db path = Ok chunks /\
    retrieve_data_from_db kb query tt = (Ok (map JStr texts), tt) /\
    length texts = length ms /\
    Forall (fun t => In t chunks) texts.
Proof.
  intros Henc Hv Hi Hq Hm Hms.
  unfold encode_db in Henc. unfold bind at 1, lift_db in Henc.
  destruct (db_chunks db path) as [chunks|e] eqn:Ec; [|discriminate].
  destruct (encode_chunks_ok db 0 chunks s s' records Henc) as (Hn & _ & Hrec).
  assert (Htexts : Forall (fun m => exists t, In t chunks /\
                                      text_of m tt = (Ok (JStr t), tt)) ms).
  { eapply Forall_impl; [exact Hms|]. intros m (rec & Hin & Hmatch).
    apply list_elem_of_In, list_elem_of_lookup in Hin. destruct Hin as [k Hk].
    destruct (lookup_lt_is_Some_2 chunks k) as [t Ht];
      [rewrite <- Hn; apply (lookup_lt_Some _ _ _ Hk)|].
    destruct (Hrec k t Ht) as (v' & _ & Hr).
    rewrite Hk in Hr. apply (inj Some) in Hr. subst rec.
    exists t. split; [apply list_elem_of_In, (list_elem_of_lookup_2 _ _ _ Ht)|].
    rewrite (text_of_match _ m Hmatch). apply text_of_record. }
  destruct (mapM_texts chunks ms Htexts) as (texts & Hmap & Hlen & Hin).
  exists chunks, texts. split; [reflexivity|]. split; [|auto].
  unfold retrieve_data_from_db, try_except.
  rewrite (retrieve_of_matches kb query v r ms Hv Hi Hq Hm), Hmap. reflexivity.
Qed.

Lemma X5_ingested_text_is_retrieved_witness :
  exists chunks texts,
    db_chunks db_ok (u "data/mathbook.pdf") = Ok chunks /\
    retrieve_data_from_db kb_demo (u "derivative of a product") tt
      = (Ok (map JStr texts), tt) /\
    length texts = 2 /\
    Forall (fun t => In t chunks) texts.
Proof.
  destruct (encode_db db_ok (u "data/mathbook.pdf") db_init) as [r s'] eqn:Henc.
  destruct r as [records|e];
    [|apply (f_equal fst) in Henc; vm_compute in Henc; discriminate].
  assert (Hrecords : fst (encode_db db_ok (u "data/mathbook.pdf") db_init) = Ok records)
    by (rewrite Henc; reflexivity).
  vm_compute in Hrecords. injection Hrecords as Hrecords.
  apply (X5_ingested_text_is_retrieved db_ok kb_demo (u "data/mathbook.pdf")
           db_init s' records (u "derivative of a product")
           (JList [JNum (u "0.1"); JNum (u "0.2")]) two_matches
           [JDict [(u "id", JStr (u "a")); (u "metadata", JDict [(u "text", JStr (u "chain rule"))])];
            JDict [(u "id", JStr (u "b")); (u "metadata", JDict [(u "text", JStr (u "product rule"))])]]
           Henc); try reflexivity.
  subst records. repeat constructor.
  - eexists. split; [left; reflexivity | reflexivity].
  - eexists. split; [right; left; reflexivity | reflexivity].
Defined.

(** ** The agent object and its stages, beyond the guard *)

Section StageFacts.
Context `{UnicodeData} (svc : services).

Lemma keeps_ret {A} (a : A) : keeps_initialized (ret (S := ctx) a).
Proof. intros c. reflexivity. Qed.

Lemma keeps_call {A} (ev : event) (reply : nat -> outcome A) :
  keeps_initialized (call ev reply).
Proof. intros c. reflexivity. Qed.

Lemma keeps_set_self (f : MathematicalAgent -> MathematicalAgent) :
  (forall s, tools_initialized (f s) = tools_initialized s) ->
  keeps_initialized (set_self f).
Proof. intros Hf c. simpl. apply Hf. Qed.

Lemma keeps_bind {A B} (m : M ctx A) (k : A -> M ctx B) :
  keeps_initialized m -> (forall a, keeps_initialized (k a)) ->
  keeps_initialized (bind m k).
Proof.
  intros Hm Hk c. unfold bind. specialize (Hm c).
  destruct (m c) as [[a|e] c1]; simpl in *; [|exact Hm].
  rewrite (Hk a c1). exact Hm.
Qed.

Lemma keeps_try {A} (m : M ctx A) (h : pystr -> M ctx A) :
  keeps_initialized m -> (forall e, keeps_initialized (h e)) ->
  keeps_initialized (try_except m h).
Proof.
  intros Hm Hh c. unfold try_except. specialize (Hm c).
  destruct (m c) as [[a|e] c1]; simpl in *; [exact Hm|].
  rewrite (Hh e c1). exact Hm.
Qed.

Ltac keeps_tac :=
  unfold get_mcp_tools, FunctionAgent, py_print;
  repeat first
    [ progress cbv zeta
    | progress intros
    | apply keeps_ret | apply keeps_call
    | apply keeps_set_self; intros; reflexivity
    | apply keeps_bind | apply keeps_try ].

(** On an initialized object the set-up does nothing. *)
Lemma create_agents_initialized (c : ctx) :
  tools_initialized (self c) = true -> _create_agents svc c = (Ok tt, c).
Proof. intros Hinit. unfold _create_agents, bind, get. rewrite Hinit. reflexivity. Qed.

(** A set-up that returns leaves the object initialized; one that raises
    leaves it not initialized. *)
Lemma create_agents_outcome (c c1 : ctx) (r : outcome unit) :
  _create_agents svc c = (r, c1) ->
  match r with
  | Ok _ => tools_initialized (self c1) = true
  | Raise _ => tools_initialized (self c1) = false
  end.
Proof.
  unfold _create_agents. unfold bind at 1, get.
  destruct (tools_initialized (self c)) eqn:Hinit.
  - unfold ret. intros Heq. injection Heq as <- <-. exact Hinit.
  - lazymatch goal with |- bind ?T1 (fun _ => bind ?T2 _) c = _ -> _ =>
      assert (K1 : keeps_initialized T1) by keeps_tac;
      assert (K2 : keeps_initialized T2) by keeps_tac;
      specialize (K1 c); unfold bind at 1;
      destruct (T1 c) as [[[]|e1] c2]; simpl in K1
    end.
    + lazymatch goal with |- bind ?T2 _ c2 = _ -> _ =>
        specialize (K2 c2); unfold bind at 1;
        destruct (T2 c2) as [[[]|e2] c3]; simpl in K2
      end.
      * simpl. intros Heq. injection Heq as <- <-. reflexivity.
      * intros Heq. injection Heq as <- <-. congruence.
    + intros Heq. injection Heq as <- <-. congruence.
Qed.

(** The first set-up, with a standard output that accepts its lines. *)
Lemma create_agents_first (c : ctx) :
  tools_initialized (self c) = false ->
  prints_ok (svc_print svc) ->
  exists c1,
    _create_agents svc c = (Ok tt, c1) /\
    remote_calls (trace c1) =
      remote_calls (trace c) ++ [EvLoadTools; EvNewAgent (u "MathResearchAgent");
                                 EvNewAgent (u "MathSolverAgent")].
Proof.
  intros Hinit Hp. unfold _create_agents. unfold bind at 1, get. rewrite Hinit.
  unfold try_except, get_mcp_tools, FunctionAgent, py_print, call, bind, ret, set_self,
    modify, try_except. cbn -[u].
  destruct (svc_mcp_tools svc (length (trace c))); repeat (rewrite Hp; cbn -[u]);
  match goal with |- context [svc_new_agent svc ?n ?a ?b] =>
    destruct (svc_new_agent svc n a b) end; cbn -[u]; repeat (rewrite Hp; cbn -[u]);
  match goal with |- context [svc_new_agent svc ?n ?a ?b] =>
    destruct (svc_new_agent svc n a b) end; cbn -[u]; repeat (rewrite Hp; cbn -[u]);
  eexists; (split; [reflexivity|]); cbn -[u];
  unfold remote_calls; rewrite <- ?app_assoc, List.filter_app; reflexivity.
Qed.






Section OneException.
Context (e : pystr).
Hypothesis print_raises_e :
  forall n text e', print_outcome (svc_print svc n text) = Raise e' -> e' = e.





End OneException.

End StageFacts.

(** X6 (_create_agents): the agents of a MathematicalAgent are set up
    once.  On an initialized object the call does nothing.  A call that
    returns leaves the object initialized, so that a later call does
    nothing whatever the services would answer then: a construction that
    failed is not tried again.  A call that raises (its handlers print, and
    a print may raise) leaves the object not initialized.  With a standard
    output that accepts the log lines, the first call returns after exactly
    three calls to the remote collaborators, in this order: the loading of
    the MCP tools, the construction of the research agent (also when the
    tools could not be loaded), the construction of the solver agent (also
    when the research agent could not be built). *)
Theorem X6_agents_are_set_up_once (svc svc' : services) (c : ctx) :
  (tools_initialized (self c) = true -> _create_agents svc c = (Ok tt, c)) /\
  (forall c1, _create_agents svc c = (Ok tt, c1) ->
     tools_initialized (self c1) = true /\ _create_agents svc' c1 = (Ok tt, c1)) /\
  (forall e c1, _create_agents svc c = (Raise e, c1) ->
     tools_initialized (self c1) = false) /\
  (tools_initialized (self c) = false -> prints_ok (svc_print svc) ->
   exists c1,
     _create_agents svc c = (Ok tt, c1) /\
     remote_calls (trace c1) =
       remote_calls (trace c) ++ [EvLoadTools; EvNewAgent (u "MathResearchAgent");
                                  EvNewAgent (u "MathSolverAgent")]).
Proof.
  split; [|split; [|split]].
  - apply create_agents_initialized.
  - intros c1 Hc. pose proof (create_agents_outcome svc c c1 (Ok tt) Hc) as Hinit.
    split; [exact Hinit | apply create_agents_initialized; exact Hinit].
  - intros e c1 Hc. exact (create_agents_outcome svc c c1 (Raise e) Hc).
  - apply create_agents_first.
Qed.

Lemma X6_agents_are_set_up_once_witness :
  exists c1,
    _create_agents svc_down ctx0 = (Ok tt, c1) /\
    research_agent (self c1) = None /\
    math_agent (self c1) = None /\
    _create_agents (svc_fixed (u "x = 1")) c1 = (Ok tt, c1) /\
    remote_calls (trace c1) = [EvLoadTools; EvNewAgent (u "MathResearchAgent");
                               EvNewAgent (u "MathSolverAgent")].
Proof.
  destruct (X6_agents_are_set_up_once svc_down (svc_fixed (u "x = 1")) ctx0)
    as (_ & Hok & _ & Hfirst).
  destruct (Hfirst eq_refl (fun _ _ => eq_refl)) as (c1 & Hc & Hcalls).
  exists c1. split; [exact Hc|].
  assert (Hc1 : c1 = snd (_create_agents svc_down ctx0)) by (rewrite Hc; reflexivity).
  split; [rewrite Hc1; reflexivity|]. split; [rewrite Hc1; reflexivity|].
  split; [exact (proj2 (Hok c1 Hc)) | exact Hcalls].
Defined.

(** When the failure of the tool server cannot be printed, the print in
    the except block of get_mcp_tools raises inside the first try block of
    the set-up: the research agent is not constructed, and two remote calls
    are made, not three. *)
Example unprintable_tool_failure_skips_the_research_agent :
  fst (_create_agents svc_bad_tools ctx0) = Ok tt /\
  research_agent (self (snd (_create_agents svc_bad_tools ctx0))) = None /\
  math_agent (self (snd (_create_agents svc_bad_tools ctx0))) = Some (u "MathSolverAgent") /\
  remote_calls (trace (snd (_create_agents svc_bad_tools ctx0)))
    = [EvLoadTools; EvNewAgent (u "MathSolverAgent")].
Proof. vm_compute. repeat split. Qed.

(** With a closed standard output the set-up raises in its first except
    block, and the object stays not initialized. *)
Example set_up_raises_on_closed_stdout :
  fst (_create_agents svc_down_closed ctx0) = Raise (u "I/O operation on closed file.") /\
  tools_initialized (self (snd (_create_agents svc_down_closed ctx0))) = false /\
  remote_calls (trace (snd (_create_agents svc_down_closed ctx0))) = [EvLoadTools].
Proof. vm_compute. repeat split. Qed.

(** X7 (solve_problem, improve_solution): a solver agent that could not be
    built is not asked for again.  On an initialized object without solver
    agent, Revise prints its log line and, that line printed, makes one
    external call, the completion request with the fallback prompt; the
    object is unchanged, and the result is the formatted completion, or the
    text of the failure after "I encountered an error improving the
    solution: ".  Solve does the same on a topic that the validator
    accepts.  When the log line cannot be printed, the stage raises the
    exception of the print and calls nothing. *)
Theorem X7_missing_solver_goes_to_completion `{UnicodeData} (svc : services)
    (c : ctx) (original_solution fb t rc : pystr) :
  tools_initialized (self c) = true ->
  math_agent (self c) = None ->
  (svc_print svc (length (trace c)) (u "Improving solution based on feedback") = Printed ->
   improve_solution svc original_solution fb t c =
    (Ok match svc_acomplete svc (S (length (trace c)))
                (improve_fallback_prompt original_solution fb t) with
        | Ok x => format_math_output x
        | Raise e => u "I encountered an error improving the solution: " ++ e
        end,
     {| self := self c;
        trace := trace c ++ [EvPrint (u "Improving solution based on feedback");
                             EvComplete (improve_fallback_prompt original_solution fb t)] |})) /\
  (forall e,
   print_outcome (svc_print svc (length (trace c))
                    (u "Improving solution based on feedback")) = Raise e ->
   improve_solution svc original_solution fb t c =
    (Raise e,
     {| self := self c;
        trace := trace c ++ [EvPrint (u "Improving solution based on feedback")] |})) /\
  (fst (validate_math_input t) = true ->
   svc_print svc (length (trace c)) (u "Solving: " ++ t) = Printed ->
   solve_problem svc t rc c =
    (Ok match svc_acomplete svc (S (length (trace c))) (solve_fallback_prompt t rc) with
        | Ok x => format_math_output x
        | Raise e => u "I encountered an error solving this problem: " ++ e
        end,
     {| self := self c;
        trace := trace c ++ [EvPrint (u "Solving: " ++ t);
                             EvComplete (solve_fallback_prompt t rc)] |})) /\
  (fst (validate_math_input t) = true ->
   forall e,
   print_outcome (svc_print svc (length (trace c)) (u "Solving: " ++ t)) = Raise e ->
   solve_problem svc t rc c =
    (Raise e, {| self := self c; trace := trace c ++ [EvPrint (u "Solving: " ++ t)] |})).
Proof.
  intros Hinit Hnone.
  assert (Hlen : forall ev, length (trace c ++ [ev]) = S (length (trace c)))
    by (intros ev; rewrite length_app; simpl; lia).
  split; [|split; [|split]].
  - intros Hp. unfold improve_solution, bind, _create_agents, get, bind. rewrite Hinit.
    unfold ret, py_print, call. cbn -[u]. rewrite Hp. cbn -[u]. rewrite Hnone. cbn -[u].
    unfold try_except, bind, llm_acomplete, call, ret. cbn -[u]. rewrite Hlen.
    destruct (svc_acomplete svc (S (length (trace c)))
                (improve_fallback_prompt original_solution fb t));
      cbn -[u]; rewrite <- app_assoc; reflexivity.
  - intros e Hp. unfold improve_solution, bind, _create_agents, get, bind. rewrite Hinit.
    unfold ret, py_print, call. cbn -[u]. rewrite Hp. reflexivity.
  - intros Hv Hp. unfold solve_problem.
    destruct (validate_math_input t) as [v msg]. simpl in Hv. subst v. cbn -[u].
    unfold bind, _create_agents, get, bind. rewrite Hinit.
    unfold ret, py_print, call. cbn -[u]. rewrite Hp. cbn -[u]. rewrite Hnone. cbn -[u].
    unfold try_except, bind, llm_acomplete, call, ret. cbn -[u]. rewrite Hlen.
    destruct (svc_acomplete svc (S (length (trace c))) (solve_fallback_prompt t rc));
      cbn -[u]; rewrite <- app_assoc; reflexivity.
  - intros Hv e Hp. unfold solve_problem.
    destruct (validate_math_input t) as [v msg]. simpl in Hv. subst v. cbn -[u].
    unfold bind, _create_agents, get, bind. rewrite Hinit.
    unfold ret, py_print, call. cbn -[u]. rewrite Hp. reflexivity.
Qed.

Lemma X7_missing_solver_goes_to_completion_witness :
  exists c1,
    _create_agents svc_down ctx0 = (Ok tt, c1) /\
    improve_solution (svc_fixed (u "x = 1")) (u "x = 2") (u "check it") (u "solve x + 1 = 2") c1
    = (Ok (u "x = 1"),
       {| self := self c1;
          trace := trace c1 ++ [EvPrint (u "Improving solution based on feedback");
                                EvComplete (improve_fallback_prompt
                                  (u "x = 2") (u "check it") (u "solve x + 1 = 2"))] |}).
Proof.
  destruct (_create_agents svc_down ctx0) as [r c1] eqn:Hc.
  assert (Hr : r = Ok tt) by (apply (f_equal fst) in Hc; vm_compute in Hc; congruence).
  subst r. exists c1. split; [reflexivity|].
  assert (Hc1 : c1 = snd (_create_agents svc_down ctx0)) by (rewrite Hc; reflexivity).
  destruct (X7_missing_solver_goes_to_completion (svc_fixed (u "x = 1")) c1
              (u "x = 2") (u "check it") (u "solve x + 1 = 2") [])
    as [Himp _].
  - rewrite Hc1. reflexivity.
  - rewrite Hc1. reflexivity.
  - rewrite (Himp eq_refl). reflexivity.
Defined.

(** ** The endpoints with the stages of the agent *)

(** X8 (process_math_question with research_topic and solve_problem):
    with a standard output that accepts every line, and whether the remote
    calls return or raise, the pipeline of a session that is in the store
    does not enter its except block.  Research and Solve return; the
    pipeline ends with the status waiting_for_approval, the flag set, the
    result of Solve as current solution and the result of Research, which
    Solve was given, as research context, and appends exactly one assistant
    message, the review prompt showing that solution. *)
Theorem X8_pipeline_delivers `{UnicodeData} (svc : services)
    (sid t : pystr) (st : server) (l : loc) (s : session) :
  sessions st !! sid = Some l ->
  heap st !! l = Some s ->
  prints_ok (svc_print svc) ->
  exists research c1 solution c2,
    research_topic svc t {| self := agent s; trace := log st |} = (Ok research, c1) /\
    solve_problem svc t research
      {| self := self c1;
         trace := trace c1 ++ [EvPrint (u "Research completed for " ++ sid)] |}
      = (Ok solution, c2) /\
    heap (process_math_question svc sid t st) !! l = Some
      {| agent := self c2;
         sess_status := WaitingForApproval;
         messages := messages s ++
           [{| role := assistant; content := approval_message solution |}];
         waiting_for_approval := true;
         current_solution := Some solution;
         current_topic := current_topic s;
         research_context := Some research |} /\
    sessions (process_math_question svc sid t st) = sessions st /\
    tasks (process_math_question svc sid t st) = tasks st /\
    log (process_math_question svc sid t st) =
      trace c2 ++ [EvPrint (u "Solution generated for " ++ sid);
                   EvPrint (u " Awaiting feedback for " ++ sid)].
Proof.
  intros Hl Hs Hp. unfold process_math_question, pmq_start. rewrite Hl.
  erewrite await_lookup
    by (unfold update; cbn -[u]; rewrite ?lookup_alter_eq, Hs; reflexivity).
  cbn -[u].
  destruct (research_topic_returns svc t Hp {| self := agent s; trace := log st |})
    as [r1 Hr1].
  destruct (research_topic svc t {| self := agent s; trace := log st |})
    as [r1' c1]. simpl in Hr1. subst r1'.
  cbn -[u]. unfold pmq_researched, say. rewrite Hp. cbn -[u].
  erewrite await_lookup
    by (unfold update; cbn -[u]; rewrite ?lookup_alter_eq, Hs; reflexivity).
  cbn -[u].
  match goal with |- context [solve_problem svc t r1 ?c] =>
    destruct (solve_problem_returns svc t r1 Hp c) as [r2 Hr2];
    destruct (solve_problem svc t r1 c) as [r2' c2] eqn:E2; simpl in Hr2; subst r2' end.
  cbn -[u]. unfold pmq_solved, say. rewrite Hp. cbn -[u]. rewrite Hp. cbn -[u].
  exists r1, c1, r2, c2.
  split; [reflexivity|]. split; [exact E2|].
  split; [|split; [reflexivity|split; [reflexivity|]]].
  - rewrite ?lookup_alter_eq, Hs. reflexivity.
  - rewrite <- app_assoc. reflexivity.
Qed.

Lemma X8_pipeline_delivers_witness :
  exists research solution s',
    heap (process_math_question svc_down demo_id (u "integrate x^2") demo_waiting) !! 0
      = Some s' /\
    sess_status s' = WaitingForApproval /\
    current_solution s' = Some solution /\
    research_context s' = Some research.
Proof.
  destruct (X8_pipeline_delivers svc_down demo_id (u "integrate x^2")
              demo_waiting 0 demo_session
              (proj1 demo_waiting_session) (proj2 demo_waiting_session)
              (fun _ _ => eq_refl))
    as (research & c1 & solution & c2 & _ & _ & Hh & _).
  exists research, solution. eexists. split; [exact Hh|]. repeat split.
Defined.

(** X9 (human_input with improve_solution): the answers of POST
    /human-input.  It answers 404 for an unknown session and 400 for a
    session whose flag is not set, the state unchanged.  For a session
    whose flag is set, with a standard output that accepts every line and
    whether the remote calls return or raise, it answers a success, after
    which the status of the session is completed or waiting_for_approval.
    When the print of the feedback raises, the feedback is not recorded:
    the answer is 500 with the status error and one message appended, or,
    when the print of the except block raises too, that exception with the
    sessions unchanged. *)
Theorem X9_feedback_outcomes `{UnicodeData} (svc : services)
    (req : HumanInputRequest) (st : server) :
  (lookup_session st (hi_session_id req) = None /\
   human_input svc req st = (HTTPException 404 (u "Session not found"), st)) \/
  (exists l s,
     lookup_session st (hi_session_id req) = Some (l, s) /\
     waiting_for_approval s = false /\
     human_input svc req st =
       (HTTPException 400 (u "Session is not waiting for feedback"), st)) \/
  (exists l s,
     lookup_session st (hi_session_id req) = Some (l, s) /\
     waiting_for_approval s = true /\
     (prints_ok (svc_print svc) ->
      exists st' s',
        human_input svc req st = (HttpOk success, st') /\
        heap st' !! l = Some s' /\
        (sess_status s' = Completed \/ sess_status s' = WaitingForApproval)) /\
     (forall e,
      print_outcome (svc_print svc (length (log st)) (feedback_line req)) = Raise e ->
      (exists st',
         human_input svc req st = (HTTPException 500 (u "Error: " ++ e), st') /\
         heap st' !! l = Some
           (append_message
              {| role := assistant;
                 content := u "I encountered an error processing your feedback: " ++ e |}
              (set_status Error s))) \/
      (exists e' st',
         human_input svc req st = (Propagates e', st') /\
         heap st' = heap st))).
Proof.
  destruct (lookup_session st (hi_session_id req)) as [[l s]|] eqn:E.
  - pose proof (lookup_session_inv _ _ _ _ E) as [Hsid Hs].
    destruct (waiting_for_approval s) eqn:Hw.
    + right. right. exists l, s. split; [reflexivity|]. split; [exact Hw|]. split.
      * intros Hp. destruct (is_approval (feedback req)) eqn:Happ.
        -- pose proof (human_input_begin_approve (svc_print svc) req st l s
                         Hsid Hs Hw (Hp _ _) Happ) as Hb.
           eexists _, _.
           split; [unfold human_input; rewrite Hb; reflexivity|].
           split; [unfold update; simpl; rewrite !lookup_alter_eq, Hs; reflexivity|].
           left. reflexivity.
        -- pose proof (human_input_begin_revise (svc_print svc) req st l s
                         Hsid Hs Hw (Hp _ _) Happ) as Hb.
           unfold human_input. rewrite Hb.
           erewrite await_lookup
             by (unfold update; simpl; rewrite !lookup_alter_eq, Hs; reflexivity).
           match goal with |- context [improve_solution svc ?o ?f ?t ?c] =>
             destruct (improve_solution_returns svc o f t c Hp) as (r & c' & _ & Hr & _);
             rewrite Hr end.
           simpl. eexists _, _.
           split; [reflexivity|].
           split; [unfold update; simpl; rewrite !lookup_alter_eq, Hs; reflexivity|].
           right. reflexivity.
      * intros e Hp.
        pose proof (human_input_begin_unprinted (svc_print svc) req st l s e
                      Hsid Hs Hw Hp) as Hb.
        unfold human_input. rewrite Hb. unfold hi_except, say, fed. cbn -[u].
        match goal with |- context [print_outcome ?x] => destruct (print_outcome x) end;
          cbn -[u].
        -- left. eexists. split; [reflexivity|].
           unfold update. cbn -[u]. rewrite lookup_alter_eq, Hs. reflexivity.
        -- right. eexists _, _. split; reflexivity.
    + right. left. exists l, s. split; [reflexivity|]. split; [exact Hw|].
      unfold human_input, human_input_begin. rewrite E, Hw. reflexivity.
  - left. split; [reflexivity|].
    unfold human_input, human_input_begin. rewrite E. reflexivity.
Qed.

Lemma X9_feedback_outcomes_witness :
  exists st' s',
    human_input (svc_fixed (u "x + 1 = 2, so x = 1")) demo_feedback demo_waiting
      = (HttpOk success, st') /\
    heap st' !! 0 = Some s' /\
    (sess_status s' = Completed \/ sess_status s' = WaitingForApproval).
Proof.
  destruct (X9_feedback_outcomes (svc_fixed (u "x + 1 = 2, so x = 1"))
              demo_feedback demo_waiting)
    as [[Hnone _] | [(l & s & Hl & Hw & _) | (l & s & Hl & _ & Hok & _)]].
  - vm_compute in Hnone. discriminate.
  - exfalso. vm_compute in Hl. injection Hl as <- <-. discriminate.
  - vm_compute in Hl. injection Hl as <- <-. exact (Hok (fun _ _ => eq_refl)).
Defined.



(** ** What a step writes *)

Ltac write_tac :=
  match goal with
  | |- exists f, session_write f /\ Some ?T = Some (f ?s) =>
      let F := eval pattern s in T in
      match F with
      | ?g _ => exists g; split; [|reflexivity]
      end
  end;
  repeat first
    [ exact w_none
    | refine (w_status _ _ _)
    | refine (w_message _ _ _)
    | refine (w_flag _ _ _)
    | refine (w_solution _ _ _)
    | refine (w_research _ _ _)
    | refine (w_agent _ _ _) ].

Section Writes.
Context `{UnicodeData} (out : stdout).

Lemma session_write_keeps (f : session -> session) :
  session_write f ->
  forall s, extends s (f s) /\ current_topic (f s) = current_topic s.
Proof.
  induction 1 as [|v f _ IH|m f _ IH|v f _ IH|v f _ IH|v f _ IH|v f _ IH];
    intros s; try (destruct (IH s) as [[ms Hms] Ht]); simpl.
  - split; [exists []; symmetry; apply app_nil_r | reflexivity].
  - split; [exists ms; exact Hms | exact Ht].
  - split; [exists (ms ++ [m s]); simpl; rewrite Hms, app_assoc; reflexivity | exact Ht].
  - split; [exists ms; exact Hms | exact Ht].
  - split; [exists ms; exact Hms | exact Ht].
  - split; [exists ms; exact Hms | exact Ht].
  - split; [exists ms; exact Hms | exact Ht].
Qed.

(** A session object stays in the heap, and a step changes it by writes of
    the kinds above only. *)
Lemma do_step_writes (lbl : label) (st : server) (l : loc) (s : session) :
  heap st !! l = Some s ->
  exists f, session_write f /\ heap (do_step out lbl st) !! l = Some (f s).
Proof.
  intros Hl.
  destruct lbl as [req uuid | sid | req | sid | i r ag evs]; simpl.
  - unfold chat, say.
    destruct (out (length (log st)) (chat_line req)) as [|e|e]; simpl.
    + unfold chat_body. destruct (continued req _) as [[[sid l0] s0]|].
      * lookup_tac Hl; write_tac.
      * simpl. rewrite lookup_insert. case_decide.
        -- subst l. rewrite fresh_unused in Hl. discriminate.
        -- rewrite Hl. write_tac.
    + rewrite Hl. write_tac.
    + handler_cases out; rewrite Hl; write_tac.
  - rewrite Hl. write_tac.
  - unfold human_input_begin.
    destruct (lookup_session st (hi_session_id req)) as [[l0 s0]|] eqn:E;
      [|rewrite Hl; write_tac].
    apply lookup_session_inv in E. destruct E as [Hsid Hs0].
    destruct (waiting_for_approval s0); [|simpl; rewrite Hl; write_tac]. simpl.
    unfold say, hi_except, say.
    destruct (print_outcome (out (length (log st)) (feedback_line req))) as [[]|e].
    + destruct (is_approval (feedback req)); lookup_tac Hl; write_tac.
    + handler_cases out; lookup_tac Hl; write_tac.
  - unfold delete_session. destruct (sessions st !! sid); simpl; rewrite Hl; write_tac.
  - destruct (tasks st !! i) as [t|] eqn:Ht; [|rewrite Hl; write_tac].
    destruct t as [sid tp | l0 sid tp | l0 sid tp rr | l0 cs fb tp]; simpl;
      [unfold pmq_start; simpl; destruct (sessions st !! sid) as [l1|]; simpl
      |destruct r as [x|e]; simpl..];
      unfold pmq_researched, pmq_solved, pmq_except, hi_except, say;
      handler_cases out; lookup_tac Hl; write_tac.
Qed.

Lemma run_writes (lbls : list label) (st : server) (l : loc) (s : session) :
  heap st !! l = Some s ->
  exists s', heap (run out lbls st) !! l = Some s' /\
    extends s s' /\ current_topic s' = current_topic s.
Proof.
  revert st s. induction lbls as [|lbl lbls IH]; intros st s Hl; simpl.
  - exists s. split; [exact Hl|]. split; [exists []; symmetry; apply app_nil_r | reflexivity].
  - destruct (do_step_writes lbl st l s Hl) as (f & Hf & Hstep).
    destruct (session_write_keeps f Hf s) as [[ms Hms] Ht].
    destruct (IH _ _ Hstep) as (s' & Hs' & [ms' Hms'] & Ht').
    exists s'. split; [exact Hs'|]. split.
    + exists (ms ++ ms'). rewrite Hms', Hms, app_assoc. reflexivity.
    + rewrite Ht', Ht. reflexivity.
Qed.

End Writes.

(** ** The keys of the store *)

Section StoreFacts.
Context `{UnicodeData} (out : stdout).

(** Only POST /chat adds a key, and the key it adds is the generated
    identifier, bound to a new object. *)
Lemma do_step_sessions (lbl : label) (st : server) (sid : pystr) (l : loc) :
  sessions (do_step out lbl st) !! sid = Some l ->
  sessions st !! sid = Some l \/
  (exists req, lbl = LChat req sid /\
     out (length (log st)) (chat_line req) = Printed /\
     heap (do_step out lbl st) !! l = Some (new_session (topic req))).
Proof.
  destruct lbl as [req uuid | sid0 | req | sid0 | i r ag evs]; simpl.
  - unfold chat, say.
    destruct (out (length (log st)) (chat_line req)) as [|e|e] eqn:Hp; simpl.
    + unfold chat_body. destruct (continued req _) as [[[sid1 l0] s0]|] eqn:Ec; simpl;
        [auto|].
      rewrite lookup_insert. case_decide; [|auto].
      subst uuid. intros Heq. injection Heq as <-. right. exists req.
      split; [reflexivity|]. split; [exact Hp|]. apply lookup_insert_eq.
    + auto.
    + handler_cases out; auto.
  - auto.
  - unfold human_input_begin.
    destruct (lookup_session st (hi_session_id req)) as [[l0 s0]|]; [|auto].
    destruct (waiting_for_approval s0); [|auto]. simpl.
    unfold say, hi_except, say.
    destruct (print_outcome (out (length (log st)) (feedback_line req))) as [[]|e].
    + destruct (is_approval (feedback req)); auto.
    + handler_cases out; auto.
  - unfold delete_session. destruct (sessions st !! sid0); simpl; [|auto].
    rewrite lookup_delete_Some. tauto.
  - destruct (tasks st !! i) as [t|]; [|auto].
    destruct t as [sid1 tp | l0 sid1 tp | l0 sid1 tp rr | l0 cs fb tp]; simpl;
      [unfold pmq_start; simpl; destruct (sessions st !! sid1); auto
      |destruct r as [x|e]; simpl..];
      unfold pmq_researched, pmq_solved, pmq_except, hi_except, say;
      handler_cases out; auto.
Qed.

Lemma run_sessions (lbls : list label) (st : server) (sid : pystr) (l : loc) :
  (forall sid l, sessions st !! sid = Some l -> is_Some (heap st !! l)) ->
  sessions (run out lbls st) !! sid = Some l ->
  is_Some (heap (run out lbls st) !! l) /\
  (is_Some (sessions st !! sid) \/ exists req, In (LChat req sid) lbls).
Proof.
  revert st. induction lbls as [|lbl lbls IH]; intros st Hwf Hsid; simpl in *.
  - split; [exact (Hwf _ _ Hsid) | left; rewrite Hsid; eauto].
  - destruct (IH (do_step out lbl st)) as [Hheap Hfrom]; [|exact Hsid|].
    + intros sid' l' Hs'. apply do_step_sessions in Hs'.
      destruct Hs' as [Hold | (req & -> & _ & Hnew)].
      * destruct (Hwf _ _ Hold) as [s0 Hs0].
        destruct (do_step_writes out lbl st l' s0 Hs0) as (f & _ & Hf). rewrite Hf. eauto.
      * rewrite Hnew. eauto.
    + split; [exact Hheap|].
      destruct Hfrom as [[l' Hl'] | (req & Hin)]; [|right; exists req; auto].
      apply do_step_sessions in Hl'.
      destruct Hl' as [Hold | (req & -> & _ & _)];
        [left; rewrite Hold; eauto | right; exists req; auto].
Qed.

End StoreFacts.

(** X10 (chat, do_step over all endpoints): the keys of the store are
    identifiers the server generated.  In every reachable state a key of
    sessions is the uuid of some POST /chat request that was served,
    never an identifier a client supplied, and it is bound to a session
    object that exists. *)
Theorem X10_session_ids_are_generated `{UnicodeData} (out : stdout)
    (lbls : list label) (sid : pystr) (l : loc) :
  sessions (run out lbls server_init) !! sid = Some l ->
  (exists req, In (LChat req sid) lbls) /\
  exists s, heap (run out lbls server_init) !! l = Some s.
Proof.
  intros Hsid. destruct (run_sessions out lbls server_init sid l) as [Hheap Hfrom].
  - intros sid' l' Hs'. simpl in Hs'. rewrite lookup_empty in Hs'. discriminate.
  - exact Hsid.
  - split; [|exact Hheap].
    destruct Hfrom as [[l' Hl'] | Hreq]; [|exact Hreq].
    simpl in Hl'. rewrite lookup_empty in Hl'. discriminate.
Qed.

Lemma X10_session_ids_are_generated_witness :
  (exists req, In (LChat req demo_id) demo_labels) /\
  exists s, heap (run stdout_ok demo_labels server_init) !! 0 = Some s.
Proof.
  apply (X10_session_ids_are_generated stdout_ok demo_labels demo_id 0).
  exact (proj1 demo_waiting_session).
Defined.

(** X11 (all handlers of main.py): the history of a session is append
    only and its topic is fixed.  Whatever requests and resumed coroutines
    follow, a session object stays, its messages are the earlier messages
    followed by new ones, and its current_topic is the one it had: a
    continued chat with another topic does not change it. *)
Theorem X11_history_is_append_only `{UnicodeData} (out : stdout)
    (lbls more : list label) (l : loc) (s : session) :
  heap (run out lbls server_init) !! l = Some s ->
  exists s',
    heap (run out (lbls ++ more) server_init) !! l = Some s' /\
    (exists ms, messages s' = messages s ++ ms) /\
    current_topic s' = current_topic s.
Proof.
  intros Hs. rewrite run_app. exact (run_writes out more _ l s Hs).
Qed.

Lemma X11_history_is_append_only_witness :
  exists s',
    heap (run stdout_ok
              (demo_labels ++
               [LChat {| topic := u "integrate x^2"; session_id := Some demo_id |} (u "77aa")])
              server_init) !! 0 = Some s' /\
    (exists ms, messages s' = messages demo_session ++ ms) /\
    current_topic s' = u "solve x + 1 = 2".
Proof.
  exact (X11_history_is_append_only stdout_ok demo_labels
           [LChat {| topic := u "integrate x^2"; session_id := Some demo_id |} (u "77aa")]
           0 demo_session (proj2 demo_waiting_session)).
Defined.

(** X12 (delete_session, get_chat, human_input, process_math_question):
    deleting a session makes its identifier unknown.  The deletion
    answers "Session deleted"; after it GET, POST /human-input and a second
    DELETE for that identifier answer 404 and change nothing, and a
    pipeline scheduled for it returns at once.  Other identifiers are
    served as before, and the session object itself is kept, out of reach
    of the endpoints. *)
Theorem X12_deleted_session_is_unknown `{UnicodeData} (svc : services)
    (sid : pystr) (st : server) (l : loc) :
  sessions st !! sid = Some l ->
  exists st',
    delete_session sid st = (HttpOk (u "Session deleted"), st') /\
    heap st' = heap st /\
    get_chat sid st' = HTTPException 404 (u "Session not found") /\
    (forall fb, human_input svc {| hi_session_id := sid; feedback := fb |} st'
                = (HTTPException 404 (u "Session not found"), st')) /\
    delete_session sid st' = (HTTPException 404 (u "Session not found"), st') /\
    (forall t, process_math_question svc sid t st' = st') /\
    (forall sid', sid' <> sid -> get_chat sid' st' = get_chat sid' st).
Proof.
  intros Hsid. unfold delete_session at 1. rewrite Hsid.
  eexists. split; [reflexivity|]. split; [reflexivity|].
  assert (Hgone : forall st0, sessions st0 = delete sid (sessions st) ->
                    lookup_session st0 sid = None).
  { intros st0 Heq. unfold lookup_session. rewrite Heq, lookup_delete_eq. reflexivity. }
  split; [unfold get_chat; rewrite Hgone by reflexivity; reflexivity|].
  split; [intros fb; unfold human_input, human_input_begin; simpl;
          rewrite Hgone by reflexivity; reflexivity|].
  split; [unfold delete_session; simpl; rewrite lookup_delete_eq; reflexivity|].
  split; [intros t; unfold process_math_question, pmq_start; simpl;
          rewrite lookup_delete_eq; reflexivity|].
  intros sid' Hne. unfold get_chat, lookup_session. simpl.
  rewrite lookup_delete_ne by congruence. reflexivity.
Qed.

Lemma X12_deleted_session_is_unknown_witness :
  exists st',
    delete_session demo_id demo_waiting = (HttpOk (u "Session deleted"), st') /\
    get_chat demo_id st' = HTTPException 404 (u "Session not found").
Proof.
  destruct (X12_deleted_session_is_unknown svc_down demo_id demo_waiting 0
              (proj1 demo_waiting_session)) as (st' & Hd & _ & Hg & _).
  exists st'. split; [exact Hd | exact Hg].
Defined.

(** X13 (chat, get_chat): continuing a session answers with the status
    "processing" but does not store it.  When POST /chat with the
    identifier of a session of the store answers, its log line was
    printed, and the answer carries that identifier, the
    status "processing" and the history with the topic appended as a user
    message, and the pipeline is scheduled; until that pipeline runs, GET
    for the session still shows the status and the waiting flag it had
    (for instance completed, or waiting_for_approval), and the generated
    identifier is not used. *)
Theorem X13_continued_chat_keeps_stored_status (out : stdout)
    (req : ChatRequest) (uuid sid : pystr) (st st' : server) (l : loc) (s : session)
    (r : ChatResponse) :
  session_id req = Some sid ->
  sid <> [] ->
  sessions st !! sid = Some l ->
  heap st !! l = Some s ->
  chat out req uuid st = (HttpOk r, st') ->
  out (length (log st)) (chat_line req) = Printed /\
  r = {| r_session_id := sid; r_status := Processing;
         r_messages := messages s ++ [{| role := user; content := topic req |}] |} /\
  get_chat sid st' =
    HttpOk {| g_session_id := sid; g_status := sess_status s;
              g_messages := messages s ++ [{| role := user; content := topic req |}];
              g_waiting := waiting_for_approval s |} /\
  sessions st' = sessions st /\
  tasks st' = tasks st ++ [TStart sid (topic req)].
Proof.
  intros Hreq Hne Hsid Hs Hchat.
  destruct (out (length (log st)) (chat_line req)) eqn:Hp.
  - rewrite (chat_printed out req uuid st Hp) in Hchat.
    assert (Hc : continued req (set_log (log st ++ [EvPrint (chat_line req)]) st)
                 = Some (sid, l, s)).
    { unfold continued, lookup_session. simpl. rewrite Hreq, Hsid, Hs.
      destruct sid; [contradiction | reflexivity]. }
    unfold chat_body in Hchat. rewrite Hc in Hchat. simpl in Hchat.
    injection Hchat as <- <-.
    split; [reflexivity|]. split; [reflexivity|]. split; [|split; reflexivity].
    unfold get_chat, lookup_session. simpl. rewrite Hsid, lookup_alter_eq, Hs.
    reflexivity.
  - exfalso. destruct (chat_not_printed out req uuid st) as (_ & _ & _ & Hno).
    + rewrite Hp. discriminate.
    + rewrite Hchat in Hno. exact (Hno r eq_refl).
  - exfalso. destruct (chat_not_printed out req uuid st) as (_ & _ & _ & Hno).
    + rewrite Hp. discriminate.
    + rewrite Hchat in Hno. exact (Hno r eq_refl).
Qed.

Lemma X13_continued_chat_keeps_stored_status_witness :
  exists r st',
    chat stdout_ok {| topic := u "integrate x^2"; session_id := Some demo_id |} (u "77aa")
         demo_waiting = (HttpOk r, st') /\
    r_session_id r = demo_id /\
    (g_status <$> match get_chat demo_id st' with HttpOk g => Some g | _ => None end)
      = Some WaitingForApproval.
Proof.
  destruct (chat stdout_ok {| topic := u "integrate x^2"; session_id := Some demo_id |}
              (u "77aa") demo_waiting) as [a st'] eqn:Hchat.
  destruct a as [r|code detail|e];
    [|apply (f_equal fst) in Hchat; vm_compute in Hchat; discriminate..].
  exists r, st'. split; [reflexivity|].
  destruct (X13_continued_chat_keeps_stored_status stdout_ok
              {| topic := u "integrate x^2"; session_id := Some demo_id |} (u "77aa")
              demo_id demo_waiting st' 0 demo_session r eq_refl)
    as (_ & Hr & Hget & _).
  - discriminate.
  - exact (proj1 demo_waiting_session).
  - exact (proj2 demo_waiting_session).
  - exact Hchat.
  - rewrite Hr, Hget. split; reflexivity.
Defined.

(** X14 (human_input): feedback is refused as long as the session holds no
    solution.  In every reachable state, POST /human-input for a session
    whose current solution is None answers 400 and changes nothing: the
    feedback is not recorded, and nothing is printed.  This is the case of
    a new session until its pipeline has delivered, and of a session whose
    solution was approved. *)
Theorem X14_no_feedback_without_solution `{UnicodeData} (svc : services) (out : stdout)
    (lbls : list label) (req : HumanInputRequest) (l : loc) (s : session) :
  sessions (run out lbls server_init) !! hi_session_id req = Some l ->
  heap (run out lbls server_init) !! l = Some s ->
  current_solution s = None ->
  human_input svc req (run out lbls server_init) =
    (HTTPException 400 (u "Session is not waiting for feedback"),
     run out lbls server_init).
Proof.
  intros Hsid Hs Hnone.
  assert (Hw : waiting_for_approval s = false).
  { destruct (waiting_for_approval s) eqn:Hw; [|reflexivity].
    elim (run_flag_has_solution out lbls l s Hs Hw). exact Hnone. }
  unfold human_input, human_input_begin.
  rewrite (lookup_session_Some _ _ l s Hsid Hs), Hw. reflexivity.
Qed.

Lemma X14_no_feedback_without_solution_witness :
  fst (human_input svc_down {| hi_session_id := demo_id; feedback := u "approve" |}
         (run stdout_ok
              [LChat {| topic := u "solve x + 1 = 2"; session_id := None |} demo_id]
              server_init))
  = HTTPException 400 (u "Session is not waiting for feedback").
Proof.
  rewrite (X14_no_feedback_without_solution svc_down stdout_ok
             [LChat {| topic := u "solve x + 1 = 2"; session_id := None |} demo_id]
             {| hi_session_id := demo_id; feedback := u "approve" |}
             0 (new_session (u "solve x + 1 = 2"))).
  - reflexivity.
  - vm_compute. reflexivity.
  - vm_compute. reflexivity.
  - reflexivity.
Defined.

(** X15 (chat, get_chat, human_input): a session that was just created can
    be polled under the identifier of the answer.  When POST /chat without
    the identifier of a session of the store answers, its log line was
    printed, and the answer carries the generated
    identifier; GET for it shows the status processing, the topic as only
    message and no waiting flag, and POST /human-input for it answers 400
    and changes nothing. *)
Theorem X15_created_session_can_be_polled `{UnicodeData} (svc : services) (out : stdout)
    (req : ChatRequest) (uuid : pystr) (st st' : server) (r : ChatResponse) :
  continued req st = None ->
  chat out req uuid st = (HttpOk r, st') ->
  out (length (log st)) (chat_line req) = Printed /\
  r = {| r_session_id := uuid; r_status := Processing;
         r_messages := [{| role := user; content := topic req |}] |} /\
  get_chat uuid st' =
    HttpOk {| g_session_id := uuid; g_status := Processing;
              g_messages := [{| role := user; content := topic req |}];
              g_waiting := false |} /\
  (forall fb,
     human_input svc {| hi_session_id := uuid; feedback := fb |} st'
     = (HTTPException 400 (u "Session is not waiting for feedback"), st')).
Proof.
  intros Hc Hchat.
  destruct (out (length (log st)) (chat_line req)) eqn:Hp.
  - rewrite (chat_printed out req uuid st Hp) in Hchat.
    assert (Hc' : continued req (set_log (log st ++ [EvPrint (chat_line req)]) st) = None)
      by exact Hc.
    unfold chat_body in Hchat. rewrite Hc' in Hchat. simpl in Hchat.
    injection Hchat as <- <-.
    assert (Hl : forall st0 : server,
              sessions st0 = <[uuid := fresh (dom (heap st))]> (sessions st) ->
              heap st0 = <[fresh (dom (heap st)) := new_session (topic req)]> (heap st) ->
              lookup_session st0 uuid
              = Some (fresh (dom (heap st)), new_session (topic req))).
    { intros st0 Hs Hh. unfold lookup_session. rewrite Hs, Hh, !lookup_insert_eq.
      reflexivity. }
    split; [reflexivity|]. split; [reflexivity|]. split.
    + unfold get_chat. rewrite Hl by reflexivity. reflexivity.
    + intros fb. unfold human_input, human_input_begin. simpl.
      rewrite Hl by reflexivity. reflexivity.
  - exfalso. destruct (chat_not_printed out req uuid st) as (_ & _ & _ & Hno).
    + rewrite Hp. discriminate.
    + rewrite Hchat in Hno. exact (Hno r eq_refl).
  - exfalso. destruct (chat_not_printed out req uuid st) as (_ & _ & _ & Hno).
    + rewrite Hp. discriminate.
    + rewrite Hchat in Hno. exact (Hno r eq_refl).
Qed.

Lemma X15_created_session_can_be_polled_witness :
  exists r st',
    chat stdout_ok {| topic := u "solve x + 1 = 2"; session_id := None |} demo_id server_init
      = (HttpOk r, st') /\
    get_chat demo_id st'
    = HttpOk {| g_session_id := demo_id; g_status := Processing;
                g_messages := [{| role := user; content := u "solve x + 1 = 2" |}];
                g_waiting := false |}.
Proof.
  destruct (chat stdout_ok {| topic := u "solve x + 1 = 2"; session_id := None |}
              demo_id server_init) as [a st'] eqn:Hchat.
  destruct a as [r|code detail|e];
    [|apply (f_equal fst) in Hchat; vm_compute in Hchat; discriminate..].
  exists r, st'. split; [reflexivity|].
  exact (proj1 (proj2 (proj2 (X15_created_session_can_be_polled svc_down stdout_ok
                  {| topic := u "solve x + 1 = 2"; session_id := None |}
                  demo_id server_init st' r eq_refl Hchat)))).
Defined.

(** ** What the patterns of the guardrail accept *)

Section PatternFacts.
Context `{UnicodeData}.

Lemma star_loop_Some (step : (mstate -> option mstate) -> mstate -> option mstate)
    (fuel : nat) (st : mstate) :
  is_Some (star_loop step Some fuel st).
Proof.
  destruct fuel as [|fuel]; simpl; [eauto|].
  destruct (step _ st); eauto.
Qed.

(** The search finds a match that starts after any prefix. *)
Lemma search_from_app (p : pattern) (post : pystr) :
  (forall st, m_rest st = post -> is_Some (match_at p st)) ->
  forall pre st fuel,
    m_rest st = pre ++ post -> length pre <= fuel ->
    is_Some (search_from p fuel st).
Proof.
  intros Hpost pre. induction pre as [|c pre IH]; intros st fuel Hrest Hfuel.
  - destruct (Hpost st Hrest) as [e He].
    destruct fuel; simpl; rewrite He; eauto.
  - destruct fuel as [|fuel]; [simpl in Hfuel; lia|]. simpl.
    destruct (match_at p st) as [e|]; [eauto|].
    unfold m_advance. rewrite Hrest. simpl.
    apply IH; [reflexivity | simpl in Hfuel; lia].
Qed.

Lemma re_search_app (p : pattern) (pre post : pystr) :
  (forall st, m_rest st = post -> is_Some (match_at p st)) ->
  re_search p (pre ++ post) = true.
Proof.
  intros Hpost. unfold re_search.
  destruct (search_from_app p post Hpost pre (m_init (pre ++ post))
              (length (pre ++ post))) as [x Hx].
  - reflexivity.
  - rewrite length_app. lia.
  - rewrite Hx. reflexivity.
Qed.

Lemma any_of_match (cs : pystr) (c : N) :
  In c cs -> chr_match false false (map One cs) c = true.
Proof.
  intros Hin. unfold chr_match. simpl.
  assert (Hex : existsb (fun it => item_match false it c) (map One cs) = true);
    [|rewrite Hex; reflexivity].
  apply existsb_exists. exists (One c).
  split; [apply in_map; exact Hin | simpl; apply N.eqb_refl].
Qed.

(** A character of the class is a match of the class. *)
Lemma re_search_any_of (cs s : pystr) (c : N) :
  In c cs -> In c s -> re_search (re_compile (AnyOf cs)) s = true.
Proof.
  intros Hcs Hs. apply in_split in Hs. destruct Hs as (pre & post & ->).
  apply re_search_app. intros st Hrest.
  unfold match_at, re_compile, AnyOf. cbn [pat_re pat_icase mt].
  unfold m_advance. cbn [m_rest]. rewrite Hrest, (any_of_match cs c Hcs). eauto.
Qed.

(** [xy]\^?\d* matches at every x and at every y. *)
Lemma re_search_xy (s : pystr) (c : N) :
  In c (u "xy") -> In c s ->
  re_search (re_compile (Seq [AnyOf (u "xy"); Opt (Lit 94); Star Digit])) s = true.
Proof.
  intros Hcs Hs. apply in_split in Hs. destruct Hs as (pre & post & ->).
  apply re_search_app. intros st Hrest.
  unfold match_at, re_compile, AnyOf, Opt. cbn [pat_re pat_icase mt Seq].
  unfold m_advance at 1. cbn [m_rest]. rewrite Hrest, (any_of_match (u "xy") c Hcs).
  match goal with |- is_Some (match ?a with Some m => Some m | None => ?b end) =>
    destruct a; [eauto|] end.
  apply star_loop_Some.
Qed.

Lemma validate_accepts (t : pystr) :
  any_in NON_MATH_INDICATORS (topic_lower t) = false ->
  has_math_keywords t || has_math_patterns t = true ->
  validate_math_input t = (true, MSG_VALID).
Proof.
  intros Hind Hacc. unfold validate_math_input.
  destruct (py_not t || py_not (strip t)) eqn:Hblank.
  - rewrite (blank_matches_nothing t Hblank) in Hacc. discriminate.
  - rewrite Hind, Hacc. reflexivity.
Qed.

End PatternFacts.

(** X16 (validate_math_input with MATH_PATTERNS): one character is enough
    to pass the guardrail.  Every input without non-math indicator phrase
    whose lowercased, stripped text contains one of + - * / = < > or one
    of the signs for at most, at least, unequal, plus-minus, infinity, or
    the letter x or y, is valid with "Valid mathematical input": a hyphen
    or the y of an ordinary word makes a text mathematical. *)
Theorem X16_one_character_passes_the_guardrail `{UnicodeData} (t : pystr) (c : N) :
  any_in NON_MATH_INDICATORS (topic_lower t) = false ->
  In c (topic_lower t) ->
  In c (u "+-*/=<>xy" ++ [8804; 8805; 8800; 177; 8734]%N) ->
  validate_math_input t = (true, MSG_VALID).
Proof.
  intros Hind Hin Hc. apply validate_accepts; [exact Hind|].
  apply orb_true_iff. right. unfold has_math_patterns, MATH_PATTERNS.
  cbn [existsb]. apply orb_true_iff.
  assert (Hcases : In c (u "+-*/=<>" ++ [8804; 8805; 8800; 177; 8734]%N) \/ In c (u "xy")).
  { simpl in Hc. simpl. tauto. }
  destruct Hcases as [Hop | Hxy].
  - left. exact (re_search_any_of _ _ c Hop Hin).
  - right. apply orb_true_iff. left. exact (re_search_xy _ c Hxy Hin).
Qed.

Lemma X16_one_character_passes_the_guardrail_witness :
  validate_math_input (u "Tell me about your day") = (true, MSG_VALID) /\
  validate_math_input (u "a well-known poem") = (true, MSG_VALID).
Proof.
  split.
  - apply (X16_one_character_passes_the_guardrail (u "Tell me about your day") 121%N);
      [reflexivity | vm_compute; tauto | vm_compute; tauto].
  - apply (X16_one_character_passes_the_guardrail (u "a well-known poem") 45%N);
      [reflexivity | vm_compute; tauto | vm_compute; tauto].
Defined.

(** X17 (validate_math_input with EDGE_CASE_WORDS): the verdict and the
    message go together, and the cautious acceptance has three triggers,
    not four.  The input is valid exactly when the message is "Valid
    mathematical input" or the caution message; the caution message is
    given only when no keyword and no pattern matched and the text contains
    find, what is or how much.  The fourth edge-case word, calculate, never
    leads to it, being a math keyword as well. *)
Theorem X17_caution_has_three_triggers `{UnicodeData} (t : pystr) :
  (fst (validate_math_input t) = true <->
   snd (validate_math_input t) = MSG_VALID \/
   snd (validate_math_input t) = MSG_CAUTION) /\
  (snd (validate_math_input t) = MSG_CAUTION ->
   has_math_keywords t = false /\
   has_math_patterns t = false /\
   py_in (u "calculate") (topic_lower t) = false /\
   (py_in (u "find") (topic_lower t) = true \/
    py_in (u "what is") (topic_lower t) = true \/
    py_in (u "how much") (topic_lower t) = true)).
Proof.
  unfold validate_math_input.
  destruct (py_not t || py_not (strip t));
    [cbn [fst snd]; split; [split; [discriminate | intros [Hm | Hm]; vm_compute in Hm; discriminate]
                   | intros Hm; vm_compute in Hm; discriminate]|].
  destruct (any_in NON_MATH_INDICATORS (topic_lower t));
    [cbn [fst snd]; split; [split; [discriminate | intros [Hm | Hm]; vm_compute in Hm; discriminate]
                   | intros Hm; vm_compute in Hm; discriminate]|].
  destruct (has_math_keywords t) eqn:Hk; cbn [fst snd];
    [split; [split; [intros _; left; reflexivity | reflexivity]
            | intros Hm; vm_compute in Hm; discriminate]|].
  destruct (has_math_patterns t) eqn:Hp; cbn [fst snd];
    [split; [split; [intros _; left; reflexivity | reflexivity]
            | intros Hm; vm_compute in Hm; discriminate]|].
  destruct (any_in EDGE_CASE_WORDS (topic_lower t)) eqn:He; cbn [fst snd].
  - split; [split; [intros _; right; reflexivity | reflexivity]|]. intros _. split; [reflexivity|]. split; [reflexivity|].
    assert (Hcalc : py_in (u "calculate") (topic_lower t) = false).
    { destruct (py_in (u "calculate") (topic_lower t)) eqn:Hc; [|reflexivity].
      assert (Hk' : has_math_keywords t = true); [|congruence].
      apply has_math_keywords_iff. exists (u "calculate").
      split; [apply in_map; simpl; tauto | exact Hc]. }
    split; [exact Hcalc|].
    unfold any_in, EDGE_CASE_WORDS in He. cbn [map existsb] in He.
    rewrite Hcalc in He.
    destruct (py_in (u "find") (topic_lower t)); [auto|].
    destruct (py_in (u "what is") (topic_lower t)); [auto|].
    destruct (py_in (u "how much") (topic_lower t)); [auto|].
    discriminate.
  - split; [split; [discriminate | intros [Hm | Hm]; vm_compute in Hm; discriminate]
           | intros Hm; vm_compute in Hm; discriminate].
Qed.

Lemma X17_caution_has_three_triggers_witness :
  snd (validate_math_input (u "How much is that?")) = MSG_CAUTION /\
  py_in (u "how much") (topic_lower (u "How much is that?")) = true.
Proof.
  split; [reflexivity|].
  destruct (X17_caution_has_three_triggers (u "How much is that?")) as [_ Hc].
  destruct (Hc eq_refl) as (_ & _ & _ & [Hf | [Hw | Hh]]).
  - vm_compute in Hf. discriminate.
  - vm_compute in Hw. discriminate.
  - exact Hh.
Defined.

(** ** The embedding call and the web search tool *)

(** X18 (get_embeddings): what the embedding call makes of the answer of
    the service.  With a status outside 400..599 and a JSON body: a list
    whose first element is a list gives that first element (the embedding
    of the one input; further rows are dropped); a list whose first element
    is not a list is returned whole; an empty list, a dict, a number, a
    boolean or null raises.  With a status in 400..599 it raises, whatever
    the body. *)
Theorem X18_embedding_shapes (kb : kb_services) (query : pystr) (resp : response) :
  kb_post kb HF_API_URL (HF_API_KEY kb) (JDict [(u "inputs", JStr query)]) = Ok resp ->
  (in_range 400 599 (status_code resp) = true ->
   exists e, get_embeddings kb query tt = (Raise e, tt)) /\
  (in_range 400 599 (status_code resp) = false ->
   forall body, json_body resp = Ok body ->
     (forall v rest, body = JList (JList v :: rest) ->
        get_embeddings kb query tt = (Ok (JList v), tt)) /\
     (forall x rest, body = JList (x :: rest) -> is_list x = false ->
        get_embeddings kb query tt = (Ok body, tt)) /\
     (match body with
      | JList [] | JDict _ | JNum _ | JBool _ | JNull => True
      | _ => False
      end -> exists e, get_embeddings kb query tt = (Raise e, tt))).
Proof.
  intros Hpost. unfold get_embeddings, bind, lift, raise_for_status.
  rewrite Hpost. split.
  - intros Hst. rewrite Hst. unfold raise. eauto.
  - intros Hst body Hbody. rewrite Hst, Hbody. unfold ret. split; [|split].
    + intros v rest ->. reflexivity.
    + intros x rest -> Hx. simpl. rewrite Hx. reflexivity.
    + destruct body as [| b | n | str | [|x l] | kv]; simpl; intros Hm;
        try contradiction; eauto.
Qed.

Lemma X18_embedding_shapes_witness :
  get_embeddings kb_demo (u "derivative of a product") tt
  = (Ok (JList [JNum (u "0.1"); JNum (u "0.2")]), tt).
Proof.
  destruct (X18_embedding_shapes kb_demo (u "derivative of a product")
              {| status_code := 200;
                 json_body := Ok (JList [JList [JNum (u "0.1"); JNum (u "0.2")]]) |}
              eq_refl) as [_ Hok].
  destruct (Hok eq_refl _ eq_refl) as (Hnested & _).
  exact (Hnested _ _ eq_refl).
Defined.

(** X19 (websearch_tool): the web search tool never raises.  It asks for 3
    results with the depth "basic" and returns their serialization; when
    the search or the serialization fails, it returns the text of the
    failure after "Error: ", as an ordinary result. *)
Theorem X19_websearch_returns_a_text (web : web_services) (query : pystr) :
  exists r,
    websearch_tool web query tt = (Ok r, tt) /\
    (forall e, web_search web query 3 (u "basic") = Raise e -> r = u "Error: " ++ e) /\
    (forall results,
       web_search web query 3 (u "basic") = Ok results ->
       (forall e, web_dumps web results 2 = Raise e -> r = u "Error: " ++ e) /\
       (forall text, web_dumps web results 2 = Ok text -> r = text)).
Proof.
  unfold websearch_tool, try_except, bind, lift, ret.
  destruct (web_search web query 3 (u "basic")) as [results|e].
  - destruct (web_dumps web results 2) as [text|e] eqn:Ed.
    + exists text. split; [reflexivity|]. split; [discriminate|].
      intros results' Heq. injection Heq as <-. rewrite Ed.
      split; [discriminate | intros x Hx; congruence].
    + exists (u "Error: " ++ e). split; [reflexivity|]. split; [discriminate|].
      intros results' Heq. injection Heq as <-. rewrite Ed.
      split; [intros x Hx; congruence | discriminate].
  - exists (u "Error: " ++ e). split; [reflexivity|].
    split; [intros x Hx; congruence | discriminate].
Qed.
